(** * JsonSchemaFormComponent: the form-initialisation engine

    A shallow embedding of [src/library/json-schema-form.component.ts]:
    the [initializeForm] method of the root component, its value-change
    handler and [submitForm].

    JavaScript values are a first-order datatype; an object keeps its
    keys in insertion order, as [Object.keys] reports them.  The component
    and the [JsonSchemaFormService] it drives ([this] and [this.jsf]) are
    records threaded through the phases of [initializeForm]; the
    exceptions the method can raise by itself, a [TypeError] out of
    [Object.assign] or out of a method call on [null], are carried by a
    small error monad.  An exception out of a collaborator, ajv among
    them, is not modelled: the collaborators are functions that return.

    Values have no identity here.  The two writes that the method makes
    straight into an object of its caller, the [type] assignment of line
    200 and the [fixJsonFormOptions] calls of lines 261 and 285, are
    written back to the input they reach; what the helpers rewrite later
    in place is followed on the engine's side only, and the reference
    library holds its entries by value.

    Everything imported from [./utilities/index], the service's methods,
    the framework library and ajv are not part of the sources at hand.
    The small ones that the component's branches test (type predicates,
    [JsonPointer]) are modelled from the specification, each marked so;
    the builders are fields of a [Collaborators] record over which the
    development is parametric. *)

From Stdlib Require Import ZArith String Ascii List Bool Lia DecimalString
  DecimalNat.
From stdpp Require Import base option list gmap strings.

Local Open Scope string_scope.
Local Open Scope list_scope.

(** ** JavaScript values *)

Local Unset Elimination Schemes.
Inductive value : Type :=
| VUndefined
| VNull
| VBool (b : bool)
| VNum (n : Z)
| VStr (s : string)
| VArr (items : list value)
| VObj (props : list (string * value)).
Local Set Elimination Schemes.

(** The two ways a step can stop: a JavaScript [TypeError], or a result
    that the [value] type cannot hold (a wrapper object around a
    primitive, an array carrying named properties). *)
Inductive failure : Type := TypeError | OutsideModel.

Inductive res (A : Type) : Type :=
| Ok (a : A)
| Err (e : failure).
Arguments Ok {A} a.
Arguments Err {A} e.

#[global] Instance res_ret : MRet res := @Ok.

#[global] Instance res_bind : MBind res := fun A B k m =>
  match m with
  | Ok a => k a
  | Err e => Err e
  end.

Fixpoint foldRes {A S : Type} (f : A -> S -> res S) (l : list A) (s : S)
  : res S :=
  match l with
  | [] => Ok s
  | a :: l' => s' ← f a s; foldRes f l' s'
  end.

(** *** Language-level operations *)

(** Truthiness, as [if (x)], [x || y] and [!x] see it. *)
Definition truthy (v : value) : bool :=
  match v with
  | VUndefined | VNull => false
  | VBool b => b
  | VNum n => negb (n =? 0)%Z
  | VStr s => negb (s =? "")
  | VArr _ | VObj _ => true
  end.

(** [a || b] *)
Definition jsOr (a b : value) : value := if truthy a then a else b.

Fixpoint assoc (props : list (string * value)) (k : string) : option value :=
  match props with
  | [] => None
  | (k', v) :: rest => if k' =? k then Some v else assoc rest k
  end.

(** [props[k] = v] on the key list of an object: an existing key keeps
    its position, a new key goes last. *)
Fixpoint assocSet (props : list (string * value)) (k : string) (v : value)
  : list (string * value) :=
  match props with
  | [] => [(k, v)]
  | (k', v') :: rest =>
      if k' =? k then (k', v) :: rest else (k', v') :: assocSet rest k v
  end.

Fixpoint assocDel (props : list (string * value)) (k : string)
  : list (string * value) :=
  match props with
  | [] => []
  | (k', v') :: rest =>
      if k' =? k then assocDel rest k else (k', v') :: assocDel rest k
  end.

(** [o.k] / [o[k]].  Every property read of the component sits behind a
    guard that excludes [undefined] and [null]; on anything but an object
    the named properties the component asks for do not exist. *)
Definition prop (o : value) (k : string) : value :=
  match o with
  | VObj props => default VUndefined (assoc props k)
  | _ => VUndefined
  end.

(** [o.k = v] on an object. *)
Definition setProp (o : value) (k : string) (v : value) : value :=
  match o with
  | VObj props => VObj (assocSet props k v)
  | _ => o
  end.

(** [delete o[k]] *)
Definition deleteProp (o : value) (k : string) : value :=
  match o with
  | VObj props => VObj (assocDel props k)
  | _ => o
  end.

(** [Object.assign(target, source)]: for each own key of [source], in
    order, [target[key] = source[key]].  A target that is [undefined] or
    [null] raises; a source without own enumerable keys adds nothing. *)
Definition assignProps (tprops sprops : list (string * value))
  : list (string * value) :=
  fold_left
    (fun acc kv => assocSet acc (fst kv) (default VUndefined (assoc sprops (fst kv))))
    sprops tprops.

Definition objectAssign (target source : value) : res value :=
  match target with
  | VUndefined | VNull => Err TypeError
  | VObj tprops =>
      match source with
      | VObj sprops => Ok (VObj (assignProps tprops sprops))
      | VArr (_ :: _) | VStr (String _ _) => Err OutsideModel
      | _ => Ok target
      end
  | _ => Err OutsideModel
  end.

(** [_.cloneDeep]: values of the embedding have no identity, a deep copy
    of a value is that value. *)
Definition cloneDeep (v : value) : value := v.

(** [v === s] for a string literal [s]. *)
Definition strictEqStr (v : value) (s : string) : bool :=
  match v with
  | VStr s' => s' =? s
  | _ => false
  end.

(** [array.indexOf(s) === -1] for a string literal [s]. *)
Definition lacksString (arr : value) (s : string) : bool :=
  match arr with
  | VArr items => negb (existsb (fun v => strictEqStr v s) items)
  | _ => true
  end.

(** Canonical array indices: the decimal numerals without leading zeros. *)
Definition keyOfIndex (i : nat) : string :=
  NilEmpty.string_of_uint (Nat.to_uint i).

Definition indexOfKey (k : string) : option nat :=
  match NilEmpty.uint_of_string k with
  | Some u =>
      let i := Nat.of_uint u in
      if keyOfIndex i =? k then Some i else None
  | None => None
  end.

(** [s.replace(/pat/g, rep)] for a pattern without metacharacters: the
    matches are found left to right and do not overlap.  [skip] counts
    the characters of a match still to be dropped. *)
Fixpoint replaceAllFrom (pat rep : string) (skip : nat) (s : string) : string :=
  match s with
  | EmptyString => EmptyString
  | String c s' =>
      match skip with
      | S n => replaceAllFrom pat rep n s'
      | O =>
          if String.prefix pat s
          then rep +:+ replaceAllFrom pat rep (String.length pat - 1) s'
          else String c (replaceAllFrom pat rep 0 s')
      end
  end.

Definition replaceAll (pat rep s : string) : string :=
  replaceAllFrom pat rep 0 s.

(** [s.slice(0, 3)] and [s.slice(3)] *)
Definition sliceTo (n : nat) (s : string) : string := String.substring 0 n s.
Definition sliceFrom (n : nat) (s : string) : string :=
  String.substring n (String.length s - n) s.

(** [keys.slice(0, -2)] *)
Definition dropLast2 {A : Type} (l : list A) : list A :=
  firstn (length l - 2) l.

(** ** Utilities *)

(** Modelled from the spec: [isObject] of [./utilities/index] (not part of
    the sources); the component uses it to tell a schema, an options
    object or a data object from everything else, arrays included. *)
Definition isObject (v : value) : bool :=
  match v with
  | VObj _ => true
  | _ => false
  end.

(** Modelled from the spec: [isArray] of [./utilities/index]; 6 speaks of
    a layout "when array". *)
Definition isArray (v : value) : bool :=
  match v with
  | VArr _ => true
  | _ => false
  end.

(** Modelled from the spec: [isString] of [./utilities/index]; 4.2 speaks
    of a node bearing a [$ref] string. *)
Definition isString (v : value) : bool :=
  match v with
  | VStr _ => true
  | _ => false
  end.

(** Modelled from the spec: [hasOwn] of [./utilities/index]; 4.1 speaks
    of a schema that "lacks a type" or "has a properties map": the key is
    an own key of the object.  On an array the own keys are its indices;
    nothing else has own keys. *)
Definition hasOwn (o : value) (k : string) : bool :=
  match o with
  | VObj props => bool_decide (is_Some (assoc props k))
  | VArr items =>
      match indexOfKey k with
      | Some i => bool_decide (i < length items)
      | None => false
      end
  | _ => false
  end.

(** Modelled from the spec: [isEmpty] of [./utilities/index]; 4.1 and 4.3
    call a schema or the initial data empty when there is nothing in it:
    an object without keys, an array without items, an absent value. *)
Definition isEmpty (v : value) : bool :=
  match v with
  | VObj [] | VArr [] | VUndefined | VNull | VStr "" => true
  | _ => false
  end.

(** Modelled from the spec: [hasValue] of [./utilities/index]; a value is
    there unless it is [undefined], [null] or the empty string (the root
    pointer among them). *)
Definition hasValue (v : value) : bool :=
  match v with
  | VUndefined | VNull | VStr "" => false
  | _ => true
  end.

(** ** JSON Pointers *)

Module JsonPointer.

(** Modelled from the spec: the [JsonPointer] helper of
    [./utilities/index] is not part of the sources.  The glossary
    defines a JSON Pointer as a path string identifying a location in a
    JSON-like tree, such as [/properties/name]; references are written
    as URI fragments ([#], [#/properties/b]).  Keys are separated by
    [/], with [~1] and [~0] standing for [/] and [~] inside a key. *)

Definition escape (k : string) : string :=
  replaceAll "/" "~1" (replaceAll "~" "~0" k).

Definition unescape (k : string) : string :=
  replaceAll "~0" "~" (replaceAll "~1" "/" k).

Fixpoint splitOn (sep : ascii) (s : string) : list string :=
  match s with
  | EmptyString => [EmptyString]
  | String c s' =>
      if Ascii.eqb c sep then EmptyString :: splitOn sep s'
      else match splitOn sep s' with
           | t :: ts => String c t :: ts
           | [] => [String c EmptyString]
           end
  end.

(** Modelled from the spec: [JsonPointer.parse], the keys of a pointer
    from the root down.  What stands before the first [/] (nothing, or
    the [#] of a fragment) is not a key. *)
Definition parse (pointer : string) : list string :=
  match splitOn "/" pointer with
  | _ :: keys => map unescape keys
  | [] => []
  end.

Definition join (keys : list string) : string :=
  fold_right (fun k acc => "/" +:+ escape k +:+ acc) "" keys.

(** Modelled from the spec: [JsonPointer.compile], 4.2 step 1:
    "normalize the reference into a canonical pointer string". *)
Definition compile (reference : string) : string := join (parse reference).

(** Modelled from the spec: [JsonPointer.toKey], the last key of a
    pointer; the root pointer has none. *)
Definition toKey (pointer : string) : option string := last (parse pointer).

Fixpoint isPrefix (short long : list string) : bool :=
  match short, long with
  | [], _ => true
  | k :: short', k' :: long' => (k =? k') && isPrefix short' long'
  | _ :: _, [] => false
  end.

(** Modelled from the spec: [JsonPointer.isSubPointer], 4.2 step 2:
    the first pointer designates an ancestor of the location of the
    second, or that location itself. *)
Definition isSubPointer (shortPointer longPointer : string) : bool :=
  isPrefix (parse shortPointer) (parse longPointer).

(** The member of a container under a key. *)
Definition child (v : value) (k : string) : option value :=
  match v with
  | VObj props => assoc props k
  | VArr items => i ← indexOfKey k; items !! i
  | _ => None
  end.

(** Modelled from the spec: [JsonPointer.get], the value a pointer
    designates from a root, if the path exists. *)
Fixpoint get (object : value) (keys : list string) : option value :=
  match keys with
  | [] => Some object
  | k :: keys' => c ← child object k; get c keys'
  end.

(** Modelled from the spec: [JsonPointer.has], "a value already exists
    at that location". *)
Definition has (object : value) (keys : list string) : bool :=
  bool_decide (is_Some (get object keys)).

(** Modelled from the spec: [JsonPointer.set], the tree with the value
    at the pointer replaced.  Objects missing on the way are created
    (the vendor-extension bag of 4.4 is); an array takes an item at an
    existing index or at its end; where the path meets anything else
    the tree is returned as it is. *)
Fixpoint set (object : value) (keys : list string) (x : value) : value :=
  match keys with
  | [] => x
  | k :: keys' =>
      match object with
      | VObj props =>
          VObj (assocSet props k
                  (set (default (VObj []) (assoc props k)) keys' x))
      | VArr items =>
          match indexOfKey k with
          | Some i =>
              match items !! i with
              | Some c => VArr (<[i := set c keys' x]> items)
              | None =>
                  if (i =? length items)%nat
                  then VArr (items ++ [set (VObj []) keys' x])
                  else object
              end
          | None => object
          end
      | _ => object
      end
  end.

(** The nodes of a tree with their pointers, a node before its
    members, members in key order. *)
Fixpoint deepNodes (object : value) (pointer : string)
  : list (value * string) :=
  (object, pointer) ::
  match object with
  | VObj props =>
      (fix members (ps : list (string * value)) : list (value * string) :=
         match ps with
         | [] => []
         | (k, c) :: ps' =>
             deepNodes c (pointer +:+ "/" +:+ escape k) ++ members ps'
         end) props
  | VArr items =>
      (fix members (i : nat) (cs : list value) : list (value * string) :=
         match cs with
         | [] => []
         | c :: cs' =>
             deepNodes c (pointer +:+ "/" +:+ keyOfIndex i) ++ members (S i) cs'
         end) 0 items
  | _ => []
  end.

(** Modelled from the spec: [JsonPointer.forEachDeep], 4.2: a
    depth-first, parent-before-child traversal in document order that
    hands each node and its pointer to the callback and does not
    revisit what a callback splices in.  [S] is whatever the callback
    updates.  The resolver passes a third argument, [true], about which
    the specification is silent; it is kept and given no meaning. *)
Definition forEachDeep {S : Type} (object : value)
    (fn : value -> string -> S -> res S) (flag : bool) (s : S) : res S :=
  foldRes (fun node => fn (fst node) (snd node)) (deepNodes object "") s.

End JsonPointer.

(** ** The service and the component *)

Module Jsf.

(** The state of [JsonSchemaFormService] that the component reads and
    writes as [this.jsf.*].  The reference library (a plain object used
    as a dictionary) and the [Map]s are finite maps keyed by pointer. *)

Record t : Type := mk {
  schema : value;
  layout : value;
  initialValues : value;
  dataMap : gmap string value;
  schemaRefLibrary : gmap string value;
  layoutRefLibrary : value;
  templateRefLibrary : value;
  formGroupTemplate : value;
  formGroup : value;
  framework : value;
  globalOptions : value;
  tpldata : value;
  AngularSchemaFormCompatibility : bool;
  ReactJsonSchemaFormCompatibility : bool;
  JsonFormCompatibility : bool;
  schemaCircularRefMap : gmap string string;
  dataCircularRefMap : gmap string string;
  arrayMap : gmap string value
}.

Definition set_schema (x : value) (s : t) : t :=
  {| schema := x;
     layout := layout s;
     initialValues := initialValues s;
     dataMap := dataMap s;
     schemaRefLibrary := schemaRefLibrary s;
     layoutRefLibrary := layoutRefLibrary s;
     templateRefLibrary := templateRefLibrary s;
     formGroupTemplate := formGroupTemplate s;
     formGroup := formGroup s;
     framework := framework s;
     globalOptions := globalOptions s;
     tpldata := tpldata s;
     AngularSchemaFormCompatibility := AngularSchemaFormCompatibility s;
     ReactJsonSchemaFormCompatibility := ReactJsonSchemaFormCompatibility s;
     JsonFormCompatibility := JsonFormCompatibility s;
     schemaCircularRefMap := schemaCircularRefMap s;
     dataCircularRefMap := dataCircularRefMap s;
     arrayMap := arrayMap s |}.

Definition set_layout (x : value) (s : t) : t :=
  {| schema := schema s;
     layout := x;
     initialValues := initialValues s;
     dataMap := dataMap s;
     schemaRefLibrary := schemaRefLibrary s;
     layoutRefLibrary := layoutRefLibrary s;
     templateRefLibrary := templateRefLibrary s;
     formGroupTemplate := formGroupTemplate s;
     formGroup := formGroup s;
     framework := framework s;
     globalOptions := globalOptions s;
     tpldata := tpldata s;
     AngularSchemaFormCompatibility := AngularSchemaFormCompatibility s;
     ReactJsonSchemaFormCompatibility := ReactJsonSchemaFormCompatibility s;
     JsonFormCompatibility := JsonFormCompatibility s;
     schemaCircularRefMap := schemaCircularRefMap s;
     dataCircularRefMap := dataCircularRefMap s;
     arrayMap := arrayMap s |}.

Definition set_initialValues (x : value) (s : t) : t :=
  {| schema := schema s;
     layout := layout s;
     initialValues := x;
     dataMap := dataMap s;
     schemaRefLibrary := schemaRefLibrary s;
     layoutRefLibrary := layoutRefLibrary s;
     templateRefLibrary := templateRefLibrary s;
     formGroupTemplate := formGroupTemplate s;
     formGroup := formGroup s;
     framework := framework s;
     globalOptions := globalOptions s;
     tpldata := tpldata s;
     AngularSchemaFormCompatibility := AngularSchemaFormCompatibility s;
     ReactJsonSchemaFormCompatibility := ReactJsonSchemaFormCompatibility s;
     JsonFormCompatibility := JsonFormCompatibility s;
     schemaCircularRefMap := schemaCircularRefMap s;
     dataCircularRefMap := dataCircularRefMap s;
     arrayMap := arrayMap s |}.

Definition set_dataMap (x : gmap string value) (s : t) : t :=
  {| schema := schema s;
     layout := layout s;
     initialValues := initialValues s;
     dataMap := x;
     schemaRefLibrary := schemaRefLibrary s;
     layoutRefLibrary := layoutRefLibrary s;
     templateRefLibrary := templateRefLibrary s;
     formGroupTemplate := formGroupTemplate s;
     formGroup := formGroup s;
     framework := framework s;
     globalOptions := globalOptions s;
     tpldata := tpldata s;
     AngularSchemaFormCompatibility := AngularSchemaFormCompatibility s;
     ReactJsonSchemaFormCompatibility := ReactJsonSchemaFormCompatibility s;
     JsonFormCompatibility := JsonFormCompatibility s;
     schemaCircularRefMap := schemaCircularRefMap s;
     dataCircularRefMap := dataCircularRefMap s;
     arrayMap := arrayMap s |}.

Definition set_schemaRefLibrary (x : gmap string value) (s : t) : t :=
  {| schema := schema s;
     layout := layout s;
     initialValues := initialValues s;
     dataMap := dataMap s;
     schemaRefLibrary := x;
     layoutRefLibrary := layoutRefLibrary s;
     templateRefLibrary := templateRefLibrary s;
     formGroupTemplate := formGroupTemplate s;
     formGroup := formGroup s;
     framework := framework s;
     globalOptions := globalOptions s;
     tpldata := tpldata s;
     AngularSchemaFormCompatibility := AngularSchemaFormCompatibility s;
     ReactJsonSchemaFormCompatibility := ReactJsonSchemaFormCompatibility s;
     JsonFormCompatibility := JsonFormCompatibility s;
     schemaCircularRefMap := schemaCircularRefMap s;
     dataCircularRefMap := dataCircularRefMap s;
     arrayMap := arrayMap s |}.

Definition set_layoutRefLibrary (x : value) (s : t) : t :=
  {| schema := schema s;
     layout := layout s;
     initialValues := initialValues s;
     dataMap := dataMap s;
     schemaRefLibrary := schemaRefLibrary s;
     layoutRefLibrary := x;
     templateRefLibrary := templateRefLibrary s;
     formGroupTemplate := formGroupTemplate s;
     formGroup := formGroup s;
     framework := framework s;
     globalOptions := globalOptions s;
     tpldata := tpldata s;
     AngularSchemaFormCompatibility := AngularSchemaFormCompatibility s;
     ReactJsonSchemaFormCompatibility := ReactJsonSchemaFormCompatibility s;
     JsonFormCompatibility := JsonFormCompatibility s;
     schemaCircularRefMap := schemaCircularRefMap s;
     dataCircularRefMap := dataCircularRefMap s;
     arrayMap := arrayMap s |}.

Definition set_formGroupTemplate (x : value) (s : t) : t :=
  {| schema := schema s;
     layout := layout s;
     initialValues := initialValues s;
     dataMap := dataMap s;
     schemaRefLibrary := schemaRefLibrary s;
     layoutRefLibrary := layoutRefLibrary s;
     templateRefLibrary := templateRefLibrary s;
     formGroupTemplate := x;
     formGroup := formGroup s;
     framework := framework s;
     globalOptions := globalOptions s;
     tpldata := tpldata s;
     AngularSchemaFormCompatibility := AngularSchemaFormCompatibility s;
     ReactJsonSchemaFormCompatibility := ReactJsonSchemaFormCompatibility s;
     JsonFormCompatibility := JsonFormCompatibility s;
     schemaCircularRefMap := schemaCircularRefMap s;
     dataCircularRefMap := dataCircularRefMap s;
     arrayMap := arrayMap s |}.

Definition set_formGroup (x : value) (s : t) : t :=
  {| schema := schema s;
     layout := layout s;
     initialValues := initialValues s;
     dataMap := dataMap s;
     schemaRefLibrary := schemaRefLibrary s;
     layoutRefLibrary := layoutRefLibrary s;
     templateRefLibrary := templateRefLibrary s;
     formGroupTemplate := formGroupTemplate s;
     formGroup := x;
     framework := framework s;
     globalOptions := globalOptions s;
     tpldata := tpldata s;
     AngularSchemaFormCompatibility := AngularSchemaFormCompatibility s;
     ReactJsonSchemaFormCompatibility := ReactJsonSchemaFormCompatibility s;
     JsonFormCompatibility := JsonFormCompatibility s;
     schemaCircularRefMap := schemaCircularRefMap s;
     dataCircularRefMap := dataCircularRefMap s;
     arrayMap := arrayMap s |}.

Definition set_framework (x : value) (s : t) : t :=
  {| schema := schema s;
     layout := layout s;
     initialValues := initialValues s;
     dataMap := dataMap s;
     schemaRefLibrary := schemaRefLibrary s;
     layoutRefLibrary := layoutRefLibrary s;
     templateRefLibrary := templateRefLibrary s;
     formGroupTemplate := formGroupTemplate s;
     formGroup := formGroup s;
     framework := x;
     globalOptions := globalOptions s;
     tpldata := tpldata s;
     AngularSchemaFormCompatibility := AngularSchemaFormCompatibility s;
     ReactJsonSchemaFormCompatibility := ReactJsonSchemaFormCompatibility s;
     JsonFormCompatibility := JsonFormCompatibility s;
     schemaCircularRefMap := schemaCircularRefMap s;
     dataCircularRefMap := dataCircularRefMap s;
     arrayMap := arrayMap s |}.

Definition set_globalOptions (x : value) (s : t) : t :=
  {| schema := schema s;
     layout := layout s;
     initialValues := initialValues s;
     dataMap := dataMap s;
     schemaRefLibrary := schemaRefLibrary s;
     layoutRefLibrary := layoutRefLibrary s;
     templateRefLibrary := templateRefLibrary s;
     formGroupTemplate := formGroupTemplate s;
     formGroup := formGroup s;
     framework := framework s;
     globalOptions := x;
     tpldata := tpldata s;
     AngularSchemaFormCompatibility := AngularSchemaFormCompatibility s;
     ReactJsonSchemaFormCompatibility := ReactJsonSchemaFormCompatibility s;
     JsonFormCompatibility := JsonFormCompatibility s;
     schemaCircularRefMap := schemaCircularRefMap s;
     dataCircularRefMap := dataCircularRefMap s;
     arrayMap := arrayMap s |}.

Definition set_tpldata (x : value) (s : t) : t :=
  {| schema := schema s;
     layout := layout s;
     initialValues := initialValues s;
     dataMap := dataMap s;
     schemaRefLibrary := schemaRefLibrary s;
     layoutRefLibrary := layoutRefLibrary s;
     templateRefLibrary := templateRefLibrary s;
     formGroupTemplate := formGroupTemplate s;
     formGroup := formGroup s;
     framework := framework s;
     globalOptions := globalOptions s;
     tpldata := x;
     AngularSchemaFormCompatibility := AngularSchemaFormCompatibility s;
     ReactJsonSchemaFormCompatibility := ReactJsonSchemaFormCompatibility s;
     JsonFormCompatibility := JsonFormCompatibility s;
     schemaCircularRefMap := schemaCircularRefMap s;
     dataCircularRefMap := dataCircularRefMap s;
     arrayMap := arrayMap s |}.

Definition set_AngularSchemaFormCompatibility (x : bool) (s : t) : t :=
  {| schema := schema s;
     layout := layout s;
     initialValues := initialValues s;
     dataMap := dataMap s;
     schemaRefLibrary := schemaRefLibrary s;
     layoutRefLibrary := layoutRefLibrary s;
     templateRefLibrary := templateRefLibrary s;
     formGroupTemplate := formGroupTemplate s;
     formGroup := formGroup s;
     framework := framework s;
     globalOptions := globalOptions s;
     tpldata := tpldata s;
     AngularSchemaFormCompatibility := x;
     ReactJsonSchemaFormCompatibility := ReactJsonSchemaFormCompatibility s;
     JsonFormCompatibility := JsonFormCompatibility s;
     schemaCircularRefMap := schemaCircularRefMap s;
     dataCircularRefMap := dataCircularRefMap s;
     arrayMap := arrayMap s |}.

Definition set_ReactJsonSchemaFormCompatibility (x : bool) (s : t) : t :=
  {| schema := schema s;
     layout := layout s;
     initialValues := initialValues s;
     dataMap := dataMap s;
     schemaRefLibrary := schemaRefLibrary s;
     layoutRefLibrary := layoutRefLibrary s;
     templateRefLibrary := templateRefLibrary s;
     formGroupTemplate := formGroupTemplate s;
     formGroup := formGroup s;
     framework := framework s;
     globalOptions := globalOptions s;
     tpldata := tpldata s;
     AngularSchemaFormCompatibility := AngularSchemaFormCompatibility s;
     ReactJsonSchemaFormCompatibility := x;
     JsonFormCompatibility := JsonFormCompatibility s;
     schemaCircularRefMap := schemaCircularRefMap s;
     dataCircularRefMap := dataCircularRefMap s;
     arrayMap := arrayMap s |}.

Definition set_JsonFormCompatibility (x : bool) (s : t) : t :=
  {| schema := schema s;
     layout := layout s;
     initialValues := initialValues s;
     dataMap := dataMap s;
     schemaRefLibrary := schemaRefLibrary s;
     layoutRefLibrary := layoutRefLibrary s;
     templateRefLibrary := templateRefLibrary s;
     formGroupTemplate := formGroupTemplate s;
     formGroup := formGroup s;
     framework := framework s;
     globalOptions := globalOptions s;
     tpldata := tpldata s;
     AngularSchemaFormCompatibility := AngularSchemaFormCompatibility s;
     ReactJsonSchemaFormCompatibility := ReactJsonSchemaFormCompatibility s;
     JsonFormCompatibility := x;
     schemaCircularRefMap := schemaCircularRefMap s;
     dataCircularRefMap := dataCircularRefMap s;
     arrayMap := arrayMap s |}.

Definition set_schemaCircularRefMap (x : gmap string string) (s : t) : t :=
  {| schema := schema s;
     layout := layout s;
     initialValues := initialValues s;
     dataMap := dataMap s;
     schemaRefLibrary := schemaRefLibrary s;
     layoutRefLibrary := layoutRefLibrary s;
     templateRefLibrary := templateRefLibrary s;
     formGroupTemplate := formGroupTemplate s;
     formGroup := formGroup s;
     framework := framework s;
     globalOptions := globalOptions s;
     tpldata := tpldata s;
     AngularSchemaFormCompatibility := AngularSchemaFormCompatibility s;
     ReactJsonSchemaFormCompatibility := ReactJsonSchemaFormCompatibility s;
     JsonFormCompatibility := JsonFormCompatibility s;
     schemaCircularRefMap := x;
     dataCircularRefMap := dataCircularRefMap s;
     arrayMap := arrayMap s |}.

End Jsf.

(** What leaves the component through its [EventEmitter]s. *)
Inductive event : Type :=
| onChanges (formattedData : value)
| onSubmit (formattedData : value)
| isValid (valid : bool)
| validationErrors (errors : value).

Module Component.

(** The component, [this].  [validateFormData] holds the compiled
    validator, identified by the schema ajv compiled it from ([None]
    while the field is still undefined); [ajvCompiled] lists the schemas
    handed to [ajv.compile], oldest first.  The [@Input] fields come
    next, then what the framework library was last told, the service,
    the form groups whose [valueChanges] the component subscribed to and
    the events sent through the four [@Output] emitters, oldest first. *)

Record t : Type := mk {
  formInitialized : bool;
  validateFormData : option value;
  schema : value;
  layout : value;
  data : value;
  options : value;
  form : value;
  model : value;
  JSONSchema : value;
  UISchema : value;
  formData : value;
  framework : value;
  loadExternalAssets : value;
  debug : value;
  frameworkLoadExternalAssets : value;
  frameworkName : value;
  jsf : Jsf.t;
  ajvCompiled : list value;
  subscribed : list value;
  emitted : list event
}.

Definition set_formInitialized (x : bool) (s : t) : t :=
  {| formInitialized := x;
     validateFormData := validateFormData s;
     schema := schema s;
     layout := layout s;
     data := data s;
     options := options s;
     form := form s;
     model := model s;
     JSONSchema := JSONSchema s;
     UISchema := UISchema s;
     formData := formData s;
     framework := framework s;
     loadExternalAssets := loadExternalAssets s;
     debug := debug s;
     frameworkLoadExternalAssets := frameworkLoadExternalAssets s;
     frameworkName := frameworkName s;
     jsf := jsf s;
     ajvCompiled := ajvCompiled s;
     subscribed := subscribed s;
     emitted := emitted s |}.

Definition set_validateFormData (x : option value) (s : t) : t :=
  {| formInitialized := formInitialized s;
     validateFormData := x;
     schema := schema s;
     layout := layout s;
     data := data s;
     options := options s;
     form := form s;
     model := model s;
     JSONSchema := JSONSchema s;
     UISchema := UISchema s;
     formData := formData s;
     framework := framework s;
     loadExternalAssets := loadExternalAssets s;
     debug := debug s;
     frameworkLoadExternalAssets := frameworkLoadExternalAssets s;
     frameworkName := frameworkName s;
     jsf := jsf s;
     ajvCompiled := ajvCompiled s;
     subscribed := subscribed s;
     emitted := emitted s |}.

Definition set_schema (x : value) (s : t) : t :=
  {| formInitialized := formInitialized s;
     validateFormData := validateFormData s;
     schema := x;
     layout := layout s;
     data := data s;
     options := options s;
     form := form s;
     model := model s;
     JSONSchema := JSONSchema s;
     UISchema := UISchema s;
     formData := formData s;
     framework := framework s;
     loadExternalAssets := loadExternalAssets s;
     debug := debug s;
     frameworkLoadExternalAssets := frameworkLoadExternalAssets s;
     frameworkName := frameworkName s;
     jsf := jsf s;
     ajvCompiled := ajvCompiled s;
     subscribed := subscribed s;
     emitted := emitted s |}.

Definition set_layout (x : value) (s : t) : t :=
  {| formInitialized := formInitialized s;
     validateFormData := validateFormData s;
     schema := schema s;
     layout := x;
     data := data s;
     options := options s;
     form := form s;
     model := model s;
     JSONSchema := JSONSchema s;
     UISchema := UISchema s;
     formData := formData s;
     framework := framework s;
     loadExternalAssets := loadExternalAssets s;
     debug := debug s;
     frameworkLoadExternalAssets := frameworkLoadExternalAssets s;
     frameworkName := frameworkName s;
     jsf := jsf s;
     ajvCompiled := ajvCompiled s;
     subscribed := subscribed s;
     emitted := emitted s |}.

Definition set_data (x : value) (s : t) : t :=
  {| formInitialized := formInitialized s;
     validateFormData := validateFormData s;
     schema := schema s;
     layout := layout s;
     data := x;
     options := options s;
     form := form s;
     model := model s;
     JSONSchema := JSONSchema s;
     UISchema := UISchema s;
     formData := formData s;
     framework := framework s;
     loadExternalAssets := loadExternalAssets s;
     debug := debug s;
     frameworkLoadExternalAssets := frameworkLoadExternalAssets s;
     frameworkName := frameworkName s;
     jsf := jsf s;
     ajvCompiled := ajvCompiled s;
     subscribed := subscribed s;
     emitted := emitted s |}.

Definition set_options (x : value) (s : t) : t :=
  {| formInitialized := formInitialized s;
     validateFormData := validateFormData s;
     schema := schema s;
     layout := layout s;
     data := data s;
     options := x;
     form := form s;
     model := model s;
     JSONSchema := JSONSchema s;
     UISchema := UISchema s;
     formData := formData s;
     framework := framework s;
     loadExternalAssets := loadExternalAssets s;
     debug := debug s;
     frameworkLoadExternalAssets := frameworkLoadExternalAssets s;
     frameworkName := frameworkName s;
     jsf := jsf s;
     ajvCompiled := ajvCompiled s;
     subscribed := subscribed s;
     emitted := emitted s |}.

Definition set_form (x : value) (s : t) : t :=
  {| formInitialized := formInitialized s;
     validateFormData := validateFormData s;
     schema := schema s;
     layout := layout s;
     data := data s;
     options := options s;
     form := x;
     model := model s;
     JSONSchema := JSONSchema s;
     UISchema := UISchema s;
     formData := formData s;
     framework := framework s;
     loadExternalAssets := loadExternalAssets s;
     debug := debug s;
     frameworkLoadExternalAssets := frameworkLoadExternalAssets s;
     frameworkName := frameworkName s;
     jsf := jsf s;
     ajvCompiled := ajvCompiled s;
     subscribed := subscribed s;
     emitted := emitted s |}.

Definition set_model (x : value) (s : t) : t :=
  {| formInitialized := formInitialized s;
     validateFormData := validateFormData s;
     schema := schema s;
     layout := layout s;
     data := data s;
     options := options s;
     form := form s;
     model := x;
     JSONSchema := JSONSchema s;
     UISchema := UISchema s;
     formData := formData s;
     framework := framework s;
     loadExternalAssets := loadExternalAssets s;
     debug := debug s;
     frameworkLoadExternalAssets := frameworkLoadExternalAssets s;
     frameworkName := frameworkName s;
     jsf := jsf s;
     ajvCompiled := ajvCompiled s;
     subscribed := subscribed s;
     emitted := emitted s |}.

Definition set_JSONSchema (x : value) (s : t) : t :=
  {| formInitialized := formInitialized s;
     validateFormData := validateFormData s;
     schema := schema s;
     layout := layout s;
     data := data s;
     options := options s;
     form := form s;
     model := model s;
     JSONSchema := x;
     UISchema := UISchema s;
     formData := formData s;
     framework := framework s;
     loadExternalAssets := loadExternalAssets s;
     debug := debug s;
     frameworkLoadExternalAssets := frameworkLoadExternalAssets s;
     frameworkName := frameworkName s;
     jsf := jsf s;
     ajvCompiled := ajvCompiled s;
     subscribed := subscribed s;
     emitted := emitted s |}.

Definition set_UISchema (x : value) (s : t) : t :=
  {| formInitialized := formInitialized s;
     validateFormData := validateFormData s;
     schema := schema s;
     layout := layout s;
     data := data s;
     options := options s;
     form := form s;
     model := model s;
     JSONSchema := JSONSchema s;
     UISchema := x;
     formData := formData s;
     framework := framework s;
     loadExternalAssets := loadExternalAssets s;
     debug := debug s;
     frameworkLoadExternalAssets := frameworkLoadExternalAssets s;
     frameworkName := frameworkName s;
     jsf := jsf s;
     ajvCompiled := ajvCompiled s;
     subscribed := subscribed s;
     emitted := emitted s |}.

Definition set_formData (x : value) (s : t) : t :=
  {| formInitialized := formInitialized s;
     validateFormData := validateFormData s;
     schema := schema s;
     layout := layout s;
     data := data s;
     options := options s;
     form := form s;
     model := model s;
     JSONSchema := JSONSchema s;
     UISchema := UISchema s;
     formData := x;
     framework := framework s;
     loadExternalAssets := loadExternalAssets s;
     debug := debug s;
     frameworkLoadExternalAssets := frameworkLoadExternalAssets s;
     frameworkName := frameworkName s;
     jsf := jsf s;
     ajvCompiled := ajvCompiled s;
     subscribed := subscribed s;
     emitted := emitted s |}.

Definition set_framework (x : value) (s : t) : t :=
  {| formInitialized := formInitialized s;
     validateFormData := validateFormData s;
     schema := schema s;
     layout := layout s;
     data := data s;
     options := options s;
     form := form s;
     model := model s;
     JSONSchema := JSONSchema s;
     UISchema := UISchema s;
     formData := formData s;
     framework := x;
     loadExternalAssets := loadExternalAssets s;
     debug := debug s;
     frameworkLoadExternalAssets := frameworkLoadExternalAssets s;
     frameworkName := frameworkName s;
     jsf := jsf s;
     ajvCompiled := ajvCompiled s;
     subscribed := subscribed s;
     emitted := emitted s |}.

Definition set_loadExternalAssets (x : value) (s : t) : t :=
  {| formInitialized := formInitialized s;
     validateFormData := validateFormData s;
     schema := schema s;
     layout := layout s;
     data := data s;
     options := options s;
     form := form s;
     model := model s;
     JSONSchema := JSONSchema s;
     UISchema := UISchema s;
     formData := formData s;
     framework := framework s;
     loadExternalAssets := x;
     debug := debug s;
     frameworkLoadExternalAssets := frameworkLoadExternalAssets s;
     frameworkName := frameworkName s;
     jsf := jsf s;
     ajvCompiled := ajvCompiled s;
     subscribed := subscribed s;
     emitted := emitted s |}.

Definition set_debug (x : value) (s : t) : t :=
  {| formInitialized := formInitialized s;
     validateFormData := validateFormData s;
     schema := schema s;
     layout := layout s;
     data := data s;
     options := options s;
     form := form s;
     model := model s;
     JSONSchema := JSONSchema s;
     UISchema := UISchema s;
     formData := formData s;
     framework := framework s;
     loadExternalAssets := loadExternalAssets s;
     debug := x;
     frameworkLoadExternalAssets := frameworkLoadExternalAssets s;
     frameworkName := frameworkName s;
     jsf := jsf s;
     ajvCompiled := ajvCompiled s;
     subscribed := subscribed s;
     emitted := emitted s |}.

Definition set_frameworkLoadExternalAssets (x : value) (s : t) : t :=
  {| formInitialized := formInitialized s;
     validateFormData := validateFormData s;
     schema := schema s;
     layout := layout s;
     data := data s;
     options := options s;
     form := form s;
     model := model s;
     JSONSchema := JSONSchema s;
     UISchema := UISchema s;
     formData := formData s;
     framework := framework s;
     loadExternalAssets := loadExternalAssets s;
     debug := debug s;
     frameworkLoadExternalAssets := x;
     frameworkName := frameworkName s;
     jsf := jsf s;
     ajvCompiled := ajvCompiled s;
     subscribed := subscribed s;
     emitted := emitted s |}.

Definition set_frameworkName (x : value) (s : t) : t :=
  {| formInitialized := formInitialized s;
     validateFormData := validateFormData s;
     schema := schema s;
     layout := layout s;
     data := data s;
     options := options s;
     form := form s;
     model := model s;
     JSONSchema := JSONSchema s;
     UISchema := UISchema s;
     formData := formData s;
     framework := framework s;
     loadExternalAssets := loadExternalAssets s;
     debug := debug s;
     frameworkLoadExternalAssets := frameworkLoadExternalAssets s;
     frameworkName := x;
     jsf := jsf s;
     ajvCompiled := ajvCompiled s;
     subscribed := subscribed s;
     emitted := emitted s |}.

Definition set_jsf (x : Jsf.t) (s : t) : t :=
  {| formInitialized := formInitialized s;
     validateFormData := validateFormData s;
     schema := schema s;
     layout := layout s;
     data := data s;
     options := options s;
     form := form s;
     model := model s;
     JSONSchema := JSONSchema s;
     UISchema := UISchema s;
     formData := formData s;
     framework := framework s;
     loadExternalAssets := loadExternalAssets s;
     debug := debug s;
     frameworkLoadExternalAssets := frameworkLoadExternalAssets s;
     frameworkName := frameworkName s;
     jsf := x;
     ajvCompiled := ajvCompiled s;
     subscribed := subscribed s;
     emitted := emitted s |}.

Definition set_ajvCompiled (x : list value) (s : t) : t :=
  {| formInitialized := formInitialized s;
     validateFormData := validateFormData s;
     schema := schema s;
     layout := layout s;
     data := data s;
     options := options s;
     form := form s;
     model := model s;
     JSONSchema := JSONSchema s;
     UISchema := UISchema s;
     formData := formData s;
     framework := framework s;
     loadExternalAssets := loadExternalAssets s;
     debug := debug s;
     frameworkLoadExternalAssets := frameworkLoadExternalAssets s;
     frameworkName := frameworkName s;
     jsf := jsf s;
     ajvCompiled := x;
     subscribed := subscribed s;
     emitted := emitted s |}.

Definition set_subscribed (x : list value) (s : t) : t :=
  {| formInitialized := formInitialized s;
     validateFormData := validateFormData s;
     schema := schema s;
     layout := layout s;
     data := data s;
     options := options s;
     form := form s;
     model := model s;
     JSONSchema := JSONSchema s;
     UISchema := UISchema s;
     formData := formData s;
     framework := framework s;
     loadExternalAssets := loadExternalAssets s;
     debug := debug s;
     frameworkLoadExternalAssets := frameworkLoadExternalAssets s;
     frameworkName := frameworkName s;
     jsf := jsf s;
     ajvCompiled := ajvCompiled s;
     subscribed := x;
     emitted := emitted s |}.

Definition set_emitted (x : list event) (s : t) : t :=
  {| formInitialized := formInitialized s;
     validateFormData := validateFormData s;
     schema := schema s;
     layout := layout s;
     data := data s;
     options := options s;
     form := form s;
     model := model s;
     JSONSchema := JSONSchema s;
     UISchema := UISchema s;
     formData := formData s;
     framework := framework s;
     loadExternalAssets := loadExternalAssets s;
     debug := debug s;
     frameworkLoadExternalAssets := frameworkLoadExternalAssets s;
     frameworkName := frameworkName s;
     jsf := jsf s;
     ajvCompiled := ajvCompiled s;
     subscribed := subscribed s;
     emitted := x |}.

End Component.


(** ** Collaborators *)

(** What the component calls and the sources do not contain.  A method of
    the service that is named after one field ([setOptions], [setTpldata],
    [convertJsonSchema3to4]) is a function on that field; the two
    builders receive the whole service and may update any of it.
    [getFramework] answers from what the framework library was last told.
    [ajvValidate schema data] runs the validator that [ajv.compile schema]
    returned and yields its verdict and its [errors]. *)
Record Collaborators : Type := {
  setOptions : value -> value -> value;
  setTpldata : value -> value -> value;
  convertJsonSchema3to4 : value -> value;
  getFramework : value -> value -> value;
  ajvValidate : value -> value -> bool * value;
  getSchemaReference : value -> string -> gmap string value -> value;
  fixJsonFormOptions : value -> value;
  buildSchemaFromLayout : value -> value;
  buildSchemaFromData : value -> value;
  buildFormGroupTemplate : Jsf.t -> value -> bool -> value * Jsf.t;
  buildLayout : Jsf.t -> value * Jsf.t;
  buildFormGroup : value -> value;
  formatFormData :
    value -> gmap string value -> gmap string string -> gmap string value ->
    value -> value
}.

Notation "s |> f" := (f s) (at level 45, left associativity, only parsing).

(** [this.jsf.x = ...] *)
Definition onJsf (f : Jsf.t -> Jsf.t) (this : Component.t) : Component.t :=
  Component.set_jsf (f (Component.jsf this)) this.

(** [emitter.emit(...)] *)
Definition emit (e : event) (this : Component.t) : Component.t :=
  Component.set_emitted (Component.emitted this ++ [e]) this.

(** Which input the schema is taken from (lines 178-191). *)
Inductive schemaSource : Type :=
| SrcSchema
| SrcFormSchema
| SrcJSONSchema
| SrcFormJSONSchema
| SrcForm
| SrcNone.

Definition schemaSourceOf (this : Component.t) : schemaSource :=
  let form := Component.form this in
  if isObject (Component.schema this) then SrcSchema
  else if hasOwn form "schema" && isObject (prop form "schema")
  then SrcFormSchema
  else if isObject (Component.JSONSchema this) then SrcJSONSchema
  else if hasOwn form "JSONSchema" && isObject (prop form "JSONSchema")
  then SrcFormJSONSchema
  else if hasOwn form "properties" && isObject (prop form "properties")
  then SrcForm
  else SrcNone.

(** The input object behind a source. *)
Definition sourceSchema (src : schemaSource) (this : Component.t) : value :=
  match src with
  | SrcSchema => Component.schema this
  | SrcFormSchema => prop (Component.form this) "schema"
  | SrcJSONSchema => Component.JSONSchema this
  | SrcFormJSONSchema => prop (Component.form this) "JSONSchema"
  | SrcForm => Component.form this
  | SrcNone => VUndefined
  end.

(** A key assigned on the input object behind a source: the engine's
    schema is that very object until line 206 or a helper replaces it, so
    the assignment of line 200 lands in the caller's object as well. *)
Definition assignInSource (src : schemaSource) (k : string) (v : value)
    (this : Component.t) : Component.t :=
  let form := Component.form this in
  match src with
  | SrcSchema =>
      Component.set_schema (setProp (Component.schema this) k v) this
  | SrcFormSchema =>
      Component.set_form
        (setProp form "schema" (setProp (prop form "schema") k v)) this
  | SrcJSONSchema =>
      Component.set_JSONSchema (setProp (Component.JSONSchema this) k v) this
  | SrcFormJSONSchema =>
      Component.set_form
        (setProp form "JSONSchema" (setProp (prop form "JSONSchema") k v)) this
  | SrcForm => Component.set_form (setProp form k v) this
  | SrcNone => this
  end.

Section Engine.

Variable U : Collaborators.

(** ** [initializeForm], phase by phase *)

(** The guard of line 132. *)
Definition hasInputs (this : Component.t) : bool :=
  truthy (Component.schema this) || truthy (Component.layout this) ||
  truthy (Component.data this) || truthy (Component.form this) ||
  truthy (Component.JSONSchema this) || truthy (Component.UISchema this).

(** Lines 136-144. *)
Definition resetEngine (this : Component.t) : Component.t :=
  this
  |> Component.set_formInitialized false
  |> onJsf (Jsf.set_schema (VObj []))
  |> onJsf (Jsf.set_layout (VArr []))
  |> onJsf (Jsf.set_initialValues (VObj []))
  |> onJsf (Jsf.set_dataMap ∅)
  |> onJsf (Jsf.set_schemaRefLibrary ∅)
  |> onJsf (Jsf.set_layoutRefLibrary (VObj []))
  |> onJsf (Jsf.set_formGroupTemplate (VObj []))
  |> onJsf (Jsf.set_formGroup VNull).

(** [this.jsf.setOptions(o)] *)
Definition jsfSetOptions (o : value) (j : Jsf.t) : Jsf.t :=
  Jsf.set_globalOptions (setOptions U o (Jsf.globalOptions j)) j.

(** Lines 150-168: global options, framework, template data. *)
Definition initOptions (this : Component.t) : Component.t :=
  let options := Component.options this in
  let form := Component.form this in
  let this1 :=
    onJsf (jsfSetOptions (VObj [("debug", VBool (truthy (Component.debug this)))]))
          this in
  let loadExternalAssets0 := jsOr (Component.loadExternalAssets this) (VBool false) in
  let framework0 := jsOr (Component.framework this) VNull in
  let '(this2, loadExternalAssets1, framework1) :=
    if isObject options
    then (onJsf (jsfSetOptions options) this1,
          jsOr (prop options "loadExternalAssets") loadExternalAssets0,
          jsOr (prop options "framework") framework0)
    else (this1, loadExternalAssets0, framework0) in
  let '(this3, loadExternalAssets2, framework2) :=
    if isObject form && isObject (prop form "options")
    then (onJsf (jsfSetOptions (prop form "options")) this2,
          jsOr (prop (prop form "options") "loadExternalAssets") loadExternalAssets1,
          jsOr (prop (prop form "options") "framework") framework1)
    else (this2, loadExternalAssets1, framework1) in
  let this4 :=
    this3
    |> Component.set_frameworkLoadExternalAssets loadExternalAssets2
    |> Component.set_frameworkName framework2
    |> onJsf (Jsf.set_framework (getFramework U loadExternalAssets2 framework2)) in
  if isObject form && isObject (prop form "tpldata")
  then onJsf (fun j => Jsf.set_tpldata
                         (setTpldata U (prop form "tpldata") (Jsf.tpldata j)) j)
             this4
  else this4.

(** Lines 178-191: the schema, from the first input that has one. *)
Definition selectSchema (this : Component.t) : Component.t :=
  let src := schemaSourceOf this in
  match src with
  | SrcSchema =>
      this
      |> onJsf (Jsf.set_AngularSchemaFormCompatibility true)
      |> onJsf (Jsf.set_schema (sourceSchema src this))
  | SrcFormSchema | SrcForm =>
      this |> onJsf (Jsf.set_schema (sourceSchema src this))
  | SrcJSONSchema | SrcFormJSONSchema =>
      this
      |> onJsf (Jsf.set_ReactJsonSchemaFormCompatibility true)
      |> onJsf (Jsf.set_schema (sourceSchema src this))
  | SrcNone => this
  end.

(** Lines 196-209: the JSON Form shorthands. *)
Definition normalizeSchema (this : Component.t) : Component.t :=
  let schema := Jsf.schema (Component.jsf this) in
  if negb (hasOwn schema "type") && hasOwn schema "properties" &&
     isObject (prop schema "properties")
  then
    this
    |> onJsf (Jsf.set_schema (setProp schema "type" (VStr "object")))
    |> assignInSource (schemaSourceOf this) "type" (VStr "object")
  else if negb (hasOwn schema "type") ||
          negb (strictEqStr (prop schema "type") "object") ||
          negb (hasOwn schema "properties")
  then
    this
    |> onJsf (Jsf.set_JsonFormCompatibility true)
    |> onJsf (Jsf.set_schema
                (VObj [("type", VStr "object"); ("properties", schema)]))
  else this.

(** [this.validateFormData = this.ajv.compile(this.jsf.schema)]: the
    schema handed to ajv is recorded, and the validator stands for that
    schema.  The compilation is taken to succeed; what ajv does with a
    schema it rejects is not modelled. *)
Definition compileSchema (this : Component.t) : Component.t :=
  let schema := Jsf.schema (Component.jsf this) in
  this
  |> Component.set_ajvCompiled (Component.ajvCompiled this ++ [schema])
  |> Component.set_validateFormData (Some schema).

(** Lines 222-228: the library entry of a target, looked up once. *)
Definition storeReference (newReference : string) (j : Jsf.t) : Jsf.t :=
  if hasValue (VStr newReference) &&
     negb (bool_decide (is_Some (Jsf.schemaRefLibrary j !! newReference)))
  then Jsf.set_schemaRefLibrary
         (<[newReference :=
              getSchemaReference U (Jsf.schema j) newReference
                                 (Jsf.schemaRefLibrary j)]>
            (Jsf.schemaRefLibrary j)) j
  else j.

(** Lines 219-243: what the resolver does at one node.  [value] is the
    node and [pointer] its location. *)
Definition resolveReference (value : value) (pointer : string) (j : Jsf.t)
  : res Jsf.t :=
  if hasOwn value "$ref" && isString (prop value "$ref") then
    let newReference :=
      match prop value "$ref" with
      | VStr reference => JsonPointer.compile reference
      | _ => ""
      end in
    let isCircular := JsonPointer.isSubPointer newReference pointer in
    let j1 := storeReference newReference j in
    if negb isCircular then
      let value' := deleteProp value "$ref" in
      merged ← objectAssign
                 (cloneDeep (default VUndefined
                               (Jsf.schemaRefLibrary j1 !! newReference)))
                 value';
      Ok (Jsf.set_schema
            (JsonPointer.set (Jsf.schema j1) (JsonPointer.parse pointer) merged)
            j1)
    else
      Ok (Jsf.set_schemaCircularRefMap
            (<[pointer := newReference]> (Jsf.schemaCircularRefMap j1)) j1)
  else Ok j.

(** Lines 218-244: the resolver over the whole schema. *)
Definition resolveReferences (this : Component.t) : res Component.t :=
  j ← JsonPointer.forEachDeep (Jsf.schema (Component.jsf this))
        resolveReference true (Component.jsf this);
  Ok (Component.set_jsf j this).

(** Lines 193-245. *)
Definition prepareSchema (this : Component.t) : res Component.t :=
  if negb (isEmpty (Jsf.schema (Component.jsf this))) then
    this
    |> normalizeSchema
    |> onJsf (fun j => Jsf.set_schema (convertJsonSchema3to4 U (Jsf.schema j)) j)
    |> compileSchema
    |> resolveReferences
  else Ok this.

(** The layout used when no input has one (line 266). *)
Definition defaultLayout : value :=
  VArr [VStr "*"; VObj [("type", VStr "submit"); ("title", VStr "Submit")]].

(** Lines 254-267: the layout, from the first input that has an array.
    [fixJsonFormOptions] is called for its effect on [this.form.form];
    the layout is that array as the call leaves it. *)
Definition selectLayout (this : Component.t) : Component.t :=
  let form := Component.form this in
  if isArray (Component.layout this) then
    this |> onJsf (Jsf.set_layout (Component.layout this))
  else if isArray form then
    this
    |> onJsf (Jsf.set_AngularSchemaFormCompatibility true)
    |> onJsf (Jsf.set_layout form)
  else if truthy form && isArray (prop form "form") then
    let this1 :=
      this
      |> onJsf (Jsf.set_JsonFormCompatibility true)
      |> Component.set_form
           (setProp form "form" (fixJsonFormOptions U (prop form "form"))) in
    this1 |> onJsf (Jsf.set_layout (prop (Component.form this1) "form"))
  else if truthy form && isArray (prop form "layout") then
    this |> onJsf (Jsf.set_layout (prop form "layout"))
  else
    this |> onJsf (Jsf.set_layout defaultLayout).

(** Lines 276-287: the alternate layout, [null] when there is none. *)
Definition selectAlternateLayout (this : Component.t) : Component.t * value :=
  let form := Component.form this in
  if isObject (Component.UISchema this) then
    (this |> onJsf (Jsf.set_ReactJsonSchemaFormCompatibility true),
     Component.UISchema this)
  else if hasOwn form "UISchema" then
    (this |> onJsf (Jsf.set_ReactJsonSchemaFormCompatibility true),
     prop form "UISchema")
  else if hasOwn form "customFormItems" then
    let this1 :=
      this
      |> onJsf (Jsf.set_JsonFormCompatibility true)
      |> Component.set_form
           (setProp form "customFormItems"
              (fixJsonFormOptions U (prop form "customFormItems"))) in
    (this1, prop (Component.form this1) "customFormItems")
  else (this, VNull).

(** Line 292: from a pointer into the alternate layout to a pointer into
    the schema. *)
Definition toSchemaPointer (pointer : string) : string :=
  pointer
  |> replaceAll "/" "/properties/"
  |> replaceAll "/properties/items/properties/" "/items/properties/"
  |> replaceAll "/properties/titleMap/properties/" "/titleMap/properties/".

(** Lines 296-297 *)
Definition groupPointerOf (pointer : string) : list string :=
  dropLast2 (JsonPointer.parse (toSchemaPointer pointer)).

(** Lines 299-309: where an option with the given last key goes. *)
Definition itemPointerOf (pointer key : string) : list string :=
  if key =? "ui:order" then JsonPointer.parse (toSchemaPointer pointer)
  else groupPointerOf pointer ++
       ["x-schema-form"; if sliceTo 3 key =? "ui:" then sliceFrom 3 key else key].

(** Lines 292-315: what the import does with one node of the alternate
    layout.  [JsonPointer.set] is called for its effect on the schema. *)
Definition importOption (value : value) (pointer : string) (j : Jsf.t)
  : res Jsf.t :=
  if hasValue value && hasValue (VStr pointer) then
    match JsonPointer.toKey (toSchemaPointer pointer) with
    | Some key =>
        let groupPointer := groupPointerOf pointer in
        let itemPointer := itemPointerOf pointer key in
        if JsonPointer.has (Jsf.schema j) groupPointer &&
           negb (JsonPointer.has (Jsf.schema j) itemPointer)
        then Ok (Jsf.set_schema
                   (JsonPointer.set (Jsf.schema j) itemPointer value) j)
        else Ok j
    | None => Err TypeError
    end
  else Ok j.

(** Lines 276-317. *)
Definition importAlternateLayout (this : Component.t) : res Component.t :=
  let '(this1, alternateLayout) := selectAlternateLayout this in
  if truthy alternateLayout then
    j ← JsonPointer.forEachDeep alternateLayout importOption false
          (Component.jsf this1);
    Ok (Component.set_jsf j this1)
  else Ok this1.

(** Lines 328-344: the initial values, from the first input that has an
    object. *)
Definition selectInitialValues (this : Component.t) : Component.t :=
  let form := Component.form this in
  if isObject (Component.data this) then
    this |> onJsf (Jsf.set_initialValues (Component.data this))
  else if isObject (Component.model this) then
    this
    |> onJsf (Jsf.set_AngularSchemaFormCompatibility true)
    |> onJsf (Jsf.set_initialValues (Component.model this))
  else if isObject form && isObject (prop form "value") then
    this
    |> onJsf (Jsf.set_JsonFormCompatibility true)
    |> onJsf (Jsf.set_initialValues (prop form "value"))
  else if isObject form && isObject (prop form "data") then
    this |> onJsf (Jsf.set_initialValues (prop form "data"))
  else if isObject (Component.formData this) then
    this
    |> onJsf (Jsf.set_ReactJsonSchemaFormCompatibility true)
    |> onJsf (Jsf.set_initialValues (Component.formData this))
  else if hasOwn form "formData" && isObject (prop form "formData") then
    this
    |> onJsf (Jsf.set_ReactJsonSchemaFormCompatibility true)
    |> onJsf (Jsf.set_initialValues (prop form "formData"))
  else this.

(** Lines 346-356: a schema from the layout or from the data when there
    is none. *)
Definition synthesizeSchema (this : Component.t) : Component.t :=
  let j := Component.jsf this in
  if isEmpty (Jsf.schema j) then
    if lacksString (Jsf.layout j) "*" then
      this |> onJsf (Jsf.set_schema (buildSchemaFromLayout U (Jsf.layout j)))
    else if negb (isEmpty (Jsf.initialValues j)) then
      this |> onJsf (Jsf.set_schema (buildSchemaFromData U (Jsf.initialValues j)))
    else this
  else this.

(** Lines 358-376: validator, form group template, layout, form group. *)
Definition buildForm (this : Component.t) : Component.t :=
  if negb (isEmpty (Jsf.schema (Component.jsf this))) then
    let this1 :=
      match Component.validateFormData this with
      | None => compileSchema this
      | Some _ => this
      end in
    let j := Component.jsf this1 in
    let '(template, j1) := buildFormGroupTemplate U j (Jsf.initialValues j) true in
    let j2 := Jsf.set_formGroupTemplate template j1 in
    let '(layout, j3) := buildLayout U j2 in
    let j4 := Jsf.set_layout layout j3 in
    let j5 := Jsf.set_formGroup (buildFormGroup U (Jsf.formGroupTemplate j4)) j4 in
    Component.set_jsf j5 this1
  else this.

(** The formatted data of the form as it stands (the four-argument calls
    of lines 397, 410 and 417, and the five-argument one of line 466). *)
Definition formatted (data submit : value) (this : Component.t) : value :=
  let j := Component.jsf this in
  formatFormData U data (Jsf.dataMap j) (Jsf.dataCircularRefMap j)
                 (Jsf.arrayMap j) submit.

(** [this.validateFormData(data)] followed by the two emissions. *)
Definition validateAndEmit (data : value) (this : Component.t)
  : res Component.t :=
  match Component.validateFormData this with
  | Some schema =>
      let '(valid, errors) := ajvValidate U schema data in
      Ok (this |> emit (isValid valid) |> emit (validationErrors errors))
  | None => Err TypeError
  end.

(** Lines 396-406: the subscriber to [formGroup.valueChanges]. *)
Definition valueChanged (value : value) (this : Component.t)
  : res Component.t :=
  let formattedData := formatted value VUndefined this in
  this |> emit (onChanges formattedData) |> validateAndEmit formattedData.

(** Lines 378-440: show the form, subscribe, send the initial data. *)
Definition activateForm (this : Component.t) : res Component.t :=
  let formGroup := Jsf.formGroup (Component.jsf this) in
  if truthy formGroup then
    let this1 :=
      this
      |> Component.set_formInitialized true
      |> Component.set_subscribed (Component.subscribed this ++ [formGroup])
      |> emit (onChanges (formatted (prop formGroup "value") VUndefined this)) in
    if truthy (default VUndefined
                 (JsonPointer.get (Jsf.globalOptions (Component.jsf this1))
                                  ["validateOnRender"]))
    then validateAndEmit (formatted (prop formGroup "value") VUndefined this1)
                         this1
    else Ok this1
  else Ok this.

(** Lines 136-344: from the inputs to the schema, the layout and the
    initial values of the engine. *)
Definition gatherInputs (this : Component.t) : res Component.t :=
  this1 ← this |> resetEngine |> initOptions |> selectSchema |> prepareSchema;
  this2 ← this1 |> selectLayout |> importAlternateLayout;
  Ok (selectInitialValues this2).

(** ** [initializeForm] (lines 131-442) *)
Definition initializeForm (this : Component.t) : res Component.t :=
  if hasInputs this then
    this1 ← gatherInputs this;
    this1 |> synthesizeSchema |> buildForm |> activateForm
  else Ok this.

(** ** [submitForm] (lines 465-470) *)
Definition submitForm (this : Component.t) : res Component.t :=
  match Jsf.formGroup (Component.jsf this) with
  | VUndefined | VNull => Err TypeError
  | formGroup =>
      Ok (this |> emit (onSubmit (formatted (prop formGroup "value")
                                            (VBool true) this)))
  end.

End Engine.


(** ** Concrete collaborators and inputs

    The simplest collaborators, used where a statement is evaluated on a
    concrete form: a draft-4 schema is left as it is by the conversion, a
    reference is looked up from the schema root (4.2 step 3), the builders
    add nothing to the service, every data object is valid and the
    formatter hands the control values back. *)
Definition plain : Collaborators :=
  {| setOptions := fun o g =>
       match objectAssign g o with Ok g' => g' | Err _ => g end;
     setTpldata := fun d _ => d;
     convertJsonSchema3to4 := fun schema => schema;
     getFramework := fun _ framework => framework;
     ajvValidate := fun _ _ => (true, VNull);
     getSchemaReference := fun schema reference _ =>
       default VUndefined (JsonPointer.get schema (JsonPointer.parse reference));
     fixJsonFormOptions := fun layout => layout;
     buildSchemaFromLayout := fun _ =>
       VObj [("type", VStr "object"); ("properties", VObj [])];
     buildSchemaFromData := fun _ =>
       VObj [("type", VStr "object"); ("properties", VObj [])];
     buildFormGroupTemplate := fun j _ _ => (VObj [], j);
     buildLayout := fun j => (Jsf.layout j, j);
     buildFormGroup := fun _ => VObj [("value", VObj [])];
     formatFormData := fun data _ _ _ _ => data |}.

(** A service and a component before the first initialisation: no input
    is bound, nothing is compiled, nothing was sent. *)
Definition newJsf : Jsf.t :=
  {| Jsf.schema := VObj []; Jsf.layout := VArr [];
     Jsf.initialValues := VObj []; Jsf.dataMap := ∅;
     Jsf.schemaRefLibrary := ∅; Jsf.layoutRefLibrary := VObj [];
     Jsf.templateRefLibrary := VObj []; Jsf.formGroupTemplate := VObj [];
     Jsf.formGroup := VNull; Jsf.framework := VNull;
     Jsf.globalOptions := VObj []; Jsf.tpldata := VObj [];
     Jsf.AngularSchemaFormCompatibility := false;
     Jsf.ReactJsonSchemaFormCompatibility := false;
     Jsf.JsonFormCompatibility := false;
     Jsf.schemaCircularRefMap := ∅; Jsf.dataCircularRefMap := ∅;
     Jsf.arrayMap := ∅ |}.

Definition newComponent : Component.t :=
  {| Component.formInitialized := false;
     Component.validateFormData := None;
     Component.schema := VUndefined; Component.layout := VUndefined;
     Component.data := VUndefined; Component.options := VUndefined;
     Component.form := VUndefined; Component.model := VUndefined;
     Component.JSONSchema := VUndefined; Component.UISchema := VUndefined;
     Component.formData := VUndefined; Component.framework := VUndefined;
     Component.loadExternalAssets := VUndefined;
     Component.debug := VUndefined;
     Component.frameworkLoadExternalAssets := VUndefined;
     Component.frameworkName := VUndefined;
     Component.jsf := newJsf;
     Component.ajvCompiled := []; Component.subscribed := [];
     Component.emitted := [] |}.

(** Scenario 2 of the specification: a reference to a sibling. *)
Definition siblingReference : value :=
  VObj [("type", VStr "object");
        ("properties",
         VObj [("a", VObj [("$ref", VStr "#/properties/b")]);
               ("b", VObj [("type", VStr "number")])])].

(** Scenario 3 of the specification: a reference to the root. *)
Definition selfReference : value :=
  VObj [("type", VStr "object");
        ("properties", VObj [("node", VObj [("$ref", VStr "#")])])].

(** Scenario 1 of the specification: no reference at all. *)
Definition nameOnly : value :=
  VObj [("type", VStr "object");
        ("properties", VObj [("name", VObj [("type", VStr "string")])])].

(** An input is absent when it is not bound or bound to [null]. *)
Definition absent (v : value) : Prop := v = VUndefined \/ v = VNull.


(** The JSON Form shorthand: properties without a [type]. *)
Definition shorthandSchema : value :=
  VObj [("properties", VObj [("name", VObj [("type", VStr "string")])])].

(** A first initialisation from a schema alone. *)
Definition withSchema (schema : value) : Component.t :=
  Component.set_schema schema newComponent.

(** A component bound to a layout that is the wildcard alone. *)
Definition wildcardOnly : Component.t :=
  Component.set_layout (VArr [VStr "*"]) newComponent.

(** A component bound to [model], [formData] and [options] and to none
    of the six inputs that line 132 looks at. *)
Definition dataWithoutForm : Component.t :=
  newComponent
  |> Component.set_model (VObj [("name", VStr "Ada")])
  |> Component.set_formData (VObj [("name", VStr "Ada")])
  |> Component.set_options (VObj [("debug", VBool true)]).

(** The component after a first initialisation from the self-referential
    schema, and the same component once its owner has unbound the schema
    and bound the wildcard layout instead. *)
Definition afterSelfReference : Component.t :=
  match initializeForm plain (withSchema selfReference) with
  | Ok this => this
  | Err _ => newComponent
  end.

Definition reboundToWildcard : Component.t :=
  afterSelfReference
  |> Component.set_schema VUndefined
  |> Component.set_layout (VArr [VStr "*"]).

(** A pointer below the root has a [/] in it. *)
Fixpoint hasSlash (s : string) : bool :=
  match s with
  | EmptyString => false
  | String c s' => Ascii.eqb c "/" || hasSlash s'
  end.

(** [o.k] where [o] was tested with [isObject] first (lines 153-162). *)
Definition optionOf (o : value) (k : string) : value :=
  if isObject o then prop o k else VUndefined.

(** The test of line 219: the node has a [$ref] that is a string. *)
Definition bearsReference (node : value) : bool :=
  hasOwn node "$ref" && isString (prop node "$ref").

(** No node of the tree has a [$ref] that is a string. *)
Definition withoutReferences (schema : value) : bool :=
  forallb (fun node => negb (bearsReference (fst node)))
          (JsonPointer.deepNodes schema "").

(** [globalOptions.validateOnRender], as line 416 tests it. *)
Definition validateOnRender (this : Component.t) : bool :=
  truthy (default VUndefined
            (JsonPointer.get (Jsf.globalOptions (Component.jsf this))
                             ["validateOnRender"])).

(** A reference to a definition that the schema does not have. *)
Definition danglingReference : value :=
  VObj [("type", VStr "object");
        ("properties",
         VObj [("a", VObj [("$ref", VStr "#/definitions/missing")])])].

(** What one step of the resolver may do to the library and to the
    circular-reference map: an entry of the library stays what it is,
    and a location recorded as circular stays recorded. *)
Definition growsFrom (j j' : Jsf.t) : Prop :=
  (forall target entry,
     Jsf.schemaRefLibrary j !! target = Some entry ->
     Jsf.schemaRefLibrary j' !! target = Some entry)
  /\ (forall pointer,
        is_Some (Jsf.schemaCircularRefMap j !! pointer) ->
        is_Some (Jsf.schemaCircularRefMap j' !! pointer)).

(** What the reset makes fresh for the builders and no phase before them
    writes: the data map, the layout library and the form group template;
    and the initial values, which stay the reset's until their own phase. *)
Definition sameFresh (a b : Component.t) : Prop :=
  Jsf.dataMap (Component.jsf b) = Jsf.dataMap (Component.jsf a)
  /\ Jsf.layoutRefLibrary (Component.jsf b)
     = Jsf.layoutRefLibrary (Component.jsf a)
  /\ Jsf.formGroupTemplate (Component.jsf b)
     = Jsf.formGroupTemplate (Component.jsf a)
  /\ Jsf.initialValues (Component.jsf b)
     = Jsf.initialValues (Component.jsf a).

(** The component after the first initialisation once its owner has
    unbound the schema and bound a layout of one field instead. *)
Definition reboundToLayout : Component.t :=
  afterSelfReference
  |> Component.set_schema VUndefined
  |> Component.set_layout (VArr [VObj [("key", VStr "title")]]).

(** Collaborators that differ from [plain] in the validator: the data are
    valid when they are an object, and the errors are an empty list. *)
Definition plainValidating : Collaborators :=
  {| setOptions := setOptions plain;
     setTpldata := setTpldata plain;
     convertJsonSchema3to4 := convertJsonSchema3to4 plain;
     getFramework := getFramework plain;
     ajvValidate := fun _ data => (isObject data, VArr []);
     getSchemaReference := getSchemaReference plain;
     fixJsonFormOptions := fixJsonFormOptions plain;
     buildSchemaFromLayout := buildSchemaFromLayout plain;
     buildSchemaFromData := buildSchemaFromData plain;
     buildFormGroupTemplate := buildFormGroupTemplate plain;
     buildLayout := buildLayout plain;
     buildFormGroup := buildFormGroup plain;
     formatFormData := formatFormData plain |}.

(** A first initialisation from a schema and the option to validate on
    render. *)
Definition withValidation (schema : value) : Component.t :=
  withSchema schema
  |> Component.set_options (VObj [("validateOnRender", VBool true)]).

(** What the phases between the reset and the building of the form leave
    alone: what the template shows, what was sent and subscribed to, the
    form group, the validator and the record of ajv's compilations. *)
Definition untouched (a b : Component.t) : Prop :=
  Component.formInitialized b = Component.formInitialized a
  /\ Component.emitted b = Component.emitted a
  /\ Component.subscribed b = Component.subscribed a
  /\ Jsf.formGroup (Component.jsf b) = Jsf.formGroup (Component.jsf a).

Definition sameValidator (a b : Component.t) : Prop :=
  Component.validateFormData b = Component.validateFormData a
  /\ Component.ajvCompiled b = Component.ajvCompiled a.

(** A value without members: neither an object nor an array. *)
Definition isLeaf (v : value) : bool := negb (isObject v || isArray v).

(** Every location of the first tree is a location of the second, and
    holds the same value there when that value has no members. *)
Definition keepsValues (s s' : value) : Prop :=
  forall q x,
    JsonPointer.get s q = Some x ->
    is_Some (JsonPointer.get s' q)
    /\ (isLeaf x = true -> JsonPointer.get s' q = Some x).

(** The nodes of a tree, each with the keys that lead to it from the
    root, in the order of [JsonPointer.deepNodes]. *)
Definition under (k : string) (np : value * list string)
  : value * list string :=
  (fst np, k :: snd np).

Definition objectMembers (nodes : value -> list (value * list string))
  : list (string * value) -> list (value * list string) :=
  fix members (ps : list (string * value)) : list (value * list string) :=
    match ps with
    | [] => []
    | (k, c) :: ps' => map (under k) (nodes c) ++ members ps'
    end.

Definition arrayMembers (nodes : value -> list (value * list string))
  : nat -> list value -> list (value * list string) :=
  fix members (i : nat) (cs : list value) : list (value * list string) :=
    match cs with
    | [] => []
    | c :: cs' => map (under (keyOfIndex i)) (nodes c) ++ members (S i) cs'
    end.

Fixpoint keyPaths (object : value) : list (value * list string) :=
  (object, []) ::
  match object with
  | VObj props => objectMembers keyPaths props
  | VArr items => arrayMembers keyPaths 0 items
  | _ => []
  end.

(** An object of JavaScript has each of its keys once; so has every
    object of a tree of them. *)
Fixpoint distinctKeys (props : list (string * value)) : bool :=
  match props with
  | [] => true
  | (k, _) :: rest =>
      negb (bool_decide (is_Some (assoc rest k))) && distinctKeys rest
  end.

Fixpoint uniqueKeys (v : value) : bool :=
  match v with
  | VObj props =>
      distinctKeys props && forallb (fun kc => uniqueKeys (snd kc)) props
  | VArr items => forallb uniqueKeys items
  | _ => true
  end.

(** In a list of key paths, no path stands after one that it is a prefix
    of: a location comes before the locations below it, and once. *)
Fixpoint ancestorsFirst (paths : list (list string)) : Prop :=
  match paths with
  | [] => True
  | a :: rest =>
      Forall (fun b => JsonPointer.isPrefix b a = false) rest
      /\ ancestorsFirst rest
  end.

(** The keys of the pointer that [forEachDeep] hands out with a node. *)
Definition keysOf (node : value * string) : list string :=
  JsonPointer.parse (snd node).

(** The node at a location still has the [$ref] it was found with. *)
Definition marked (schema : value) (keys : list string) (reference : string)
  : Prop :=
  exists node,
    JsonPointer.get schema keys = Some node
    /\ prop node "$ref" = VStr reference.

(** The nodes bearing a reference are where the traversal found them. *)
Definition inPlace (schema : value) (nodes : list (value * string)) : Prop :=
  forall node,
    node ∈ nodes -> bearsReference (fst node) = true ->
    JsonPointer.get schema (keysOf node) = Some (fst node).

(** A schema whose root refers to itself from below a node that also
    refers to a definition: one reference of each kind in one pass. *)
Definition mixedReferences : value :=
  VObj [("definitions", VObj [("a", VObj [("type", VStr "string")])]);
        ("properties",
         VObj [("node",
                VObj [("$ref", VStr "#");
                      ("properties",
                       VObj [("x", VObj [("$ref", VStr "#/definitions/a")])])])])].

(** A component whose engine holds the schema of scenario 1 and that is
    bound to a React JSON Schema Form [UISchema] with one widget hint. *)
Definition withWidgetHint : Component.t :=
  newComponent
  |> Component.set_UISchema
       (VObj [("name", VObj [("ui:widget", VStr "textarea")])])
  |> onJsf (Jsf.set_schema nameOnly).

(** * Properties *)

(** ** Objects as key lists *)

Lemma assoc_assocSet_eq props k v : assoc (assocSet props k v) k = Some v.
Proof.
  induction props as [|[k' v'] rest IH]; simpl.
  - by rewrite String.eqb_refl.
  - destruct (String.eqb_spec k' k) as [->|Hne]; simpl.
    + by rewrite String.eqb_refl.
    + by destruct (String.eqb_spec k' k).
Qed.

Lemma assoc_assocSet_ne props k k' v :
  k <> k' -> assoc (assocSet props k v) k' = assoc props k'.
Proof.
  intros Hne. induction props as [|[k0 v0] rest IH]; simpl.
  - destruct (String.eqb_spec k k'); [done | reflexivity].
  - destruct (String.eqb_spec k0 k) as [->|Hk]; simpl.
    + by destruct (String.eqb_spec k k').
    + destruct (String.eqb_spec k0 k'); [reflexivity | exact IH].
Qed.

Lemma assoc_assocDel_eq props k : assoc (assocDel props k) k = None.
Proof.
  induction props as [|[k' v'] rest IH]; simpl; [reflexivity|].
  destruct (String.eqb_spec k' k) as [->|Hne]; simpl; [exact IH|].
  by destruct (String.eqb_spec k' k).
Qed.

Lemma assoc_assocDel_ne props k k' :
  k <> k' -> assoc (assocDel props k) k' = assoc props k'.
Proof.
  intros Hne. induction props as [|[k0 v0] rest IH]; simpl; [reflexivity|].
  destruct (String.eqb_spec k0 k) as [->|Hk]; simpl.
  - by destruct (String.eqb_spec k k').
  - destruct (String.eqb_spec k0 k'); [reflexivity | exact IH].
Qed.

(** Writing the keys of [keys] from [sprops] onto [acc], one by one. *)
Lemma assoc_fold_assign sprops (keys : list (string * value)) acc k :
  assoc
    (fold_left
       (fun acc kv =>
          assocSet acc (fst kv) (default VUndefined (assoc sprops (fst kv))))
       keys acc) k
  = if existsb (fun kv => fst kv =? k) keys
    then Some (default VUndefined (assoc sprops k))
    else assoc acc k.
Proof.
  revert acc. induction keys as [|[k0 v0] keys IH]; intros acc; simpl.
  - reflexivity.
  - rewrite IH. destruct (existsb _ keys) eqn:Hin.
    + by rewrite orb_true_r.
    + rewrite orb_false_r. destruct (String.eqb_spec k0 k) as [->|Hne].
      * by rewrite assoc_assocSet_eq.
      * by rewrite assoc_assocSet_ne.
Qed.

Lemma existsb_key_assoc (props : list (string * value)) k :
  existsb (fun kv => fst kv =? k) props = bool_decide (is_Some (assoc props k)).
Proof.
  induction props as [|[k0 v0] rest IH]; simpl.
  - reflexivity.
  - destruct (String.eqb_spec k0 k) as [->|Hne]; simpl.
    + reflexivity.
    + exact IH.
Qed.

(** [Object.assign]: a key of the source reads as in the source, any other
    key as in the target. *)
Lemma assoc_assignProps tprops sprops k :
  assoc (assignProps tprops sprops) k
  = match assoc sprops k with
    | Some v => Some v
    | None => assoc tprops k
    end.
Proof.
  unfold assignProps. rewrite assoc_fold_assign, existsb_key_assoc.
  destruct (assoc sprops k) as [v|] eqn:Hk.
  - rewrite bool_decide_eq_true_2; [reflexivity | by eexists].
  - rewrite bool_decide_eq_false_2; [reflexivity | by intros [? ?]].
Qed.

Lemma hasOwn_string_key o k :
  indexOfKey k = None -> hasOwn o k = true -> exists props, o = VObj props.
Proof.
  intros Hk. destruct o; simpl; try discriminate; [|by eauto].
  by rewrite Hk.
Qed.

Lemma prop_setProp_eq props k v : prop (setProp (VObj props) k v) k = v.
Proof. simpl. by rewrite assoc_assocSet_eq. Qed.

Lemma hasOwn_deleteProp o k :
  indexOfKey k = None -> hasOwn (deleteProp o k) k = false.
Proof.
  intros Hk. destruct o; simpl; try reflexivity.
  - by rewrite Hk.
  - rewrite assoc_assocDel_eq. apply bool_decide_eq_false. by intros [? ?].
Qed.

(** ** Pointers *)

Lemma isPrefix_spec short long :
  JsonPointer.isPrefix short long = true <-> exists rest, long = short ++ rest.
Proof.
  revert long. induction short as [|k short IH]; intros long; simpl.
  - split; [intros _; by exists long | done].
  - destruct long as [|k' long].
    + split; [done | intros [rest Hrest]; discriminate].
    + rewrite andb_true_iff, IH. split.
      * intros [Hk [rest ->]]. apply String.eqb_eq in Hk as ->. by exists rest.
      * intros [rest Hrest]. injection Hrest as -> ->.
        split; [apply String.eqb_refl | by exists rest].
Qed.

Lemma indexOfKey_key k i : indexOfKey k = Some i -> keyOfIndex i = k.
Proof.
  unfold indexOfKey. destruct (NilEmpty.uint_of_string k) as [u|]; [|done].
  destruct (String.eqb_spec (keyOfIndex (Nat.of_uint u)) k) as [Heq|]; [|done].
  by intros [= <-].
Qed.

Lemma indexOfKey_inj k k' i :
  indexOfKey k = Some i -> indexOfKey k' = Some i -> k = k'.
Proof.
  intros H H'. apply indexOfKey_key in H, H'. congruence.
Qed.

Lemma get_cons o k keys :
  JsonPointer.get o (k :: keys)
  = match JsonPointer.child o k with
    | Some c => JsonPointer.get c keys
    | None => None
    end.
Proof. reflexivity. Qed.

Lemma set_cons_obj props k keys x :
  JsonPointer.set (VObj props) (k :: keys) x
  = VObj (assocSet props k
            (JsonPointer.set (default (VObj []) (assoc props k)) keys x)).
Proof. reflexivity. Qed.

Lemma set_cons_arr items k keys x :
  JsonPointer.set (VArr items) (k :: keys) x
  = match indexOfKey k with
    | Some i =>
        match items !! i with
        | Some c => VArr (<[i := JsonPointer.set c keys x]> items)
        | None =>
            if (i =? length items)%nat
            then VArr (items ++ [JsonPointer.set (VObj []) keys x])
            else VArr items
        end
    | None => VArr items
    end.
Proof. reflexivity. Qed.

Lemma child_obj props k : JsonPointer.child (VObj props) k = assoc props k.
Proof. reflexivity. Qed.

Lemma child_arr items k :
  JsonPointer.child (VArr items) k
  = match indexOfKey k with
    | Some i => items !! i
    | None => None
    end.
Proof. unfold JsonPointer.child. by destruct (indexOfKey k). Qed.

(** What [JsonPointer.set] writes at an existing location is found
    there afterwards. *)
Lemma get_set_same keys : forall o x,
  is_Some (JsonPointer.get o keys) ->
  JsonPointer.get (JsonPointer.set o keys x) keys = Some x.
Proof.
  induction keys as [|k keys IH]; intros o x Hhas; [reflexivity|].
  rewrite get_cons in Hhas.
  destruct (JsonPointer.child o k) as [c|] eqn:Hc; [|by destruct Hhas].
  destruct o; try discriminate.
  - rewrite child_arr in Hc. rewrite set_cons_arr.
    destruct (indexOfKey k) as [i|] eqn:Hi; [|discriminate].
    rewrite Hc, get_cons, child_arr, Hi.
    rewrite list_lookup_insert_eq by (by eapply lookup_lt_Some).
    by apply IH.
  - rewrite child_obj in Hc.
    rewrite set_cons_obj, get_cons, child_obj, assoc_assocSet_eq, Hc.
    by apply IH.
Qed.

(** What [JsonPointer.set] writes at a location that did not exist leaves
    every value that existed where it was, unless the value is a
    container on the way to the new location (which gains a member). *)
Lemma get_set_other item : forall o q x v,
  JsonPointer.get o q = Some x ->
  JsonPointer.isPrefix q item = false ->
  JsonPointer.get o item = None ->
  JsonPointer.get (JsonPointer.set o item v) q = Some x.
Proof.
  induction item as [|k item IH]; intros o q x v Hq Hpre Hitem.
  - discriminate.
  - destruct q as [|k' q]; [discriminate|].
    cbn [JsonPointer.isPrefix] in Hpre. rewrite get_cons in Hq, Hitem.
    destruct (JsonPointer.child o k') as [c'|] eqn:Hc'; [|discriminate].
    destruct o; try discriminate.
    + rewrite child_arr in Hc', Hitem. rewrite set_cons_arr.
      destruct (indexOfKey k') as [i'|] eqn:Hi'; [|discriminate].
      destruct (indexOfKey k) as [i|] eqn:Hi;
        [|by rewrite get_cons, child_arr, Hi', Hc'].
      destruct (items !! i) as [c|] eqn:Hc.
      * rewrite get_cons, child_arr, Hi'.
        destruct (decide (i = i')) as [<-|Hne].
        -- rewrite list_lookup_insert_eq by (by eapply lookup_lt_Some).
           assert (k = k') as <- by (by eapply indexOfKey_inj).
           rewrite String.eqb_refl in Hpre.
           assert (c' = c) as -> by congruence.
           by apply IH.
        -- rewrite list_lookup_insert_ne by done. by rewrite Hc'.
      * destruct (Nat.eqb_spec i (length items)) as [Hlen|Hlen].
        -- rewrite get_cons, child_arr, Hi'.
           rewrite lookup_app_l by (by eapply lookup_lt_Some).
           by rewrite Hc'.
        -- by rewrite get_cons, child_arr, Hi', Hc'.
    + rewrite child_obj in Hc', Hitem. rewrite set_cons_obj, get_cons, child_obj.
      destruct (String.eqb_spec k' k) as [->|Hne].
      * rewrite assoc_assocSet_eq, Hc'. rewrite Hc' in Hitem.
        by apply IH.
      * rewrite assoc_assocSet_ne by done. by rewrite Hc'.
Qed.

(** ** Reference resolution at one node *)

Lemma ref_not_index : indexOfKey "$ref" = None.
Proof. reflexivity. Qed.

Lemma storeReference_schema U target j :
  Jsf.schema (storeReference U target j) = Jsf.schema j.
Proof. unfold storeReference. by case_match. Qed.

Lemma storeReference_circular U target j :
  Jsf.schemaCircularRefMap (storeReference U target j)
  = Jsf.schemaCircularRefMap j.
Proof. unfold storeReference. by case_match. Qed.

(** A target that is not the root has a library entry once the resolver
    has passed lines 222-228. *)
Lemma storeReference_entry U target j :
  target <> "" ->
  is_Some (Jsf.schemaRefLibrary (storeReference U target j) !! target).
Proof.
  intros Hne. unfold storeReference.
  assert (hasValue (VStr target) = true) as -> by (by destruct target).
  destruct (bool_decide_reflect
              (is_Some (Jsf.schemaRefLibrary j !! target))) as [Hin|Hout]; simpl.
  - exact Hin.
  - rewrite lookup_insert_eq. by eexists.
Qed.

Lemma resolveReference_on_ref U node pointer j reference :
  hasOwn node "$ref" = true ->
  prop node "$ref" = VStr reference ->
  resolveReference U node pointer j
  = let target := JsonPointer.compile reference in
    let j1 := storeReference U target j in
    if negb (JsonPointer.isSubPointer target pointer) then
      merged ← objectAssign
                 (cloneDeep (default VUndefined
                               (Jsf.schemaRefLibrary j1 !! target)))
                 (deleteProp node "$ref");
      Ok (Jsf.set_schema
            (JsonPointer.set (Jsf.schema j1) (JsonPointer.parse pointer) merged)
            j1)
    else
      Ok (Jsf.set_schemaCircularRefMap
            (<[pointer := target]> (Jsf.schemaCircularRefMap j1)) j1).
Proof.
  intros Hown Href. unfold resolveReference. by rewrite Hown, Href.
Qed.

(** One step.  At a node bearing a [$ref] string, the resolver takes the
    reference for circular exactly when the keys of the normalised target
    pointer are a prefix of the keys of the node's own pointer (the target
    is an ancestor of the node, or the node itself).  A circular reference
    is not inlined: the step succeeds, the schema is what it was, so the
    node keeps its [$ref], and the circular-reference map gains the entry
    from the node's pointer to the target.  A reference that is not
    circular adds nothing to that map. *)
Lemma circular_reference_step
    U (node : value) pointer j reference :
  hasOwn node "$ref" = true ->
  prop node "$ref" = VStr reference ->
  let target := JsonPointer.compile reference in
  let circular := JsonPointer.isSubPointer target pointer in
  (circular = true <->
     exists rest,
       JsonPointer.parse pointer = JsonPointer.parse target ++ rest)
  /\ (circular = true ->
      exists j',
        resolveReference U node pointer j = Ok j'
        /\ Jsf.schema j' = Jsf.schema j
        /\ Jsf.schemaCircularRefMap j'
           = <[pointer := target]> (Jsf.schemaCircularRefMap j))
  /\ (circular = false ->
      forall j',
        resolveReference U node pointer j = Ok j' ->
        Jsf.schemaCircularRefMap j' = Jsf.schemaCircularRefMap j).
Proof.
  intros Hown Href target circular. split; [apply isPrefix_spec|].
  rewrite (resolveReference_on_ref U node pointer j reference Hown Href).
  fold target. cbv zeta. fold circular. split.
  - intros ->. simpl. eexists. split; [reflexivity|]. simpl.
    by rewrite storeReference_schema, storeReference_circular.
  - intros -> j'. simpl.
    destruct (objectAssign _ _) as [merged|e]; simpl; [|discriminate].
    intros [= <-]. simpl. apply storeReference_circular.
Qed.

(** A reference that is not circular has a target below the root, and
    so a library entry once lines 222-228 are passed. *)
Lemma noncircular_target_has_entry U reference pointer j :
  let target := JsonPointer.compile reference in
  JsonPointer.isSubPointer target pointer = false ->
  is_Some (Jsf.schemaRefLibrary (storeReference U target j) !! target).
Proof.
  intros target Hnc. apply storeReference_entry. intros Hroot.
  by rewrite Hroot in Hnc.
Qed.


(** ** Frames of the phases *)

Lemma untouched_trans a b c : untouched a b -> untouched b c -> untouched a c.
Proof.
  intros (H1 & H2 & H3 & H4) (H1' & H2' & H3' & H4').
  repeat split; congruence.
Qed.

Lemma sameValidator_trans a b c :
  sameValidator a b -> sameValidator b c -> sameValidator a c.
Proof. intros [H1 H2] [H1' H2']. split; congruence. Qed.

Lemma foldRes_invariant {A S B : Type} (proj : S -> B)
    (f : A -> S -> res S) (l : list A) :
  (forall a s s', f a s = Ok s' -> proj s' = proj s) ->
  forall s s', foldRes f l s = Ok s' -> proj s' = proj s.
Proof.
  intros Hf. induction l as [|a l IH]; intros s s'; simpl.
  - by intros [= ->].
  - destruct (f a s) as [s1|e] eqn:Hs1; simpl; [|discriminate].
    intros Hl. rewrite (IH _ _ Hl). by eapply Hf.
Qed.

Lemma resolveReference_formGroup U node pointer j j' :
  resolveReference U node pointer j = Ok j' ->
  Jsf.formGroup j' = Jsf.formGroup j.
Proof.
  unfold resolveReference, storeReference.
  repeat case_match; simpl; try discriminate;
    try destruct (objectAssign _ _); simpl; intros [= <-]; reflexivity.
Qed.

Lemma importOption_formGroup node pointer j j' :
  importOption node pointer j = Ok j' ->
  Jsf.formGroup j' = Jsf.formGroup j.
Proof.
  unfold importOption.
  repeat case_match; simpl; try discriminate; intros [= <-]; reflexivity.
Qed.

Ltac frame :=
  unfold untouched, sameValidator, onJsf, emit;
  repeat case_match; simplify_eq; simpl; repeat split; reflexivity.

Lemma initOptions_frame U this :
  untouched this (initOptions U this)
  /\ sameValidator this (initOptions U this).
Proof. unfold initOptions. split; frame. Qed.

Lemma selectSchema_frame this :
  untouched this (selectSchema this)
  /\ sameValidator this (selectSchema this).
Proof. unfold selectSchema. split; frame. Qed.

Lemma normalizeSchema_frame this :
  untouched this (normalizeSchema this)
  /\ sameValidator this (normalizeSchema this).
Proof. unfold normalizeSchema, assignInSource. split; frame. Qed.

Lemma resolveReferences_frame U this this' :
  resolveReferences U this = Ok this' ->
  untouched this this' /\ sameValidator this this'.
Proof.
  unfold resolveReferences, JsonPointer.forEachDeep.
  destruct (foldRes _ _ _) as [j|e] eqn:Hfold; simpl; [|discriminate].
  intros [= <-].
  apply (foldRes_invariant Jsf.formGroup) in Hfold;
    [|intros [node pointer] ? ?; apply resolveReference_formGroup].
  by repeat split.
Qed.

Lemma selectLayout_frame U this :
  untouched this (selectLayout U this)
  /\ sameValidator this (selectLayout U this).
Proof. unfold selectLayout. split; frame. Qed.

Lemma selectAlternateLayout_frame U this :
  untouched this (fst (selectAlternateLayout U this))
  /\ sameValidator this (fst (selectAlternateLayout U this)).
Proof. unfold selectAlternateLayout. split; frame. Qed.

Lemma importAlternateLayout_frame U this this' :
  importAlternateLayout U this = Ok this' ->
  untouched this this' /\ sameValidator this this'.
Proof.
  unfold importAlternateLayout.
  pose proof (selectAlternateLayout_frame U this) as [Hu Hv].
  destruct (selectAlternateLayout U this) as [this1 alternateLayout].
  simpl in Hu, Hv. destruct (truthy alternateLayout).
  - unfold JsonPointer.forEachDeep.
    destruct (foldRes _ _ _) as [j|e] eqn:Hfold; simpl; [|discriminate].
    intros [= <-].
    apply (foldRes_invariant Jsf.formGroup) in Hfold;
      [|intros [node pointer] ? ?; apply importOption_formGroup].
    split.
    + eapply untouched_trans; [exact Hu|]. by repeat split.
    + eapply sameValidator_trans; [exact Hv|]. by split.
  - by intros [= <-].
Qed.

Lemma selectInitialValues_frame this :
  untouched this (selectInitialValues this)
  /\ sameValidator this (selectInitialValues this).
Proof. unfold selectInitialValues. split; frame. Qed.

Lemma synthesizeSchema_frame U this :
  untouched this (synthesizeSchema U this)
  /\ sameValidator this (synthesizeSchema U this).
Proof. unfold synthesizeSchema. split; frame. Qed.

Lemma compileSchema_untouched this : untouched this (compileSchema this).
Proof. unfold compileSchema. frame. Qed.

Lemma prepareSchema_nonempty U this :
  isEmpty (Jsf.schema (Component.jsf this)) = false ->
  prepareSchema U this
  = resolveReferences U
      (compileSchema
         (onJsf (fun j => Jsf.set_schema
                            (convertJsonSchema3to4 U (Jsf.schema j)) j)
                (normalizeSchema this))).
Proof. intros Hne. unfold prepareSchema. by rewrite Hne. Qed.

Lemma prepareSchema_untouched U this this1 :
  prepareSchema U this = Ok this1 -> untouched this this1.
Proof.
  unfold prepareSchema. destruct (isEmpty _); simpl.
  - by intros [= <-].
  - intros Hres. apply resolveReferences_frame in Hres as [Hres _].
    eapply untouched_trans; [|exact Hres].
    eapply untouched_trans; [|apply compileSchema_untouched].
    eapply untouched_trans; [apply normalizeSchema_frame|].
    by repeat split.
Qed.

(** The phases up to the initial values, seen from their end: the schema
    preparation has succeeded, and nothing after it has touched what the
    preparation left. *)
Lemma gatherInputs_inv U this mid :
  gatherInputs U this = Ok mid ->
  exists this1,
    prepareSchema U (selectSchema (initOptions U (resetEngine this))) = Ok this1
    /\ untouched this1 mid /\ sameValidator this1 mid.
Proof.
  unfold gatherInputs.
  destruct (prepareSchema U _) as [this1|e] eqn:Hprep; simpl; [|discriminate].
  destruct (importAlternateLayout U _) as [this2|e] eqn:Himp; simpl;
    [|discriminate].
  intros [= <-]. exists this1. split; [reflexivity|].
  apply importAlternateLayout_frame in Himp as [Hu Hv].
  pose proof (selectLayout_frame U this1) as [Hu1 Hv1].
  pose proof (selectInitialValues_frame this2) as [Hu2 Hv2].
  split.
  - eapply untouched_trans; [exact Hu1|].
    eapply untouched_trans; [exact Hu | exact Hu2].
  - eapply sameValidator_trans; [exact Hv1|].
    eapply sameValidator_trans; [exact Hv | exact Hv2].
Qed.

Lemma selected_untouched U this :
  untouched (resetEngine this) (selectSchema (initOptions U (resetEngine this)))
  /\ sameValidator this (selectSchema (initOptions U (resetEngine this))).
Proof.
  pose proof (initOptions_frame U (resetEngine this)) as [Hu Hv].
  pose proof (selectSchema_frame (initOptions U (resetEngine this))) as [Hu' Hv'].
  split.
  - eapply untouched_trans; [exact Hu | exact Hu'].
  - eapply sameValidator_trans; [|exact Hv'].
    eapply sameValidator_trans; [|exact Hv]. by split.
Qed.

(** After the phases up to the initial values the form is hidden, there
    is no form group, and nothing was sent or subscribed to. *)
Lemma gatherInputs_quiet U this mid :
  gatherInputs U this = Ok mid ->
  Component.formInitialized mid = false
  /\ Jsf.formGroup (Component.jsf mid) = VNull
  /\ Component.emitted mid = Component.emitted this
  /\ Component.subscribed mid = Component.subscribed this.
Proof.
  intros Hmid. apply gatherInputs_inv in Hmid as (this1 & Hprep & Hu & _).
  apply prepareSchema_untouched in Hprep.
  pose proof (selected_untouched U this) as [Hsel _].
  destruct (untouched_trans _ _ _ (untouched_trans _ _ _ Hsel Hprep) Hu)
    as (H1 & H2 & H3 & H4).
  by repeat split.
Qed.

Lemma buildForm_validator U this v :
  Component.validateFormData this = Some v ->
  sameValidator this (buildForm U this).
Proof.
  intros Hv. unfold buildForm, sameValidator. rewrite Hv.
  repeat case_match; simpl; by split.
Qed.

Lemma activateForm_validator U this this' :
  activateForm U this = Ok this' -> sameValidator this this'.
Proof.
  unfold activateForm, validateAndEmit, sameValidator, emit.
  repeat case_match; simpl; try discriminate; intros [= <-]; simpl; by split.
Qed.

(** ** The guard *)

Lemma absent_falsy v : absent v -> truthy v = false.
Proof. by intros [-> | ->]. Qed.

(** C10.  When the six inputs [schema], [layout], [data], [form],
    [JSONSchema] and [UISchema] are all absent, [initializeForm] returns
    with the component exactly as it was: no field of the service or of
    the component is reset or rebuilt and nothing is emitted, whatever
    [model], [formData], [options] and the other inputs hold. *)
Theorem initializeForm_without_inputs U this :
  absent (Component.schema this) ->
  absent (Component.layout this) ->
  absent (Component.data this) ->
  absent (Component.form this) ->
  absent (Component.JSONSchema this) ->
  absent (Component.UISchema this) ->
  initializeForm U this = Ok this.
Proof.
  intros H1 H2 H3 H4 H5 H6. unfold initializeForm, hasInputs.
  by rewrite !absent_falsy.
Qed.

(** ** The empty schema *)

(** C7.  When the schema is empty once the inputs are gathered (lines
    136-344): a layout without a ["*"] entry gives the schema built from
    the layout; otherwise non-empty initial values give the schema built
    from them; otherwise the whole initialisation ends without an error
    in the state reached there, where the schema is still empty, there is
    no form group, the form is not shown, and nothing was emitted or
    subscribed to. *)
Theorem empty_schema_synthesis U this mid :
  gatherInputs U this = Ok mid ->
  isEmpty (Jsf.schema (Component.jsf mid)) = true ->
  let layout := Jsf.layout (Component.jsf mid) in
  let initialValues := Jsf.initialValues (Component.jsf mid) in
  (lacksString layout "*" = true ->
   Jsf.schema (Component.jsf (synthesizeSchema U mid))
   = buildSchemaFromLayout U layout)
  /\ (lacksString layout "*" = false ->
      isEmpty initialValues = false ->
      Jsf.schema (Component.jsf (synthesizeSchema U mid))
      = buildSchemaFromData U initialValues)
  /\ (lacksString layout "*" = false ->
      isEmpty initialValues = true ->
      hasInputs this = true ->
      initializeForm U this = Ok mid
      /\ Jsf.formGroup (Component.jsf mid) = VNull
      /\ Component.formInitialized mid = false
      /\ Component.emitted mid = Component.emitted this
      /\ Component.subscribed mid = Component.subscribed this).
Proof.
  intros Hmid Hempty layout initialValues.
  unfold synthesizeSchema. rewrite Hempty. fold layout initialValues.
  split; [|split].
  - by intros ->.
  - by intros -> ->.
  - intros Hstar Hvalues Hin.
    destruct (gatherInputs_quiet U this mid Hmid) as (Hshown & Hgroup & Hsent & Hsub).
    repeat split; try assumption.
    unfold initializeForm. rewrite Hin, Hmid. simpl.
    unfold synthesizeSchema. rewrite Hempty. fold layout initialValues.
    rewrite Hstar, Hvalues. simpl.
    unfold buildForm. rewrite Hempty. simpl.
    unfold activateForm. by rewrite Hgroup.
Qed.

(** ** The validator *)

Lemma compileSchema_validator this :
  Component.validateFormData (compileSchema this)
  = Some (Jsf.schema (Component.jsf this))
  /\ Component.ajvCompiled (compileSchema this)
     = Component.ajvCompiled this ++ [Jsf.schema (Component.jsf this)].
Proof. by split. Qed.

Lemma convert_step U this :
  let this' :=
    onJsf (fun j => Jsf.set_schema (convertJsonSchema3to4 U (Jsf.schema j)) j)
          this in
  Jsf.schema (Component.jsf this')
  = convertJsonSchema3to4 U (Jsf.schema (Component.jsf this))
  /\ sameValidator this this'.
Proof. by repeat split. Qed.

(** Line 215 is the one compilation of a schema that is there from the
    start. *)
Lemma prepareSchema_validator U this this1 :
  isEmpty (Jsf.schema (Component.jsf this)) = false ->
  prepareSchema U this = Ok this1 ->
  let compiled :=
    convertJsonSchema3to4 U (Jsf.schema (Component.jsf (normalizeSchema this))) in
  Component.validateFormData this1 = Some compiled
  /\ Component.ajvCompiled this1 = Component.ajvCompiled this ++ [compiled].
Proof.
  intros Hne Hprep. rewrite prepareSchema_nonempty in Hprep by exact Hne.
  apply resolveReferences_frame in Hprep as [_ [Hv Hl]].
  pose proof (normalizeSchema_frame this) as [_ [_ Hn]].
  destruct (convert_step U (normalizeSchema this)) as [Hc [_ Hcl]].
  cbv zeta in Hc, Hcl.
  destruct (compileSchema_validator
              (onJsf (fun j => Jsf.set_schema
                                 (convertJsonSchema3to4 U (Jsf.schema j)) j)
                     (normalizeSchema this))) as [Hcv Hca].
  cbv zeta. rewrite Hv, Hl, Hcv, Hca, Hc, Hcl, Hn. by split.
Qed.

Lemma finish_validator U mid this' v :
  Component.validateFormData mid = Some v ->
  activateForm U (buildForm U (synthesizeSchema U mid)) = Ok this' ->
  sameValidator mid this'.
Proof.
  intros Hv Hact.
  pose proof (synthesizeSchema_frame U mid) as [_ Hsyn].
  assert (Component.validateFormData (synthesizeSchema U mid) = Some v) as Hv'
    by (destruct Hsyn as [-> _]; exact Hv).
  eapply sameValidator_trans; [exact Hsyn|].
  eapply sameValidator_trans; [exact (buildForm_validator U _ _ Hv')|].
  exact (activateForm_validator U _ _ Hact).
Qed.

(** C5, as the code has it.  When the schema picked from the inputs is
    not empty, an initialisation that completes has called [ajv.compile]
    exactly once, at line 215: on the schema as the shorthand
    normalisation and the draft-3 conversion leave it, before any
    reference is resolved.  The validator kept for the change handler is
    that one. *)
Theorem validator_compiled_before_resolution U this this' :
  hasInputs this = true ->
  let selected := selectSchema (initOptions U (resetEngine this)) in
  isEmpty (Jsf.schema (Component.jsf selected)) = false ->
  initializeForm U this = Ok this' ->
  let compiled :=
    convertJsonSchema3to4 U
      (Jsf.schema (Component.jsf (normalizeSchema selected))) in
  Component.ajvCompiled this' = Component.ajvCompiled this ++ [compiled]
  /\ Component.validateFormData this' = Some compiled.
Proof.
  intros Hin selected Hne Hinit compiled.
  unfold initializeForm in Hinit. rewrite Hin in Hinit.
  destruct (gatherInputs U this) as [mid|e] eqn:Hmid; [|discriminate].
  apply gatherInputs_inv in Hmid as (this1 & Hprep & _ & [Hv1 Hl1]).
  destruct (prepareSchema_validator U _ _ Hne Hprep) as [Hv0 Hl0].
  pose proof (selected_untouched U this) as [_ [_ Hsel]].
  assert (Component.validateFormData mid = Some compiled) as Hvm
    by (rewrite Hv1; exact Hv0).
  destruct (finish_validator U mid this' compiled Hvm Hinit) as [Hv2 Hl2].
  split.
  - rewrite Hl2, Hl1, Hl0. f_equal. exact Hsel.
  - rewrite Hv2. exact Hvm.
Qed.

(** ** The schema shorthands *)

Lemma strictEqStr_false v s : strictEqStr v s = false <-> v <> VStr s.
Proof.
  destruct v; simpl; try (split; [discriminate | reflexivity]).
  destruct (String.eqb_spec s0 s) as [->|Hne]; split; try done.
  intros _ [= ?]. done.
Qed.

(** The assignment of line 200 reaches the input object that the schema
    was taken from. *)
Lemma assignInSource_source this0 this k v :
  Component.schema this0 = Component.schema this ->
  Component.form this0 = Component.form this ->
  Component.JSONSchema this0 = Component.JSONSchema this ->
  let src := schemaSourceOf this in
  sourceSchema src (assignInSource src k v this0)
  = setProp (sourceSchema src this) k v.
Proof.
  intros Hs Hf Hj src. subst src. unfold schemaSourceOf.
  repeat case_match; simpl; rewrite ?Hs, ?Hf, ?Hj; try reflexivity.
  - destruct (Component.form this) as [| | | | | |fprops]; try discriminate.
    apply prop_setProp_eq.
  - destruct (Component.form this) as [| | | | | |fprops]; try discriminate.
    apply prop_setProp_eq.
Qed.

(** C6.  A schema that is not empty goes through the shorthand
    normalisation first.  If it has no [type] key and an object under
    [properties], it gets [type: "object"]: the schema keeps every other
    key, the JSON Form flag is left as it is, and the input object the
    schema was taken from receives the key too (the assignment is in
    place).  Otherwise, if it has no [type], or a [type] other than
    ["object"], or no [properties], the schema becomes
    [{type: "object", properties: <the schema>}] and the JSON Form flag is
    set. *)
Theorem shorthand_schema_normalized U this :
  let schema := Jsf.schema (Component.jsf this) in
  let this' := normalizeSchema this in
  let src := schemaSourceOf this in
  isEmpty schema = false ->
  prepareSchema U this
  = resolveReferences U
      (compileSchema
         (onJsf (fun j => Jsf.set_schema
                            (convertJsonSchema3to4 U (Jsf.schema j)) j)
                this'))
  /\ (hasOwn schema "type" = false ->
      hasOwn schema "properties" = true ->
      isObject (prop schema "properties") = true ->
      Jsf.schema (Component.jsf this') = setProp schema "type" (VStr "object")
      /\ Jsf.JsonFormCompatibility (Component.jsf this')
         = Jsf.JsonFormCompatibility (Component.jsf this)
      /\ sourceSchema src this'
         = setProp (sourceSchema src this) "type" (VStr "object"))
  /\ (hasOwn schema "type" = true \/ hasOwn schema "properties" = false \/
      isObject (prop schema "properties") = false ->
      hasOwn schema "type" = false \/ prop schema "type" <> VStr "object" \/
      hasOwn schema "properties" = false ->
      Jsf.schema (Component.jsf this')
      = VObj [("type", VStr "object"); ("properties", schema)]
      /\ Jsf.JsonFormCompatibility (Component.jsf this') = true).
Proof.
  intros schema this' src Hne. split; [by apply prepareSchema_nonempty|].
  subst this'. unfold normalizeSchema. fold schema. split.
  - intros -> -> ->. simpl. split; [|split].
    + unfold assignInSource. by destruct (schemaSourceOf this).
    + unfold assignInSource. by destruct (schemaSourceOf this).
    + by apply assignInSource_source.
  - intros Hfirst Hsecond.
    assert (negb (hasOwn schema "type") && hasOwn schema "properties" &&
            isObject (prop schema "properties") = false) as ->.
    { destruct Hfirst as [-> | [-> | ->]]; simpl;
        rewrite ?andb_false_r; reflexivity. }
    assert (negb (hasOwn schema "type") ||
            negb (strictEqStr (prop schema "type") "object") ||
            negb (hasOwn schema "properties") = true) as ->.
    { destruct Hsecond as [-> | [Hty | ->]]; simpl;
        rewrite ?orb_true_r; try reflexivity.
      apply strictEqStr_false in Hty. rewrite Hty. simpl.
      by rewrite orb_true_r. }
    by split.
Qed.

(** ** The layout *)

(** C8.  The layout is the first of these that is an array: the [layout]
    input; the [form] input itself; [form.form], read after
    [fixJsonFormOptions] has been run on it in place; [form.layout].
    When none is, it is [['*', {type: 'submit', title: 'Submit'}]].  In
    each case the result is given by the chosen candidate alone. *)
Theorem layout_first_available U this :
  let form := Component.form this in
  let this' := selectLayout U this in
  let result := Jsf.layout (Component.jsf this') in
  (isArray (Component.layout this) = true -> result = Component.layout this)
  /\ (isArray (Component.layout this) = false ->
      isArray form = true -> result = form)
  /\ (isArray (Component.layout this) = false ->
      isArray form = false ->
      isArray (prop form "form") = true ->
      result = prop (Component.form this') "form"
      /\ result = fixJsonFormOptions U (prop form "form"))
  /\ (isArray (Component.layout this) = false ->
      isArray form = false ->
      isArray (prop form "form") = false ->
      isArray (prop form "layout") = true ->
      result = prop form "layout")
  /\ (isArray (Component.layout this) = false ->
      isArray form = false ->
      isArray (prop form "form") = false ->
      isArray (prop form "layout") = false ->
      result = defaultLayout).
Proof.
  intros form this' result. subst result this'. unfold selectLayout.
  fold form. split; [|split; [|split; [|split]]].
  - by intros ->.
  - by intros -> ->.
  - intros -> -> Hff. rewrite Hff, andb_true_r.
    destruct form as [| | | | | |fprops]; try discriminate. simpl.
    by rewrite assoc_assocSet_eq.
  - intros -> -> -> Hfl. rewrite Hfl, andb_false_r, andb_true_r.
    by destruct form.
  - intros -> -> -> ->. by rewrite !andb_false_r.
Qed.

(** ** The alternate layout *)

Lemma has_false o keys :
  JsonPointer.has o keys = false -> JsonPointer.get o keys = None.
Proof.
  unfold JsonPointer.has. intros H. apply bool_decide_eq_false in H.
  destruct (JsonPointer.get o keys); [|reflexivity].
  exfalso. apply H. by eexists.
Qed.

Lemma importOption_cases node pointer j :
  importOption node pointer j
  = if hasValue node && hasValue (VStr pointer) then
      match JsonPointer.toKey (toSchemaPointer pointer) with
      | Some key =>
          Ok (if JsonPointer.has (Jsf.schema j) (groupPointerOf pointer) &&
                 negb (JsonPointer.has (Jsf.schema j) (itemPointerOf pointer key))
              then Jsf.set_schema
                     (JsonPointer.set (Jsf.schema j)
                                      (itemPointerOf pointer key) node) j
              else j)
      | None => Err TypeError
      end
    else Ok j.
Proof. unfold importOption. by repeat case_match. Qed.

(** One step: what the import does with one value of the alternate layout.
    The value goes to the schema at the translated place: for a last key
    ["ui:order"] the translated pointer itself, for any other last key
    the ["x-schema-form"] bag of the enclosing group, under the key
    without its ["ui:"] prefix.  The schema changes only if the group
    exists in the schema and nothing exists at that place yet, and then
    the value is set there.  If something exists at the place the schema
    stays as it is; and whatever existed anywhere in the schema, other
    than the containers on the way to the place, is found unchanged
    afterwards. *)
Lemma alternate_option_step (node : value) pointer j j' key :
  importOption node pointer j = Ok j' ->
  JsonPointer.toKey (toSchemaPointer pointer) = Some key ->
  let schema := Jsf.schema j in
  let group := dropLast2 (JsonPointer.parse (toSchemaPointer pointer)) in
  let item :=
    if key =? "ui:order" then JsonPointer.parse (toSchemaPointer pointer)
    else group ++
         ["x-schema-form";
          if sliceTo 3 key =? "ui:" then sliceFrom 3 key else key] in
  (Jsf.schema j' <> schema ->
   hasValue node = true
   /\ JsonPointer.has schema group = true
   /\ JsonPointer.has schema item = false
   /\ Jsf.schema j' = JsonPointer.set schema item node)
  /\ (JsonPointer.has schema item = true -> Jsf.schema j' = schema)
  /\ (forall q x,
        JsonPointer.get schema q = Some x ->
        JsonPointer.isPrefix q item = false ->
        JsonPointer.get (Jsf.schema j') q = Some x).
Proof.
  intros Hstep Hkey schema group item.
  rewrite importOption_cases, Hkey in Hstep.
  change (groupPointerOf pointer) with group in Hstep.
  change (itemPointerOf pointer key) with item in Hstep.
  fold schema in Hstep.
  destruct (hasValue node && hasValue (VStr pointer)) eqn:Hval;
    [|injection Hstep as <-; by repeat split].
  apply andb_true_iff in Hval as [Hnode _].
  destruct (JsonPointer.has schema group) eqn:Hgroup; simpl in Hstep;
    [|injection Hstep as <-; by repeat split].
  destruct (JsonPointer.has schema item) eqn:Hitem; simpl in Hstep;
    injection Hstep as <-; [by repeat split|].
  simpl. split; [by repeat split|]. split; [discriminate|].
  intros q x Hq Hpre. apply get_set_other; [exact Hq | exact Hpre |].
  by apply has_false.
Qed.

(** ** What a re-initialisation leaves behind *)

Lemma absent_facts v :
  absent v ->
  truthy v = false /\ isObject v = false /\ isArray v = false
  /\ (forall k, hasOwn v k = false) /\ (forall k, prop v k = VUndefined).
Proof. by intros [-> | ->]. Qed.

(** The options phase writes the global options, the framework and the
    template data; the inputs and the rest of the service stay. *)
Lemma initOptions_keeps U this :
  let this' := initOptions U this in
  (Component.schema this' = Component.schema this
   /\ Component.layout this' = Component.layout this
   /\ Component.data this' = Component.data this
   /\ Component.form this' = Component.form this
   /\ Component.model this' = Component.model this
   /\ Component.JSONSchema this' = Component.JSONSchema this
   /\ Component.UISchema this' = Component.UISchema this
   /\ Component.formData this' = Component.formData this)
  /\ (Jsf.schema (Component.jsf this') = Jsf.schema (Component.jsf this)
      /\ Jsf.initialValues (Component.jsf this')
         = Jsf.initialValues (Component.jsf this)
      /\ Jsf.dataMap (Component.jsf this') = Jsf.dataMap (Component.jsf this)
      /\ Jsf.schemaRefLibrary (Component.jsf this')
         = Jsf.schemaRefLibrary (Component.jsf this))
  /\ (Jsf.schemaCircularRefMap (Component.jsf this')
      = Jsf.schemaCircularRefMap (Component.jsf this)
      /\ Jsf.dataCircularRefMap (Component.jsf this')
         = Jsf.dataCircularRefMap (Component.jsf this)
      /\ Jsf.arrayMap (Component.jsf this') = Jsf.arrayMap (Component.jsf this)).
Proof.
  unfold initOptions, onJsf, jsfSetOptions.
  repeat case_match; simplify_eq; simpl; by repeat split.
Qed.

(** With nothing but a layout among the inputs, and an engine without
    schema, initial values and form group, the phases from the choice of
    the schema on only store the layout. *)
Lemma layout_only_tail U s :
  absent (Component.schema s) -> absent (Component.data s) ->
  absent (Component.form s) -> absent (Component.model s) ->
  absent (Component.JSONSchema s) -> absent (Component.UISchema s) ->
  absent (Component.formData s) ->
  isArray (Component.layout s) = true ->
  lacksString (Component.layout s) "*" = false ->
  Jsf.schema (Component.jsf s) = VObj [] ->
  Jsf.initialValues (Component.jsf s) = VObj [] ->
  Jsf.formGroup (Component.jsf s) = VNull ->
  (this1 ← prepareSchema U (selectSchema s);
   this2 ← importAlternateLayout U (selectLayout U this1);
   activateForm U
     (buildForm U (synthesizeSchema U (selectInitialValues this2))))
  = Ok (onJsf (Jsf.set_layout (Component.layout s)) s).
Proof.
  intros Hs Hd Hf Hm Hj Hu Hfd Harr Hstar Hschema Hvalues Hgroup.
  apply absent_facts in Hs as (_ & Hs & _).
  apply absent_facts in Hd as (_ & Hd & _).
  apply absent_facts in Hf as (Hft & Hfo & Hfa & Hfh & Hfp).
  apply absent_facts in Hm as (_ & Hm & _).
  apply absent_facts in Hj as (_ & Hj & _).
  apply absent_facts in Hu as (_ & Hu & _).
  apply absent_facts in Hfd as (_ & Hfd & _).
  assert (selectSchema s = s) as ->.
  { unfold selectSchema, schemaSourceOf. by rewrite Hs, Hj, !Hfh. }
  unfold prepareSchema. rewrite Hschema. simpl.
  unfold selectLayout. rewrite Harr.
  unfold importAlternateLayout, selectAlternateLayout. simpl.
  rewrite Hu, !Hfh. simpl.
  unfold selectInitialValues. simpl. rewrite Hd, Hm, Hfo, Hfd, Hfh. simpl.
  unfold synthesizeSchema. simpl. rewrite Hschema, Hstar, Hvalues. simpl.
  unfold buildForm. simpl. rewrite Hschema. simpl.
  unfold activateForm. simpl. by rewrite Hgroup.
Qed.

Lemma initializeForm_phases U this :
  hasInputs this = true ->
  initializeForm U this
  = (this1 ← prepareSchema U (selectSchema (initOptions U (resetEngine this)));
     this2 ← importAlternateLayout U (selectLayout U this1);
     activateForm U
       (buildForm U (synthesizeSchema U (selectInitialValues this2)))).
Proof.
  intros Hin. unfold initializeForm, gatherInputs. rewrite Hin.
  destruct (prepareSchema U _) as [this1|]; simpl; [|done].
  by destruct (importAlternateLayout U (selectLayout U this1)).
Qed.

Lemma resetEngine_state this :
  let this' := resetEngine this in
  (Jsf.schema (Component.jsf this') = VObj []
   /\ Jsf.initialValues (Component.jsf this') = VObj []
   /\ Jsf.dataMap (Component.jsf this') = ∅
   /\ Jsf.schemaRefLibrary (Component.jsf this') = ∅
   /\ Jsf.formGroup (Component.jsf this') = VNull
   /\ Component.formInitialized this' = false)
  /\ (Jsf.schemaCircularRefMap (Component.jsf this')
      = Jsf.schemaCircularRefMap (Component.jsf this)
      /\ Jsf.dataCircularRefMap (Component.jsf this')
         = Jsf.dataCircularRefMap (Component.jsf this)
      /\ Jsf.arrayMap (Component.jsf this') = Jsf.arrayMap (Component.jsf this)
      /\ Component.validateFormData this' = Component.validateFormData this).
Proof. by repeat split. Qed.

Lemma resetEngine_inputs this :
  let this' := resetEngine this in
  Component.schema this' = Component.schema this
  /\ Component.layout this' = Component.layout this
  /\ Component.data this' = Component.data this
  /\ Component.form this' = Component.form this
  /\ Component.model this' = Component.model this
  /\ Component.JSONSchema this' = Component.JSONSchema this
  /\ Component.UISchema this' = Component.UISchema this
  /\ Component.formData this' = Component.formData this.
Proof. by repeat split. Qed.

(** C4, where the code departs from it.  A re-initialisation whose only
    input is a layout with a ["*"] entry completes, with the schema, the
    data map and the reference library reset (lines 137-141), and leaves
    the circular-reference maps, the array map and the compiled validator
    of the previous initialisation as they were: nothing in
    [initializeForm] resets them. *)
Theorem reinitialization_keeps_circular_maps U this :
  absent (Component.schema this) -> absent (Component.data this) ->
  absent (Component.form this) -> absent (Component.model this) ->
  absent (Component.JSONSchema this) -> absent (Component.UISchema this) ->
  absent (Component.formData this) ->
  isArray (Component.layout this) = true ->
  lacksString (Component.layout this) "*" = false ->
  exists this',
    initializeForm U this = Ok this'
    /\ (Jsf.schema (Component.jsf this') = VObj []
        /\ Jsf.dataMap (Component.jsf this') = ∅
        /\ Jsf.schemaRefLibrary (Component.jsf this') = ∅)
    /\ Jsf.schemaCircularRefMap (Component.jsf this')
       = Jsf.schemaCircularRefMap (Component.jsf this)
    /\ Jsf.dataCircularRefMap (Component.jsf this')
       = Jsf.dataCircularRefMap (Component.jsf this)
    /\ Jsf.arrayMap (Component.jsf this') = Jsf.arrayMap (Component.jsf this)
    /\ Component.validateFormData this' = Component.validateFormData this.
Proof.
  intros Hs Hd Hf Hm Hj Hu Hfd Harr Hstar.
  assert (hasInputs this = true) as Hin.
  { unfold hasInputs.
    assert (truthy (Component.layout this) = true) as ->
      by (by destruct (Component.layout this)).
    by rewrite !orb_true_r. }
  rewrite (initializeForm_phases U this Hin).
  destruct (resetEngine_inputs this)
    as (Rs & Rl & Rd & Rf & Rm & Rj & Ru & Rfd).
  destruct (resetEngine_state this)
    as ((Ks & Kv & Kd & Kl & Kg & _) & (Kc & Kdc & Ka & Kval)).
  destruct (initOptions_keeps U (resetEngine this))
    as ((Is & Il & Id & If & Im & Ij & Iu & Ifd) & (Js & Jv & Jd & Jl)
        & (Jc & Jdc & Ja)).
  pose proof (initOptions_frame U (resetEngine this))
    as [(_ & _ & _ & Hgroup) [Hval _]].
  cbv zeta in *.
  revert Is Il Id If Im Ij Iu Ifd Js Jv Jd Jl Jc Jdc Ja Hgroup Hval.
  generalize (initOptions U (resetEngine this)). intros s.
  rewrite Rs, Rl, Rd, Rf, Rm, Rj, Ru, Rfd, Ks, Kv, Kd, Kl, Kg, Kc, Kdc, Ka, Kval.
  intros Is Il Id If Im Ij Iu Ifd Js Jv Jd Jl Jc Jdc Ja Hgroup Hval.
  exists (onJsf (Jsf.set_layout (Component.layout s)) s). split.
  - apply layout_only_tail; rewrite ?Is, ?Il, ?Id, ?If, ?Im, ?Ij, ?Iu, ?Ifd;
      assumption.
  - unfold onJsf. cbn [Component.jsf Component.set_jsf Component.validateFormData
                       Jsf.set_layout Jsf.schema Jsf.dataMap Jsf.schemaRefLibrary
                       Jsf.schemaCircularRefMap Jsf.dataCircularRefMap
                       Jsf.arrayMap].
    rewrite Js, Jd, Jl, Jc, Jdc, Ja, Hval. by repeat split.
Qed.

(** ** The import of an alternate layout always completes *)

Lemma value_induction (P : value -> Prop) :
  P VUndefined -> P VNull -> (forall b, P (VBool b)) ->
  (forall n, P (VNum n)) -> (forall s, P (VStr s)) ->
  (forall items, Forall P items -> P (VArr items)) ->
  (forall props, Forall (fun kv => P (snd kv)) props -> P (VObj props)) ->
  forall v, P v.
Proof.
  intros Hu Hn Hb Hz Hs Ha Ho. fix IH 1. intros [| | b | n | s | items | props].
  - exact Hu.
  - exact Hn.
  - apply Hb.
  - apply Hz.
  - apply Hs.
  - apply Ha. induction items as [|v items IHitems]; constructor.
    + apply IH.
    + exact IHitems.
  - apply Ho. induction props as [|[k v] props IHprops]; constructor.
    + apply IH.
    + exact IHprops.
Qed.

Lemma hasSlash_app a b : hasSlash (a +:+ b) = hasSlash a || hasSlash b.
Proof.
  induction a as [|c a IH]; simpl; [reflexivity|].
  by rewrite IH, orb_assoc.
Qed.

Lemma replaceAll_hasSlash pat rep s :
  hasSlash rep = true -> hasSlash s = true ->
  hasSlash (replaceAll pat rep s) = true.
Proof.
  intros Hrep. unfold replaceAll. induction s as [|c s IH]; [done|].
  cbn [replaceAllFrom]. destruct (String.prefix pat (String c s)).
  - intros _. by rewrite hasSlash_app, Hrep.
  - cbn [hasSlash]. destruct (Ascii.eqb c "/"); [done|]. exact IH.
Qed.

Lemma toSchemaPointer_hasSlash pointer :
  hasSlash pointer = true -> hasSlash (toSchemaPointer pointer) = true.
Proof.
  intros Hp. unfold toSchemaPointer.
  apply replaceAll_hasSlash; [reflexivity|].
  apply replaceAll_hasSlash; [reflexivity|].
  apply replaceAll_hasSlash; [reflexivity | exact Hp].
Qed.

Lemma splitOn_nonempty sep s : exists t ts, JsonPointer.splitOn sep s = t :: ts.
Proof.
  induction s as [|c s (t & ts & IH)]; simpl; [by eauto|].
  destruct (Ascii.eqb c sep); [by eauto|]. rewrite IH. by eauto.
Qed.

Lemma splitOn_hasSlash s :
  hasSlash s = true ->
  exists t k ks, JsonPointer.splitOn "/" s = t :: k :: ks.
Proof.
  induction s as [|c s IH]; simpl; [done|].
  destruct (Ascii.eqb c "/"); simpl.
  - intros _. destruct (splitOn_nonempty "/" s) as (t & ts & ->). by eauto.
  - intros Hs. destruct (IH Hs) as (t & k & ks & ->). by eauto.
Qed.

Lemma last_cons_is_Some {A : Type} (x : A) (l : list A) : is_Some (last (x :: l)).
Proof.
  revert x. induction l as [|y l IH]; intros x; [by eexists|]. apply (IH y).
Qed.

Lemma toKey_hasSlash s : hasSlash s = true -> is_Some (JsonPointer.toKey s).
Proof.
  intros Hs. unfold JsonPointer.toKey, JsonPointer.parse.
  destruct (splitOn_hasSlash s Hs) as (t & k & ks & ->).
  apply last_cons_is_Some.
Qed.

Lemma importOption_total node pointer j :
  pointer = "" \/ hasSlash pointer = true ->
  exists j', importOption node pointer j = Ok j'.
Proof.
  rewrite importOption_cases. intros [-> | Hp].
  - rewrite andb_false_r. by eauto.
  - destruct (toKey_hasSlash _ (toSchemaPointer_hasSlash _ Hp)) as [key ->].
    destruct (hasValue node && hasValue (VStr pointer)); by eauto.
Qed.

(** The pointers that [forEachDeep] hands out below a node extend the
    node's pointer by [/] and a key. *)
Lemma deepNodes_pointers v :
  forall p node q,
    (node, q) ∈ JsonPointer.deepNodes v p -> q = p \/ hasSlash q = true.
Proof.
  induction v as [| | b | n | s | items IH | props IH] using value_induction;
    intros p node q; simpl;
    try (rewrite list_elem_of_singleton; intros [= _ ->]; by left).
  - rewrite elem_of_cons. intros [[= _ ->] | Hin]; [by left | right].
    revert Hin. generalize 0.
    induction IH as [|c cs Hc _ IHcs]; intros i Hin; [by inversion Hin|].
    apply elem_of_app in Hin as [Hin | Hin]; [|by eapply IHcs].
    destruct (Hc _ _ _ Hin) as [-> | Hq]; [|exact Hq].
    rewrite !hasSlash_app. simpl. by rewrite orb_true_r.
  - rewrite elem_of_cons. intros [[= _ ->] | Hin]; [by left | right].
    induction IH as [|[k c] cs Hc _ IHcs]; [by inversion Hin|].
    apply elem_of_app in Hin as [Hin | Hin]; [|by apply IHcs].
    destruct (Hc _ _ _ Hin) as [-> | Hq]; [|exact Hq].
    rewrite !hasSlash_app. simpl. by rewrite orb_true_r.
Qed.

Lemma foldRes_total {A S : Type} (f : A -> S -> res S) (l : list A) :
  (forall a, a ∈ l -> forall s, exists s', f a s = Ok s') ->
  forall s, exists s', foldRes f l s = Ok s'.
Proof.
  induction l as [|a l IH]; intros Hf s; simpl; [by eauto|].
  destruct (Hf a (list_elem_of_here a l) s) as [s1 ->]. simpl.
  apply IH. intros a' Ha'. apply Hf. by apply list_elem_of_further.
Qed.

Lemma importAlternateLayout_total U this :
  exists this', importAlternateLayout U this = Ok this'.
Proof.
  unfold importAlternateLayout.
  destruct (selectAlternateLayout U this) as [this1 alternateLayout].
  destruct (truthy alternateLayout); [|by eauto].
  unfold JsonPointer.forEachDeep.
  destruct (foldRes_total
              (fun node => importOption (fst node) (snd node))
              (JsonPointer.deepNodes alternateLayout "")) with (s := Component.jsf this1)
    as [j ->]; [|simpl; by eauto].
  intros [node q] Hin j. apply importOption_total.
  by apply (deepNodes_pointers alternateLayout "" node).
Qed.

Lemma bind_Ok {A B : Type} (a : A) (k : A -> res B) : (Ok a ≫= k) = k a.
Proof. reflexivity. Qed.

(** With no schema among the inputs, the phases of lines 136-344 raise
    nothing. *)
Lemma gatherInputs_total U this :
  isEmpty (Jsf.schema
             (Component.jsf (selectSchema (initOptions U (resetEngine this)))))
  = true ->
  exists mid, gatherInputs U this = Ok mid.
Proof.
  intros Hempty. unfold gatherInputs, prepareSchema. rewrite Hempty.
  cbn [negb]. rewrite bind_Ok.
  destruct (importAlternateLayout_total
              U (selectLayout U (selectSchema (initOptions U (resetEngine this)))))
    as [this2 ->].
  rewrite bind_Ok. by eexists.
Qed.

Lemma activateForm_total U this :
  (truthy (Jsf.formGroup (Component.jsf this)) = true ->
   is_Some (Component.validateFormData this)) ->
  exists this', activateForm U this = Ok this'.
Proof.
  intros Hvalidator. unfold activateForm.
  destruct (truthy (Jsf.formGroup (Component.jsf this))); [|by eauto].
  destruct (Hvalidator eq_refl) as [schema Hschema].
  case_match; [|by eauto].
  unfold validateAndEmit, emit.
  cbn [Component.validateFormData Component.set_emitted
       Component.set_subscribed Component.set_formInitialized].
  rewrite Hschema. destruct (ajvValidate U schema _). by eauto.
Qed.

Lemma buildForm_validator_ready U this :
  Jsf.formGroup (Component.jsf this) = VNull ->
  truthy (Jsf.formGroup (Component.jsf (buildForm U this))) = true ->
  is_Some (Component.validateFormData (buildForm U this)).
Proof.
  intros Hgroup. unfold buildForm.
  destruct (negb (isEmpty (Jsf.schema (Component.jsf this))));
    [|by rewrite Hgroup].
  intros _. destruct (Component.validateFormData this) as [v|] eqn:Hv;
    repeat case_match; cbn [Component.validateFormData Component.set_jsf];
    [by rewrite Hv | by eexists].
Qed.

(** With no schema among the inputs [initializeForm] raises nothing by
    itself: the collaborators are functions that return, and ajv is taken
    to accept the schema that the builders have made. *)
Lemma initializeForm_total_without_schema U this :
  isEmpty (Jsf.schema
             (Component.jsf (selectSchema (initOptions U (resetEngine this)))))
  = true ->
  exists this', initializeForm U this = Ok this'.
Proof.
  intros Hempty. unfold initializeForm.
  destruct (hasInputs this); [|by eauto].
  destruct (gatherInputs_total U this Hempty) as [mid Hmid].
  rewrite Hmid, bind_Ok.
  destruct (gatherInputs_quiet U this mid Hmid) as (_ & Hgroup & _).
  destruct (synthesizeSchema_frame U mid) as [(_ & _ & _ & Hsyn) _].
  apply activateForm_total, buildForm_validator_ready. congruence.
Qed.

(** * The statements on concrete forms *)


Lemma validator_witness :
  match initializeForm plain (withSchema siblingReference) with
  | Ok this' =>
      Component.ajvCompiled this' = [siblingReference]
      /\ Component.validateFormData this' = Some siblingReference
  | Err _ => False
  end.
Proof.
  destruct (initializeForm plain (withSchema siblingReference))
    as [this'|e] eqn:Hinit.
  - exact (validator_compiled_before_resolution
             plain (withSchema siblingReference) this' eq_refl eq_refl Hinit).
  - vm_compute in Hinit. discriminate.
Defined.

(** C5, as stated, fails on scenario 2 of the specification: the
    validator was compiled from the schema in which [a] still is a
    [$ref], not from the resolved schema, in which [a] is the number
    schema. *)
Lemma validator_schema_is_unresolved :
  match initializeForm plain (withSchema siblingReference) with
  | Ok this' =>
      Component.validateFormData this' = Some siblingReference
      /\ JsonPointer.get siblingReference ["properties"; "a"]
         = Some (VObj [("$ref", VStr "#/properties/b")])
      /\ JsonPointer.get (Jsf.schema (Component.jsf this')) ["properties"; "a"]
         = Some (VObj [("type", VStr "number")])
      /\ Component.validateFormData this'
         <> Some (Jsf.schema (Component.jsf this'))
  | Err _ => False
  end.
Proof. vm_compute. repeat split. intros [=]. Qed.

Lemma shorthand_witness :
  Jsf.schema (Component.jsf
                (normalizeSchema (selectSchema (withSchema shorthandSchema))))
  = setProp shorthandSchema "type" (VStr "object")
  /\ Component.schema
       (normalizeSchema (selectSchema (withSchema shorthandSchema)))
     = setProp shorthandSchema "type" (VStr "object").
Proof.
  destruct (shorthand_schema_normalized
              plain (selectSchema (withSchema shorthandSchema)) eq_refl)
    as (_ & Hfirst & _).
  destruct (Hfirst eq_refl eq_refl eq_refl) as (Hschema & _ & Hsource).
  split; [exact Hschema | exact Hsource].
Defined.

Lemma empty_form_witness :
  match gatherInputs plain wildcardOnly with
  | Ok mid =>
      initializeForm plain wildcardOnly = Ok mid
      /\ Jsf.formGroup (Component.jsf mid) = VNull
      /\ Component.formInitialized mid = false
      /\ Component.emitted mid = []
      /\ Component.subscribed mid = []
  | Err _ => False
  end.
Proof.
  destruct (gatherInputs plain wildcardOnly) as [mid|e] eqn:Hmid.
  - pose proof Hmid as Hvalue. vm_compute in Hvalue. injection Hvalue as <-.
    destruct (empty_schema_synthesis plain wildcardOnly _ Hmid eq_refl)
      as (_ & _ & Hempty).
    exact (Hempty eq_refl eq_refl eq_refl).
  - vm_compute in Hmid. discriminate.
Defined.

Lemma without_inputs_witness :
  initializeForm plain dataWithoutForm = Ok dataWithoutForm.
Proof.
  apply initializeForm_without_inputs; by left.
Defined.

Lemma reinitialization_witness :
  Jsf.schemaCircularRefMap (Component.jsf afterSelfReference)
    !! "/properties/node" = Some ""
  /\ exists this',
       initializeForm plain reboundToWildcard = Ok this'
       /\ Jsf.schema (Component.jsf this') = VObj []
       /\ Jsf.schemaCircularRefMap (Component.jsf this') !! "/properties/node"
          = Some "".
Proof.
  split; [by vm_compute|].
  destruct (reinitialization_keeps_circular_maps plain reboundToWildcard)
    as (this' & Hinit & (Hschema & _) & Hcircular & _);
    try (by left); try reflexivity.
  exists this'. split; [exact Hinit|]. split; [exact Hschema|].
  rewrite Hcircular. by vm_compute.
Defined.

(** The same stale entry after a re-initialisation from another schema,
    one without any reference. *)
Example reinitialization_from_another_schema :
  match initializeForm plain (Component.set_schema nameOnly afterSelfReference) with
  | Ok this' =>
      Jsf.schema (Component.jsf this') = nameOnly
      /\ Jsf.schemaRefLibrary (Component.jsf this') = ∅
      /\ Jsf.schemaCircularRefMap (Component.jsf this') !! "/properties/node"
         = Some ""
      /\ JsonPointer.get (Jsf.schema (Component.jsf this')) ["properties"; "node"]
         = None
  | Err _ => False
  end.
Proof. vm_compute. by repeat split. Qed.

(** Scenario 4 of the specification takes the first branch of the
    synthesis: a layout without wildcard and no schema. *)
Example layout_without_wildcard :
  match initializeForm plain
          (Component.set_layout
             (VArr [VObj [("key", VStr "title")]; VObj [("key", VStr "count")]])
             newComponent) with
  | Ok this' =>
      Jsf.schema (Component.jsf this')
      = buildSchemaFromLayout plain
          (VArr [VObj [("key", VStr "title")]; VObj [("key", VStr "count")]])
      /\ Component.formInitialized this' = true
  | Err _ => False
  end.
Proof. vm_compute. by split. Qed.

(** * Further properties of the component *)

(** ** The choice of the inputs *)

(** The schema is taken from the first of [schema], [form.schema],
    [JSONSchema], [form.JSONSchema] that is an object, else from [form]
    itself when [form.properties] is an object, else it stays what the
    reset made it.  An empty object counts: a direct [schema] of [{}]
    hides every later candidate.  The first candidate sets the Angular
    Schema Form flag, the third and fourth the React one, and no choice
    clears a flag. *)
Theorem schema_first_available this :
  let form := Component.form this in
  let this' := selectSchema this in
  let result := Jsf.schema (Component.jsf this') in
  let angular j := Jsf.AngularSchemaFormCompatibility j in
  let react j := Jsf.ReactJsonSchemaFormCompatibility j in
  (isObject (Component.schema this) = true ->
   result = Component.schema this /\ angular (Component.jsf this') = true)
  /\ (isObject (Component.schema this) = false ->
      isObject (prop form "schema") = true ->
      result = prop form "schema")
  /\ (isObject (Component.schema this) = false ->
      isObject (prop form "schema") = false ->
      isObject (Component.JSONSchema this) = true ->
      result = Component.JSONSchema this /\ react (Component.jsf this') = true)
  /\ (isObject (Component.schema this) = false ->
      isObject (prop form "schema") = false ->
      isObject (Component.JSONSchema this) = false ->
      isObject (prop form "JSONSchema") = true ->
      result = prop form "JSONSchema" /\ react (Component.jsf this') = true)
  /\ (isObject (Component.schema this) = false ->
      isObject (prop form "schema") = false ->
      isObject (Component.JSONSchema this) = false ->
      isObject (prop form "JSONSchema") = false ->
      (isObject (prop form "properties") = true -> result = form)
      /\ (isObject (prop form "properties") = false ->
          result = Jsf.schema (Component.jsf this)))
  /\ (angular (Component.jsf this) = true -> angular (Component.jsf this') = true)
  /\ (react (Component.jsf this) = true -> react (Component.jsf this') = true).
Proof.
  intros form this' result angular react.
  assert (forall k, isObject (prop form k) = true -> hasOwn form k = true)
    as Hown.
  { intros k. destruct form as [| | | | | |fprops]; try discriminate.
    simpl. destruct (assoc fprops k); [|discriminate].
    intros _. apply bool_decide_eq_true. by eexists. }
  subst result angular react this'. unfold selectSchema, schemaSourceOf.
  fold form.
  split; [|split; [|split; [|split; [|split; [|split]]]]].
  - by intros ->.
  - intros -> Hfs. by rewrite (Hown _ Hfs), Hfs.
  - intros -> -> ->. by rewrite andb_false_r.
  - intros -> -> -> Hfj. by rewrite andb_false_r, (Hown _ Hfj), Hfj.
  - intros -> -> -> ->. rewrite !andb_false_r. split.
    + intros Hfp. by rewrite (Hown _ Hfp), Hfp.
    + intros ->. by rewrite andb_false_r.
  - intros Hflag. repeat case_match; simpl; try reflexivity; exact Hflag.
  - intros Hflag. repeat case_match; simpl; try reflexivity; exact Hflag.
Qed.

(** The initial values are taken from the first of [data], [model],
    [form.value], [form.data], [formData], [form.formData] that is an
    object; when none is they stay what they were. *)
Theorem initialValues_first_available this :
  let form := Component.form this in
  let result := Jsf.initialValues (Component.jsf (selectInitialValues this)) in
  (isObject (Component.data this) = true -> result = Component.data this)
  /\ (isObject (Component.data this) = false ->
      (isObject (Component.model this) = true -> result = Component.model this)
      /\ (isObject (Component.model this) = false ->
          (isObject (prop form "value") = true -> result = prop form "value")
          /\ (isObject (prop form "value") = false ->
              (isObject (prop form "data") = true -> result = prop form "data")
              /\ (isObject (prop form "data") = false ->
                  (isObject (Component.formData this) = true ->
                   result = Component.formData this)
                  /\ (isObject (Component.formData this) = false ->
                      (isObject (prop form "formData") = true ->
                       result = prop form "formData")
                      /\ (isObject (prop form "formData") = false ->
                          result
                          = Jsf.initialValues (Component.jsf this))))))).
Proof.
  intros form result.
  assert (forall k, isObject (prop form k) = true ->
                    isObject form = true /\ hasOwn form k = true) as Hown.
  { intros k. destruct form as [| | | | | |fprops]; try discriminate.
    simpl. destruct (assoc fprops k); [|discriminate].
    intros _. split; [reflexivity|]. apply bool_decide_eq_true. by eexists. }
  subst result. unfold selectInitialValues. fold form.
  split; [by intros ->|]. intros ->.
  split; [by intros ->|]. intros ->.
  split; [intros Hv; destruct (Hown _ Hv) as [-> _]; by rewrite Hv|].
  intros ->. rewrite andb_false_r.
  split; [intros Hd; destruct (Hown _ Hd) as [-> _]; by rewrite Hd|].
  intros ->. rewrite andb_false_r.
  split; [by intros ->|]. intros ->.
  split; [intros Hf; destruct (Hown _ Hf) as [_ ->]; by rewrite Hf|].
  intros ->. by rewrite andb_false_r.
Qed.

Lemma jsOr_falsy a b : truthy a = false -> jsOr a b = b.
Proof. unfold jsOr. by intros ->. Qed.

Lemma jsOr_truthy_or_default a b :
  truthy (jsOr a b) = true \/ jsOr a b = b.
Proof. unfold jsOr. destruct (truthy a) eqn:Ha; [by left | by right]. Qed.

(** The framework name and the asset switch handed to the framework
    library: [form.options] wins over [options], which wins over the
    direct input, each only when its value is truthy.  Whatever the inputs
    are, the library is told a truthy switch or [false], and a truthy name
    or [null]; the framework of the service is what the library then
    answers. *)
Theorem framework_options_last_truthy_wins U this :
  let formOptions := prop (Component.form this) "options" in
  let this' := initOptions U this in
  let assets := Component.frameworkLoadExternalAssets this' in
  let name := Component.frameworkName this' in
  assets
  = jsOr (optionOf formOptions "loadExternalAssets")
      (jsOr (optionOf (Component.options this) "loadExternalAssets")
         (jsOr (Component.loadExternalAssets this) (VBool false)))
  /\ name
     = jsOr (optionOf formOptions "framework")
         (jsOr (optionOf (Component.options this) "framework")
            (jsOr (Component.framework this) VNull))
  /\ (truthy assets = true \/ assets = VBool false)
  /\ (truthy name = true \/ name = VNull)
  /\ Jsf.framework (Component.jsf this') = getFramework U assets name.
Proof.
  intros formOptions this' assets name.
  assert (assets
          = jsOr (optionOf formOptions "loadExternalAssets")
              (jsOr (optionOf (Component.options this) "loadExternalAssets")
                 (jsOr (Component.loadExternalAssets this) (VBool false)))
          /\ name
             = jsOr (optionOf formOptions "framework")
                 (jsOr (optionOf (Component.options this) "framework")
                    (jsOr (Component.framework this) VNull))
          /\ Jsf.framework (Component.jsf this') = getFramework U assets name)
    as (Hassets & Hname & Hframework).
  { subst assets name this' formOptions. unfold initOptions, optionOf.
    assert (isObject (Component.form this) &&
            isObject (prop (Component.form this) "options")
            = isObject (prop (Component.form this) "options")) as ->.
    { destruct (Component.form this); try reflexivity. }
    destruct (isObject (Component.options this));
      destruct (isObject (prop (Component.form this) "options"));
      rewrite ?(jsOr_falsy VUndefined) by reflexivity;
      repeat case_match; by repeat split. }
  split; [exact Hassets|]. split; [exact Hname|]. split; [|split].
  - rewrite Hassets.
    repeat (match goal with
            | |- context [jsOr ?a ?b] =>
                destruct (jsOr_truthy_or_default a b) as [Ht | ->];
                [by left|]
            end).
    by right.
  - rewrite Hname.
    repeat (match goal with
            | |- context [jsOr ?a ?b] =>
                destruct (jsOr_truthy_or_default a b) as [Ht | ->];
                [by left|]
            end).
    by right.
  - exact Hframework.
Qed.

(** ** The shorthand normalisation as a whole *)

Lemma hasOwn_setProp_same props k v : hasOwn (setProp (VObj props) k v) k = true.
Proof.
  simpl. rewrite assoc_assocSet_eq. apply bool_decide_eq_true. by eexists.
Qed.

Lemma hasOwn_setProp_other o k k' v :
  k <> k' -> indexOfKey k' = None ->
  hasOwn (setProp o k v) k' = hasOwn o k'.
Proof.
  intros Hne Hk. destruct o; simpl; try reflexivity.
  by rewrite assoc_assocSet_ne.
Qed.

(** Whatever the schema was, after lines 196-209 it has a [type] that is
    ["object"] and a [properties] key; running the normalisation on its
    own result changes nothing, neither in the engine nor in the inputs. *)
Theorem normalizeSchema_normal_form this :
  let schema' := Jsf.schema (Component.jsf (normalizeSchema this)) in
  hasOwn schema' "type" = true
  /\ prop schema' "type" = VStr "object"
  /\ hasOwn schema' "properties" = true
  /\ normalizeSchema (normalizeSchema this) = normalizeSchema this.
Proof.
  intros schema'.
  assert (hasOwn schema' "type" = true
          /\ prop schema' "type" = VStr "object"
          /\ hasOwn schema' "properties" = true) as (Htype & Hobject & Hprops).
  { subst schema'. unfold normalizeSchema.
    set (schema := Jsf.schema (Component.jsf this)).
    destruct (negb (hasOwn schema "type") && hasOwn schema "properties" &&
              isObject (prop schema "properties")) eqn:Hfirst.
    - apply andb_true_iff in Hfirst as [Hfirst _].
      apply andb_true_iff in Hfirst as [_ Hhas].
      destruct (hasOwn_string_key schema "properties" eq_refl Hhas)
        as [props Hschema].
      assert (Jsf.schema
                (Component.jsf
                   (assignInSource (schemaSourceOf this) "type" (VStr "object")
                      (onJsf (Jsf.set_schema
                                (setProp schema "type" (VStr "object"))) this)))
              = setProp schema "type" (VStr "object")) as ->
        by (unfold assignInSource; by destruct (schemaSourceOf this)).
      rewrite Hschema. split; [apply hasOwn_setProp_same|].
      split; [apply prop_setProp_eq|].
      rewrite hasOwn_setProp_other by done. by rewrite <- Hschema.
    - destruct (negb (hasOwn schema "type") ||
                negb (strictEqStr (prop schema "type") "object") ||
                negb (hasOwn schema "properties")) eqn:Hsecond.
      + by repeat split.
      + apply orb_false_iff in Hsecond as [Hsecond Hp].
        apply orb_false_iff in Hsecond as [Ht Ho].
        apply negb_false_iff in Ht, Ho, Hp. fold schema.
        split; [exact Ht|]. split; [|exact Hp].
        destruct (prop schema "type"); try discriminate.
        simpl in Ho. by apply String.eqb_eq in Ho as ->. }
  repeat split; try assumption.
  unfold normalizeSchema at 1. fold schema'.
  by rewrite Htype, Hprops, Hobject.
Qed.

(** ** The resolver over a whole schema *)

Lemma foldRes_preorder {A S : Type} (R : S -> S -> Prop)
    (f : A -> S -> res S) (l : list A) :
  (forall s, R s s) ->
  (forall s1 s2 s3, R s1 s2 -> R s2 s3 -> R s1 s3) ->
  (forall a s s', f a s = Ok s' -> R s s') ->
  forall s s', foldRes f l s = Ok s' -> R s s'.
Proof.
  intros Hrefl Htrans Hf. induction l as [|a l IH]; intros s s'; simpl.
  - intros [= ->]. apply Hrefl.
  - destruct (f a s) as [s1|e] eqn:Hs1; simpl; [|discriminate].
    intros Hl. eapply Htrans; [by eapply Hf | by apply IH].
Qed.

Lemma set_jsf_same this : Component.set_jsf (Component.jsf this) this = this.
Proof. by destruct this. Qed.

Lemma resolveReference_without_reference U node pointer j :
  bearsReference node = false -> resolveReference U node pointer j = Ok j.
Proof. unfold bearsReference, resolveReference. by intros ->. Qed.

(** A schema in which no node has a [$ref] string goes through lines
    218-244 unchanged: the schema, the reference library, the
    circular-reference map and everything else of the component stay as
    they are. *)
Theorem resolveReferences_without_references U this :
  withoutReferences (Jsf.schema (Component.jsf this)) = true ->
  resolveReferences U this = Ok this.
Proof.
  unfold withoutReferences, resolveReferences, JsonPointer.forEachDeep.
  intros Hnone.
  assert (forall j,
            foldRes (fun node => resolveReference U (fst node) (snd node))
                    (JsonPointer.deepNodes (Jsf.schema (Component.jsf this)) "")
                    j = Ok j) as ->.
  { induction (JsonPointer.deepNodes _ _) as [|[node q] nodes IH]; intros j;
      [reflexivity|].
    simpl in Hnone. apply andb_true_iff in Hnone as [Hnode Hrest].
    apply negb_true_iff in Hnode. cbn [foldRes fst snd].
    rewrite (resolveReference_without_reference U node q j Hnode).
    rewrite bind_Ok. by apply IH. }
  rewrite bind_Ok. by rewrite set_jsf_same.
Qed.

Lemma storeReference_grows U target j : growsFrom j (storeReference U target j).
Proof.
  unfold storeReference, growsFrom. case_match eqn:Hcond; [|by split].
  apply andb_true_iff in Hcond as [_ Hfree].
  apply negb_true_iff, bool_decide_eq_false in Hfree.
  split; [|done]. simpl. intros t e Hte.
  rewrite lookup_insert_ne; [exact Hte|].
  intros <-. apply Hfree. by eexists.
Qed.

Lemma resolveReference_grows U node pointer j j' :
  resolveReference U node pointer j = Ok j' -> growsFrom j j'.
Proof.
  unfold resolveReference. case_match; [|by intros [= <-]; split].
  set (target := match prop node "$ref" with
                 | VStr reference => JsonPointer.compile reference
                 | _ => ""
                 end).
  destruct (storeReference_grows U target j) as [Hlib Hcirc].
  destruct (negb (JsonPointer.isSubPointer target pointer)).
  - destruct (objectAssign _ _) as [merged|e]; simpl; [|discriminate].
    intros [= <-]. by split.
  - intros [= <-]. split; [exact Hlib|]. simpl. intros p Hp.
    destruct (decide (pointer = p)) as [<-|Hne].
    + rewrite lookup_insert_eq. by eexists.
    + rewrite lookup_insert_ne by done. by apply Hcirc.
Qed.

(** Over the whole traversal of lines 218-244: the reference library is a
    cache that is only added to, an entry once stored is never replaced
    (line 223 guards the write); and no location leaves the
    circular-reference map. *)
Theorem resolveReferences_only_adds U this this' :
  resolveReferences U this = Ok this' ->
  (forall target entry,
     Jsf.schemaRefLibrary (Component.jsf this) !! target = Some entry ->
     Jsf.schemaRefLibrary (Component.jsf this') !! target = Some entry)
  /\ (forall pointer,
        is_Some (Jsf.schemaCircularRefMap (Component.jsf this) !! pointer) ->
        is_Some (Jsf.schemaCircularRefMap (Component.jsf this') !! pointer)).
Proof.
  unfold resolveReferences, JsonPointer.forEachDeep.
  destruct (foldRes _ _ _) as [j|e] eqn:Hfold; [|discriminate].
  rewrite bind_Ok. intros [= <-].
  cbn [Component.jsf Component.set_jsf].
  apply (foldRes_preorder growsFrom) in Hfold; [exact Hfold | | |].
  - by split.
  - intros j1 j2 j3 [Hl Hc] [Hl' Hc']. split; eauto.
  - intros [node q] j1 j2. apply resolveReference_grows.
Qed.

(** A reference that is not circular and whose library entry is
    [undefined] or [null] (the target was not found) makes the step raise
    a [TypeError]: [Object.assign] has nothing to assign to. *)
Theorem unresolved_reference_raises U (node : value) pointer j reference :
  hasOwn node "$ref" = true ->
  prop node "$ref" = VStr reference ->
  let target := JsonPointer.compile reference in
  JsonPointer.isSubPointer target pointer = false ->
  let entry :=
    default VUndefined
      (Jsf.schemaRefLibrary (storeReference U target j) !! target) in
  entry = VUndefined \/ entry = VNull ->
  resolveReference U node pointer j = Err TypeError.
Proof.
  intros Hown Href target Hnc entry Hentry.
  rewrite (resolveReference_on_ref U node pointer j reference Hown Href).
  fold target. cbv zeta. rewrite Hnc. fold entry.
  by destruct Hentry as [-> | ->].
Qed.

(** A reference to the root is circular wherever it stands: the step
    records it, leaves the schema alone, and stores nothing in the
    library (line 222 keeps the empty pointer out). *)
Theorem root_reference_always_circular U (node : value) pointer j reference :
  hasOwn node "$ref" = true ->
  prop node "$ref" = VStr reference ->
  JsonPointer.compile reference = "" ->
  resolveReference U node pointer j
  = Ok (Jsf.set_schemaCircularRefMap
          (<[pointer := ""]> (Jsf.schemaCircularRefMap j)) j).
Proof.
  intros Hown Href Hroot.
  rewrite (resolveReference_on_ref U node pointer j reference Hown Href).
  rewrite Hroot. reflexivity.
Qed.

(** ** What the builders are handed *)

Lemma sameFresh_trans a b c : sameFresh a b -> sameFresh b c -> sameFresh a c.
Proof.
  intros (H1 & H2 & H3 & H4) (H1' & H2' & H3' & H4').
  repeat split; congruence.
Qed.

Lemma resolveReference_fresh U node pointer j j' :
  resolveReference U node pointer j = Ok j' ->
  Jsf.dataMap j' = Jsf.dataMap j
  /\ Jsf.layoutRefLibrary j' = Jsf.layoutRefLibrary j
  /\ Jsf.formGroupTemplate j' = Jsf.formGroupTemplate j
  /\ Jsf.initialValues j' = Jsf.initialValues j.
Proof.
  unfold resolveReference, storeReference.
  repeat case_match; simpl; try discriminate;
    try destruct (objectAssign _ _); simpl; intros [= <-]; by repeat split.
Qed.

Lemma importOption_fresh node pointer j j' :
  importOption node pointer j = Ok j' ->
  Jsf.dataMap j' = Jsf.dataMap j
  /\ Jsf.layoutRefLibrary j' = Jsf.layoutRefLibrary j
  /\ Jsf.formGroupTemplate j' = Jsf.formGroupTemplate j
  /\ Jsf.initialValues j' = Jsf.initialValues j.
Proof.
  unfold importOption.
  repeat case_match; simpl; try discriminate; intros [= <-]; by repeat split.
Qed.

Ltac untouched_fresh :=
  unfold sameFresh, onJsf, emit, jsfSetOptions;
  repeat case_match; simplify_eq; simpl; repeat split; reflexivity.

Lemma foldRes_fresh {A : Type} (f : A -> Jsf.t -> res Jsf.t) (l : list A) :
  (forall a j j', f a j = Ok j' ->
     Jsf.dataMap j' = Jsf.dataMap j
     /\ Jsf.layoutRefLibrary j' = Jsf.layoutRefLibrary j
     /\ Jsf.formGroupTemplate j' = Jsf.formGroupTemplate j
     /\ Jsf.initialValues j' = Jsf.initialValues j) ->
  forall j j', foldRes f l j = Ok j' ->
     Jsf.dataMap j' = Jsf.dataMap j
     /\ Jsf.layoutRefLibrary j' = Jsf.layoutRefLibrary j
     /\ Jsf.formGroupTemplate j' = Jsf.formGroupTemplate j
     /\ Jsf.initialValues j' = Jsf.initialValues j.
Proof.
  intros Hf.
  apply (foldRes_preorder
           (fun j j' =>
              Jsf.dataMap j' = Jsf.dataMap j
              /\ Jsf.layoutRefLibrary j' = Jsf.layoutRefLibrary j
              /\ Jsf.formGroupTemplate j' = Jsf.formGroupTemplate j
              /\ Jsf.initialValues j' = Jsf.initialValues j)).
  - by repeat split.
  - intros j1 j2 j3 (H1 & H2 & H3 & H4) (H1' & H2' & H3' & H4').
    repeat split; congruence.
  - exact Hf.
Qed.

Lemma prepareSchema_fresh U this this1 :
  prepareSchema U this = Ok this1 -> sameFresh this this1.
Proof.
  unfold prepareSchema. destruct (negb _); [|by intros [= <-]].
  unfold resolveReferences, JsonPointer.forEachDeep.
  destruct (foldRes _ _ _) as [j|e] eqn:Hfold; [|discriminate].
  rewrite bind_Ok. intros [= <-].
  apply foldRes_fresh in Hfold;
    [|intros [node q] ? ?; apply resolveReference_fresh].
  destruct Hfold as (H1 & H2 & H3 & H4). unfold sameFresh.
  cbn [Component.jsf Component.set_jsf]. rewrite H1, H2, H3, H4.
  unfold compileSchema, normalizeSchema, assignInSource. untouched_fresh.
Qed.

Lemma importAlternateLayout_fresh U this this' :
  importAlternateLayout U this = Ok this' -> sameFresh this this'.
Proof.
  unfold importAlternateLayout.
  assert (sameFresh this (fst (selectAlternateLayout U this))) as Hsel
    by (unfold selectAlternateLayout; untouched_fresh).
  destruct (selectAlternateLayout U this) as [this1 alternateLayout].
  simpl in Hsel. destruct (truthy alternateLayout); [|by intros [= <-]].
  unfold JsonPointer.forEachDeep.
  destruct (foldRes _ _ _) as [j|e] eqn:Hfold; [|discriminate].
  rewrite bind_Ok. intros [= <-].
  apply foldRes_fresh in Hfold;
    [|intros [node q] ? ?; apply importOption_fresh].
  eapply sameFresh_trans; [exact Hsel|]. exact Hfold.
Qed.

Lemma initOptions_fresh U this : sameFresh this (initOptions U this).
Proof. unfold initOptions. untouched_fresh. Qed.

Lemma selectSchema_fresh this : sameFresh this (selectSchema this).
Proof. unfold selectSchema. untouched_fresh. Qed.

Lemma selectLayout_fresh U this : sameFresh this (selectLayout U this).
Proof. unfold selectLayout. untouched_fresh. Qed.

Lemma resetEngine_fresh this :
  Jsf.dataMap (Component.jsf (resetEngine this)) = ∅
  /\ Jsf.layoutRefLibrary (Component.jsf (resetEngine this)) = VObj []
  /\ Jsf.formGroupTemplate (Component.jsf (resetEngine this)) = VObj []
  /\ Jsf.initialValues (Component.jsf (resetEngine this)) = VObj [].
Proof. by repeat split. Qed.

Lemma selectInitialValues_fresh this :
  Jsf.dataMap (Component.jsf (selectInitialValues this))
  = Jsf.dataMap (Component.jsf this)
  /\ Jsf.layoutRefLibrary (Component.jsf (selectInitialValues this))
     = Jsf.layoutRefLibrary (Component.jsf this)
  /\ Jsf.formGroupTemplate (Component.jsf (selectInitialValues this))
     = Jsf.formGroupTemplate (Component.jsf this).
Proof. unfold selectInitialValues, onJsf. repeat case_match; by repeat split. Qed.

Lemma selectInitialValues_object this :
  isObject (Jsf.initialValues (Component.jsf this)) = true ->
  isObject (Jsf.initialValues (Component.jsf (selectInitialValues this))) = true.
Proof.
  intros Hobject. unfold selectInitialValues, onJsf.
  repeat case_match; cbn [Component.jsf Component.set_jsf Jsf.initialValues
                           Jsf.set_initialValues
                           Jsf.set_AngularSchemaFormCompatibility
                           Jsf.set_JsonFormCompatibility
                           Jsf.set_ReactJsonSchemaFormCompatibility];
    try assumption;
    match goal with
    | H : _ && isObject ?x = true |- isObject ?x = true =>
        by apply andb_true_iff in H as [_ ?]
    end.
Qed.

Lemma gatherInputs_steps U this mid :
  gatherInputs U this = Ok mid ->
  exists this1 this2,
    prepareSchema U (selectSchema (initOptions U (resetEngine this))) = Ok this1
    /\ importAlternateLayout U (selectLayout U this1) = Ok this2
    /\ mid = selectInitialValues this2.
Proof.
  unfold gatherInputs.
  destruct (prepareSchema U _) as [this1|e] eqn:Hprep; simpl; [|discriminate].
  destruct (importAlternateLayout U _) as [this2|e] eqn:Himp; simpl;
    [|discriminate].
  intros [= <-]. by exists this1, this2.
Qed.

(** The state in which the builders find the service, whatever the inputs
    and whatever an earlier initialisation left: an empty data map, an
    empty layout library, an empty form group template, no form group,
    and initial values that are an object. *)
Theorem builders_start_fresh U this mid :
  gatherInputs U this = Ok mid ->
  Jsf.dataMap (Component.jsf mid) = ∅
  /\ Jsf.layoutRefLibrary (Component.jsf mid) = VObj []
  /\ Jsf.formGroupTemplate (Component.jsf mid) = VObj []
  /\ Jsf.formGroup (Component.jsf mid) = VNull
  /\ isObject (Jsf.initialValues (Component.jsf mid)) = true.
Proof.
  intros Hmid.
  destruct (gatherInputs_quiet U this mid Hmid) as (_ & Hgroup & _).
  destruct (gatherInputs_steps U this mid Hmid)
    as (this1 & this2 & Hprep & Himp & ->).
  apply prepareSchema_fresh in Hprep. apply importAlternateLayout_fresh in Himp.
  pose proof (sameFresh_trans _ _ _
                (initOptions_fresh U (resetEngine this))
                (selectSchema_fresh (initOptions U (resetEngine this))))
    as Hsel.
  pose proof (selectLayout_fresh U this1) as Hlay.
  destruct (sameFresh_trans _ _ _ Hsel
              (sameFresh_trans _ _ _ Hprep (sameFresh_trans _ _ _ Hlay Himp)))
    as (Hd & Hl & Ht & Hv).
  destruct (resetEngine_fresh this) as (Rd & Rl & Rt & Rv).
  destruct (selectInitialValues_fresh this2) as (Sd & Sl & St).
  rewrite Sd, Sl, St, Hd, Hl, Ht, Rd, Rl, Rt.
  repeat split; try assumption.
  apply selectInitialValues_object. by rewrite Hv, Rv.
Qed.

(** ** What an initialisation shows and sends *)

Lemma initializeForm_steps U this this' :
  hasInputs this = true ->
  initializeForm U this = Ok this' ->
  exists mid,
    gatherInputs U this = Ok mid
    /\ activateForm U (buildForm U (synthesizeSchema U mid)) = Ok this'.
Proof.
  intros Hin. unfold initializeForm. rewrite Hin.
  destruct (gatherInputs U this) as [mid|e]; [|discriminate].
  rewrite bind_Ok. intros Hact. by exists mid.
Qed.

Lemma buildForm_quiet U this :
  Component.formInitialized (buildForm U this) = Component.formInitialized this
  /\ Component.emitted (buildForm U this) = Component.emitted this
  /\ Component.subscribed (buildForm U this) = Component.subscribed this.
Proof.
  unfold buildForm, compileSchema. repeat case_match; by repeat split.
Qed.

Lemma formatted_jsf U data submit a b :
  Component.jsf a = Component.jsf b ->
  formatted U data submit a = formatted U data submit b.
Proof. unfold formatted. by intros ->. Qed.

Lemma validateOnRender_jsf a b :
  Component.jsf a = Component.jsf b -> validateOnRender a = validateOnRender b.
Proof. unfold validateOnRender. by intros ->. Qed.

(** Lines 378-423 on their own. *)
Lemma activateForm_shows U this this' :
  activateForm U this = Ok this' ->
  let formGroup := Jsf.formGroup (Component.jsf this) in
  let data := formatted U (prop formGroup "value") VUndefined this in
  Component.jsf this' = Component.jsf this
  /\ (truthy formGroup = false -> this' = this)
  /\ (truthy formGroup = true ->
      Component.formInitialized this' = true
      /\ Component.subscribed this' = Component.subscribed this ++ [formGroup]
      /\ (validateOnRender this = false ->
          Component.emitted this' = Component.emitted this ++ [onChanges data])
      /\ (validateOnRender this = true ->
          exists schema,
            Component.validateFormData this = Some schema
            /\ Component.emitted this'
               = Component.emitted this
                 ++ [onChanges data;
                     isValid (fst (ajvValidate U schema data));
                     validationErrors (snd (ajvValidate U schema data))])).
Proof.
  destruct this as [shown validator i1 i2 i3 i4 i5 i6 i7 i8 i9 i10 i11 i12
                    f1 f2 j compiled subs sent].
  unfold activateForm, validateOnRender, validateAndEmit, emit, formatted.
  cbn [Component.jsf Component.set_formInitialized Component.set_subscribed
       Component.set_emitted Component.emitted Component.subscribed
       Component.validateFormData Component.formInitialized].
  intros Hact.
  destruct (truthy (Jsf.formGroup j)).
  - destruct (truthy (default VUndefined _)).
    + destruct validator as [schema|]; [|discriminate].
      destruct (ajvValidate U schema _) as [valid errors] eqn:Hvalid.
      injection Hact as <-. cbn.
      split; [reflexivity|]. split; [discriminate|]. intros _.
      split; [reflexivity|]. split; [reflexivity|]. split; [discriminate|].
      intros _. exists schema. split; [reflexivity|].
      rewrite Hvalid. by rewrite <- !app_assoc.
    + injection Hact as <-. cbn.
      split; [reflexivity|]. split; [discriminate|]. intros _.
      split; [reflexivity|]. split; [reflexivity|]. split; [done|discriminate].
  - injection Hact as <-. split; [reflexivity|]. split; [done|discriminate].
Qed.

(** What an initialisation that completes leaves to be seen.  The form is
    shown exactly when a form group was built, and then the component is
    subscribed to that group once more.  Without a form group nothing is
    emitted.  With one, the initial formatted data is emitted; the
    validity and the errors of that same data follow when
    [validateOnRender] is set, and only then.  No [onSubmit] is among
    them. *)
Theorem initialization_shows_and_emits U this this' :
  hasInputs this = true ->
  initializeForm U this = Ok this' ->
  let formGroup := Jsf.formGroup (Component.jsf this') in
  let data := formatted U (prop formGroup "value") VUndefined this' in
  Component.formInitialized this' = truthy formGroup
  /\ Component.subscribed this'
     = Component.subscribed this ++ (if truthy formGroup then [formGroup] else [])
  /\ (truthy formGroup = false ->
      Component.emitted this' = Component.emitted this)
  /\ (truthy formGroup = true -> validateOnRender this' = false ->
      Component.emitted this' = Component.emitted this ++ [onChanges data])
  /\ (truthy formGroup = true -> validateOnRender this' = true ->
      exists schema,
        Component.validateFormData this' = Some schema
        /\ Component.emitted this'
           = Component.emitted this
             ++ [onChanges data;
                 isValid (fst (ajvValidate U schema data));
                 validationErrors (snd (ajvValidate U schema data))]).
Proof.
  intros Hin Hinit formGroup data.
  destruct (initializeForm_steps U this this' Hin Hinit) as (mid & Hmid & Hact).
  destruct (gatherInputs_quiet U this mid Hmid) as (Hshown & _ & Hsent & Hsubs).
  destruct (synthesizeSchema_frame U mid) as [(Sshown & Ssent & Ssubs & _) _].
  destruct (buildForm_quiet U (synthesizeSchema U mid)) as (Bshown & Bsent & Bsubs).
  destruct (activateForm_validator U _ _ Hact) as [Hvalidator _].
  revert Hact Bshown Bsent Bsubs Hvalidator.
  generalize (buildForm U (synthesizeSchema U mid)). intros built Hact.
  rewrite Sshown, Ssent, Ssubs, Hshown, Hsent, Hsubs.
  intros Bshown Bsent Bsubs Hvalidator.
  destruct (activateForm_shows U built this' Hact) as (Hjsf & Hnone & Hsome).
  assert (formGroup = Jsf.formGroup (Component.jsf built)) as Hgroup
    by (subst formGroup; by rewrite Hjsf).
  assert (data = formatted U (prop (Jsf.formGroup (Component.jsf built)) "value")
                           VUndefined built) as Hdata
    by (subst data; rewrite Hgroup; by apply formatted_jsf).
  rewrite (validateOnRender_jsf this' built Hjsf), Hvalidator.
  rewrite Hgroup, Hdata.
  destruct (truthy (Jsf.formGroup (Component.jsf built))) eqn:Htruthy.
  - destruct (Hsome eq_refl) as (Hs1 & Hs2 & Hs3 & Hs4).
    rewrite Hs1, Hs2, Bsubs.
    split; [reflexivity|]. split; [reflexivity|]. split; [discriminate|].
    split.
    + intros _ Hrender. by rewrite (Hs3 Hrender), Bsent.
    + intros _ Hrender. destruct (Hs4 Hrender) as (schema & Hschema & Hevents).
      exists schema. by rewrite Hschema, Hevents, Bsent.
  - rewrite (Hnone eq_refl), Bshown, Bsubs, Bsent, app_nil_r.
    split; [reflexivity|]. split; [reflexivity|]. split; [reflexivity|].
    split; discriminate.
Qed.

(** ** The subscriber and the submission *)

Lemma valueChanged_events U data this schema :
  Component.validateFormData this = Some schema ->
  let formattedData := formatted U data VUndefined this in
  valueChanged U data this
  = Ok (Component.set_emitted
          (Component.emitted this
           ++ [onChanges formattedData;
               isValid (fst (ajvValidate U schema formattedData));
               validationErrors (snd (ajvValidate U schema formattedData))])
          this).
Proof.
  destruct this as [shown validator i1 i2 i3 i4 i5 i6 i7 i8 i9 i10 i11 i12
                    f1 f2 j compiled subs sent].
  cbn [Component.validateFormData]. intros ->.
  unfold valueChanged, validateAndEmit, emit, formatted. cbn.
  destruct (ajvValidate U schema _) as [valid errors]. cbn.
  by rewrite <- !app_assoc.
Qed.

(** A form group that the initialisation has built comes with a compiled
    validator. *)
Lemma built_form_has_validator U this this' :
  hasInputs this = true ->
  initializeForm U this = Ok this' ->
  truthy (Jsf.formGroup (Component.jsf this')) = true ->
  is_Some (Component.validateFormData this').
Proof.
  intros Hin Hinit Hgroup.
  destruct (initializeForm_steps U this this' Hin Hinit) as (mid & Hmid & Hact).
  destruct (gatherInputs_quiet U this mid Hmid) as (_ & Hnull & _).
  destruct (synthesizeSchema_frame U mid) as [(_ & _ & _ & Hsyn) _].
  destruct (activateForm_validator U _ _ Hact) as [-> _].
  destruct (activateForm_shows U _ _ Hact) as (Hjsf & _).
  rewrite Hjsf in Hgroup.
  apply buildForm_validator_ready; [congruence | exact Hgroup].
Qed.

(** Once an initialisation has built a form group, the subscriber of
    lines 396-406 never meets a missing validator: for every value of the
    controls it completes, emits the formatted data, then the validity
    and the errors that the compiled validator gives for that very data,
    in this order, and changes nothing else of the component. *)
Theorem subscriber_after_initialization U this this' data :
  hasInputs this = true ->
  initializeForm U this = Ok this' ->
  truthy (Jsf.formGroup (Component.jsf this')) = true ->
  exists schema,
    Component.validateFormData this' = Some schema
    /\ let formattedData := formatted U data VUndefined this' in
       valueChanged U data this'
       = Ok (Component.set_emitted
               (Component.emitted this'
                ++ [onChanges formattedData;
                    isValid (fst (ajvValidate U schema formattedData));
                    validationErrors (snd (ajvValidate U schema formattedData))])
               this').
Proof.
  intros Hin Hinit Hgroup.
  destruct (built_form_has_validator U this this' Hin Hinit Hgroup)
    as [schema Hschema].
  exists schema. split; [exact Hschema|].
  by apply valueChanged_events.
Qed.

Lemma submitForm_emits U this :
  truthy (Jsf.formGroup (Component.jsf this)) = true ->
  submitForm U this
  = Ok (Component.set_emitted
          (Component.emitted this
           ++ [onSubmit (formatted U (prop (Jsf.formGroup (Component.jsf this))
                                           "value")
                                   (VBool true) this)])
          this).
Proof.
  unfold submitForm, emit.
  by destruct (Jsf.formGroup (Component.jsf this)).
Qed.

(** On a form that the initialisation shows, [submitForm] completes and
    emits one event, [onSubmit] with the data formatted as final; it
    emits no validity and no errors, and changes nothing else. *)
Theorem submit_on_shown_form U this this' :
  hasInputs this = true ->
  initializeForm U this = Ok this' ->
  Component.formInitialized this' = true ->
  submitForm U this'
  = Ok (Component.set_emitted
          (Component.emitted this'
           ++ [onSubmit (formatted U (prop (Jsf.formGroup (Component.jsf this'))
                                           "value")
                                   (VBool true) this')])
          this').
Proof.
  intros Hin Hinit Hshown. apply submitForm_emits.
  destruct (initializeForm_steps U this this' Hin Hinit) as (mid & Hmid & Hact).
  destruct (gatherInputs_quiet U this mid Hmid) as (Hhidden & _).
  destruct (synthesizeSchema_frame U mid) as [(Sshown & _) _].
  destruct (buildForm_quiet U (synthesizeSchema U mid)) as (Bshown & _).
  destruct (activateForm_shows U _ _ Hact) as (Hjsf & Hnone & _).
  rewrite Hjsf.
  destruct (truthy (Jsf.formGroup (Component.jsf (buildForm U _)))) eqn:Hgroup;
    [reflexivity|].
  rewrite (Hnone eq_refl), Bshown, Sshown, Hhidden in Hshown. discriminate.
Qed.

(** When the schema is still empty after the synthesis of lines 346-356,
    the initialisation ends in that state without an error, and a
    submission of the form, which the template offers all the same,
    raises a [TypeError]: [this.jsf.formGroup] is [null]. *)
Theorem submit_on_empty_form U this mid :
  hasInputs this = true ->
  gatherInputs U this = Ok mid ->
  isEmpty (Jsf.schema (Component.jsf (synthesizeSchema U mid))) = true ->
  initializeForm U this = Ok (synthesizeSchema U mid)
  /\ submitForm U (synthesizeSchema U mid) = Err TypeError.
Proof.
  intros Hin Hmid Hempty.
  destruct (gatherInputs_quiet U this mid Hmid) as (_ & Hnull & _).
  destruct (synthesizeSchema_frame U mid) as [(_ & _ & _ & Hsyn) _].
  rewrite Hnull in Hsyn.
  assert (buildForm U (synthesizeSchema U mid) = synthesizeSchema U mid) as Hbuild
    by (unfold buildForm; by rewrite Hempty).
  split.
  - unfold initializeForm. rewrite Hin, Hmid, bind_Ok, Hbuild.
    unfold activateForm. by rewrite Hsyn.
  - unfold submitForm. by rewrite Hsyn.
Qed.

(** ** How often the schema is compiled *)

Lemma prepareSchema_empty U this :
  isEmpty (Jsf.schema (Component.jsf this)) = true ->
  prepareSchema U this = Ok this.
Proof. unfold prepareSchema. by intros ->. Qed.

Lemma buildForm_compiles U this :
  Component.validateFormData this = None ->
  sameValidator this (buildForm U this)
  \/ exists schema,
       Component.ajvCompiled (buildForm U this)
       = Component.ajvCompiled this ++ [schema]
       /\ Component.validateFormData (buildForm U this) = Some schema.
Proof.
  intros Hnone. unfold buildForm.
  destruct (negb (isEmpty (Jsf.schema (Component.jsf this))));
    [|left; by split].
  right. rewrite Hnone. exists (Jsf.schema (Component.jsf this)).
  repeat case_match. by split.
Qed.

(** The validator with which an initialisation starts from a state
    without schema: the one the component had. *)
Lemma gathered_validator_without_schema U this mid :
  isEmpty (Jsf.schema
             (Component.jsf (selectSchema (initOptions U (resetEngine this)))))
  = true ->
  gatherInputs U this = Ok mid ->
  sameValidator this mid.
Proof.
  intros Hempty Hmid.
  destruct (gatherInputs_inv U this mid Hmid) as (this1 & Hprep & _ & Hv).
  rewrite (prepareSchema_empty U _ Hempty) in Hprep. injection Hprep as <-.
  destruct (selected_untouched U this) as [_ Hsel].
  by eapply sameValidator_trans.
Qed.

(** An initialisation that completes hands at most one schema to
    [ajv.compile]: either nothing is compiled and the validator is the one
    the component had, or one schema is and the validator is the one
    compiled from it. *)
Theorem schema_compiled_at_most_once U this this' :
  initializeForm U this = Ok this' ->
  (Component.ajvCompiled this' = Component.ajvCompiled this
   /\ Component.validateFormData this' = Component.validateFormData this)
  \/ exists schema,
       Component.ajvCompiled this' = Component.ajvCompiled this ++ [schema]
       /\ Component.validateFormData this' = Some schema.
Proof.
  intros Hinit. destruct (hasInputs this) eqn:Hin;
    [|unfold initializeForm in Hinit; rewrite Hin in Hinit;
      injection Hinit as <-; by left].
  destruct (initializeForm_steps U this this' Hin Hinit) as (mid & Hmid & Hact).
  destruct (isEmpty (Jsf.schema
                       (Component.jsf
                          (selectSchema (initOptions U (resetEngine this))))))
    eqn:Hempty.
  - destruct (gathered_validator_without_schema U this mid Hempty Hmid)
      as [Hv Hl].
    destruct (synthesizeSchema_frame U mid) as [_ [Sv Sl]].
    destruct (activateForm_validator U _ _ Hact) as [Av Al].
    destruct (Component.validateFormData this) as [v|] eqn:Hold.
    + left. rewrite Hv in Sv.
      destruct (buildForm_validator U _ _ Sv) as [Bv Bl].
      split; congruence.
    + rewrite Hv in Sv.
      destruct (buildForm_compiles U _ Sv) as [[Bv Bl] | (schema & Bl & Bv)].
      * left. split; congruence.
      * right. exists schema. split; congruence.
  - right.
    destruct (gatherInputs_inv U this mid Hmid) as (this1 & Hprep & _ & [Hv1 Hl1]).
    destruct (prepareSchema_validator U _ _ Hempty Hprep) as [Hv0 Hl0].
    destruct (selected_untouched U this) as [_ [_ Hsel]].
    cbv zeta in Hv0, Hl0. rewrite <- Hv1 in Hv0.
    destruct (finish_validator U mid this' _ Hv0 Hact) as [Hv2 Hl2].
    eexists. split; [|by rewrite Hv2].
    rewrite Hl2, Hl1, Hl0. by rewrite Hsel.
Qed.

(** With no schema among the inputs, a component that already holds a
    validator keeps it through the initialisation, and nothing is
    compiled, also when a schema is synthesised and a form is built from
    it (line 361 finds the field set). *)
Theorem earlier_validator_is_kept U this this' validator :
  isEmpty (Jsf.schema
             (Component.jsf (selectSchema (initOptions U (resetEngine this)))))
  = true ->
  Component.validateFormData this = Some validator ->
  initializeForm U this = Ok this' ->
  Component.validateFormData this' = Some validator
  /\ Component.ajvCompiled this' = Component.ajvCompiled this.
Proof.
  intros Hempty Hold Hinit. destruct (hasInputs this) eqn:Hin;
    [|unfold initializeForm in Hinit; rewrite Hin in Hinit;
      injection Hinit as <-; by split].
  destruct (initializeForm_steps U this this' Hin Hinit) as (mid & Hmid & Hact).
  destruct (gathered_validator_without_schema U this mid Hempty Hmid)
    as [Hv Hl].
  rewrite Hold in Hv.
  destruct (finish_validator U mid this' validator Hv Hact) as [Hv2 Hl2].
  split; congruence.
Qed.

(** ** The alternate layout, where it is taken from *)

(** The alternate layout is [UISchema] when that is an object; else
    [form.UISchema] when [form] has the key, whatever is under it; else
    [form.customFormItems] when [form] has that key, read after
    [fixJsonFormOptions] has been run on it in place.  When none of the
    three is there, lines 276-317 leave the component as it is: nothing
    is imported and no compatibility flag is set. *)
Theorem alternate_layout_first_available U this :
  let form := Component.form this in
  let chosen := snd (selectAlternateLayout U this) in
  (isObject (Component.UISchema this) = true -> chosen = Component.UISchema this)
  /\ (isObject (Component.UISchema this) = false ->
      (hasOwn form "UISchema" = true -> chosen = prop form "UISchema")
      /\ (hasOwn form "UISchema" = false ->
          (hasOwn form "customFormItems" = true ->
           chosen = fixJsonFormOptions U (prop form "customFormItems")
           /\ prop (Component.form (fst (selectAlternateLayout U this)))
                   "customFormItems" = chosen)
          /\ (hasOwn form "customFormItems" = false ->
              importAlternateLayout U this = Ok this))).
Proof.
  intros form chosen. subst chosen.
  unfold importAlternateLayout, selectAlternateLayout. fold form.
  split; [by intros ->|]. intros ->.
  split; [by intros ->|]. intros ->. split.
  - intros Hown. rewrite Hown.
    destruct (hasOwn_string_key form "customFormItems" eq_refl Hown)
      as [fprops Hform].
    cbn [fst snd Component.form Component.set_form onJsf Component.set_jsf].
    rewrite Hform. by rewrite prop_setProp_eq.
  - by intros ->.
Qed.

(** ** Pointers and the keys they stand for *)

Lemma prefix_empty s : String.prefix "" s = true.
Proof. by destruct s. Qed.

Lemma append_empty (s : string) : "" +:+ s = s.
Proof. reflexivity. Qed.

Lemma append_cons x (a b : string) : String x a +:+ b = String x (a +:+ b).
Proof. reflexivity. Qed.

Lemma append_assoc (a b c : string) : (a +:+ b) +:+ c = a +:+ (b +:+ c).
Proof.
  induction a as [|x a IH]; [reflexivity|].
  by rewrite !append_cons, IH.
Qed.

(** A pattern of one character: every occurrence is replaced. *)
Lemma replaceAll_char c rep a s :
  replaceAll (String c "") rep (String a s)
  = (if ascii_dec c a then rep else String a "")
    +:+ replaceAll (String c "") rep s.
Proof.
  unfold replaceAll. cbn [replaceAllFrom String.prefix].
  destruct (ascii_dec c a); [|reflexivity].
  by rewrite prefix_empty.
Qed.

Lemma replaceAll_char_app c rep x y :
  replaceAll (String c "") rep (x +:+ y)
  = replaceAll (String c "") rep x +:+ replaceAll (String c "") rep y.
Proof.
  induction x as [|a x IH]; [reflexivity|].
  rewrite ?append_cons, ?append_empty. by rewrite !replaceAll_char, IH, append_assoc.
Qed.

(** A pattern of two characters, where it matches and where not. *)
Lemma replaceAll_pair_hit a b rep s :
  replaceAll (String a (String b "")) rep (String a (String b s))
  = rep +:+ replaceAll (String a (String b "")) rep s.
Proof.
  unfold replaceAll. cbn [replaceAllFrom String.prefix].
  destruct (ascii_dec a a); [|done]. destruct (ascii_dec b b); [|done].
  by rewrite prefix_empty.
Qed.

Lemma replaceAll_pair_miss a b rep c s :
  String.prefix (String a (String b "")) (String c s) = false ->
  replaceAll (String a (String b "")) rep (String c s)
  = String c (replaceAll (String a (String b "")) rep s).
Proof. unfold replaceAll. cbn [replaceAllFrom]. by intros ->. Qed.

Lemma escape_cons a k :
  JsonPointer.escape (String a k)
  = (if ascii_dec "~" a then "~0"
     else if ascii_dec "/" a then "~1" else String a "")
    +:+ JsonPointer.escape k.
Proof.
  unfold JsonPointer.escape. rewrite replaceAll_char, replaceAll_char_app.
  f_equal. destruct (ascii_dec "~" a) as [<-|Hne]; [reflexivity|].
  rewrite replaceAll_char. by destruct (ascii_dec "/" a).
Qed.

Lemma escape_hasSlash k : hasSlash (JsonPointer.escape k) = false.
Proof.
  induction k as [|a k IH]; [reflexivity|].
  rewrite escape_cons, hasSlash_app, IH, orb_false_r.
  destruct (ascii_dec "~" a); [reflexivity|].
  destruct (ascii_dec "/" a) as [|Hne]; [reflexivity|].
  simpl. rewrite orb_false_r. apply Ascii.eqb_neq. congruence.
Qed.

(** A key comes back from its escaped form. *)
Lemma unescape_escape k : JsonPointer.unescape (JsonPointer.escape k) = k.
Proof.
  induction k as [|a k IH]; [reflexivity|].
  rewrite escape_cons. unfold JsonPointer.unescape in *.
  destruct (ascii_dec "~" a) as [<-|Hta].
  - rewrite ?append_cons, ?append_empty.
    rewrite (replaceAll_pair_miss "~" "1" "/" "~") by reflexivity.
    rewrite (replaceAll_pair_miss "~" "1" "/" "0") by reflexivity.
    rewrite replaceAll_pair_hit. rewrite ?append_cons, ?append_empty. by rewrite IH.
  - destruct (ascii_dec "/" a) as [<-|Hsa].
    + rewrite ?append_cons, ?append_empty. rewrite replaceAll_pair_hit. rewrite ?append_cons, ?append_empty.
      rewrite (replaceAll_pair_miss "~" "0" "~" "/") by reflexivity.
      by rewrite IH.
    + rewrite ?append_cons, ?append_empty.
      rewrite replaceAll_pair_miss
        by (cbn [String.prefix];
            destruct (ascii_dec "~" a); [contradiction | reflexivity]).
      rewrite replaceAll_pair_miss
        by (cbn [String.prefix];
            destruct (ascii_dec "~" a); [contradiction | reflexivity]).
      by rewrite IH.
Qed.

(** The key of an array index is made of digits: it has no [/] and
    nothing to unescape. *)
Lemma digits_plain u :
  hasSlash (NilEmpty.string_of_uint u) = false
  /\ JsonPointer.unescape (NilEmpty.string_of_uint u)
     = NilEmpty.string_of_uint u.
Proof.
  unfold JsonPointer.unescape.
  induction u as [|u [IH1 IH2]|u [IH1 IH2]|u [IH1 IH2]|u [IH1 IH2]
                  |u [IH1 IH2]|u [IH1 IH2]|u [IH1 IH2]|u [IH1 IH2]
                  |u [IH1 IH2]|u [IH1 IH2]];
    [by split|..];
    cbn [NilEmpty.string_of_uint];
    (split; [exact IH1|]);
    rewrite replaceAll_pair_miss by reflexivity;
    rewrite replaceAll_pair_miss by reflexivity;
    by rewrite IH2.
Qed.

Lemma indexOfKey_keyOfIndex i : indexOfKey (keyOfIndex i) = Some i.
Proof.
  unfold indexOfKey, keyOfIndex.
  rewrite NilEmpty.usu, DecimalNat.Unsigned.of_to.
  by rewrite String.eqb_refl.
Qed.

Lemma keyOfIndex_inj i i' : keyOfIndex i = keyOfIndex i' -> i = i'.
Proof.
  intros Heq. pose proof (indexOfKey_keyOfIndex i) as Hi.
  rewrite Heq, indexOfKey_keyOfIndex in Hi. by injection Hi.
Qed.

Lemma splitOn_plain e :
  hasSlash e = false -> JsonPointer.splitOn "/" e = [e].
Proof.
  induction e as [|c e IH]; [reflexivity|]. simpl.
  destruct (Ascii.eqb c "/"); [discriminate|]. simpl.
  intros He. by rewrite IH.
Qed.

Lemma splitOn_child p e :
  hasSlash e = false ->
  JsonPointer.splitOn "/" (p +:+ "/" +:+ e)
  = JsonPointer.splitOn "/" p ++ [e].
Proof.
  intros He. induction p as [|c p IH].
  - simpl. by rewrite splitOn_plain.
  - rewrite append_cons. cbn [JsonPointer.splitOn]. rewrite IH.
    destruct (Ascii.eqb c "/"); [reflexivity|].
    by destruct (splitOn_nonempty "/" p) as (t & ts & ->).
Qed.

(** The pointer of a member parses to the keys of the container
    followed by the member's key. *)
Lemma parse_child p e :
  hasSlash e = false ->
  JsonPointer.parse (p +:+ "/" +:+ e)
  = JsonPointer.parse p ++ [JsonPointer.unescape e].
Proof.
  intros He. unfold JsonPointer.parse. rewrite (splitOn_child p e He).
  destruct (splitOn_nonempty "/" p) as (t & ts & ->). simpl.
  by rewrite map_app.
Qed.

Lemma isPrefix_refl keys : JsonPointer.isPrefix keys keys = true.
Proof. apply isPrefix_spec. exists []. by rewrite app_nil_r. Qed.

Lemma get_app a : forall o b,
  JsonPointer.get o (a ++ b)
  = match JsonPointer.get o a with
    | Some x => JsonPointer.get x b
    | None => None
    end.
Proof.
  induction a as [|k a IH]; intros o b; [reflexivity|].
  rewrite <- app_comm_cons, !get_cons.
  destruct (JsonPointer.child o k) as [c|]; [apply IH | reflexivity].
Qed.

Lemma assocSet_same props k c :
  assoc props k = Some c -> assocSet props k c = props.
Proof.
  induction props as [|[k' v'] rest IH]; simpl; [done|].
  destruct (String.eqb_spec k' k) as [->|Hne].
  - by intros [= ->].
  - intros H. by rewrite IH.
Qed.

(** Below an existing location, [JsonPointer.set] rewrites the value at
    that location and nothing above it. *)
Lemma get_set_below q : forall o x rest v,
  JsonPointer.get o q = Some x ->
  JsonPointer.get (JsonPointer.set o (q ++ rest) v) q
  = Some (JsonPointer.set x rest v).
Proof.
  induction q as [|k q IH]; intros o x rest v Hq.
  - by injection Hq as ->.
  - rewrite get_cons in Hq.
    destruct (JsonPointer.child o k) as [c|] eqn:Hc; [|discriminate].
    rewrite <- app_comm_cons.
    destruct o; try discriminate.
    + rewrite child_arr in Hc. rewrite set_cons_arr.
      destruct (indexOfKey k) as [i|] eqn:Hi; [|discriminate].
      rewrite Hc, get_cons, child_arr, Hi.
      rewrite list_lookup_insert_eq by (by eapply lookup_lt_Some).
      by apply IH.
    + rewrite child_obj in Hc.
      rewrite set_cons_obj, get_cons, child_obj, assoc_assocSet_eq, Hc.
      by apply IH.
Qed.

(** Where neither location is above the other, [JsonPointer.set] at the
    one leaves the value at the other alone. *)
Lemma get_set_apart item : forall o q x v,
  JsonPointer.get o q = Some x ->
  JsonPointer.isPrefix q item = false ->
  JsonPointer.isPrefix item q = false ->
  JsonPointer.get (JsonPointer.set o item v) q = Some x.
Proof.
  induction item as [|k item IH]; intros o q x v Hq Hpre Hpre'.
  - discriminate.
  - destruct q as [|k' q]; [discriminate|].
    cbn [JsonPointer.isPrefix] in Hpre, Hpre'. rewrite get_cons in Hq.
    destruct (JsonPointer.child o k') as [c'|] eqn:Hc'; [|discriminate].
    destruct o; try discriminate.
    + rewrite child_arr in Hc'. rewrite set_cons_arr.
      destruct (indexOfKey k') as [i'|] eqn:Hi'; [|discriminate].
      destruct (indexOfKey k) as [i|] eqn:Hi;
        [|by rewrite get_cons, child_arr, Hi', Hc'].
      destruct (items !! i) as [c|] eqn:Hc.
      * rewrite get_cons, child_arr, Hi'.
        destruct (decide (i = i')) as [<-|Hne].
        -- rewrite list_lookup_insert_eq by (by eapply lookup_lt_Some).
           assert (k = k') as <- by (by eapply indexOfKey_inj).
           rewrite String.eqb_refl in Hpre, Hpre'.
           assert (c' = c) as -> by congruence.
           by apply IH.
        -- rewrite list_lookup_insert_ne by done. by rewrite Hc'.
      * destruct (Nat.eqb_spec i (length items)) as [Hlen|Hlen].
        -- rewrite get_cons, child_arr, Hi'.
           rewrite lookup_app_l by (by eapply lookup_lt_Some).
           by rewrite Hc'.
        -- by rewrite get_cons, child_arr, Hi', Hc'.
    + rewrite child_obj in Hc'. rewrite set_cons_obj, get_cons, child_obj.
      destruct (String.eqb_spec k' k) as [->|Hne].
      * rewrite assoc_assocSet_eq, Hc'. rewrite String.eqb_refl in Hpre'.
        by apply IH.
      * rewrite assoc_assocSet_ne by done. by rewrite Hc'.
Qed.

Lemma set_leaf x k rest v :
  isLeaf x = true -> JsonPointer.set x (k :: rest) v = x.
Proof. by destruct x. Qed.

Lemma set_fresh keys : forall v,
  JsonPointer.get (JsonPointer.set (VObj []) keys v) keys = Some v.
Proof.
  induction keys as [|k keys IH]; intros v; [reflexivity|].
  rewrite set_cons_obj, get_cons, child_obj, assoc_assocSet_eq. apply IH.
Qed.

(** At a location that does not exist, [JsonPointer.set] puts the value
    there, unless the path meets something that can take no member, in
    which case the tree stays as it is. *)
Lemma get_set_new item : forall o v,
  JsonPointer.get o item = None ->
  JsonPointer.get (JsonPointer.set o item v) item = Some v
  \/ JsonPointer.set o item v = o.
Proof.
  induction item as [|k item IH]; intros o v Hitem; [discriminate|].
  rewrite get_cons in Hitem.
  destruct o; try (by right).
  - rewrite child_arr in Hitem. rewrite set_cons_arr.
    destruct (indexOfKey k) as [i|] eqn:Hi; [|by right].
    destruct (items !! i) as [c|] eqn:Hc.
    + destruct (IH c v Hitem) as [Hfound | Hsame].
      * left. rewrite get_cons, child_arr, Hi.
        rewrite list_lookup_insert_eq by (by eapply lookup_lt_Some).
        exact Hfound.
      * right. rewrite Hsame. by rewrite list_insert_id.
    + destruct (Nat.eqb_spec i (length items)) as [->|Hlen]; [|by right].
      left. rewrite get_cons, child_arr, Hi.
      rewrite lookup_app_r by lia. rewrite Nat.sub_diag. apply set_fresh.
  - rewrite child_obj in Hitem. rewrite set_cons_obj.
    destruct (assoc props k) as [c|] eqn:Hc; cbn [default from_option id].
    + destruct (IH c v Hitem) as [Hfound | Hsame].
      * left. by rewrite get_cons, child_obj, assoc_assocSet_eq.
      * right. rewrite Hsame. by rewrite assocSet_same.
    + left. rewrite get_cons, child_obj, assoc_assocSet_eq. apply set_fresh.
Qed.

(** ** The nodes of a tree and the keys that lead to them *)

Lemma elem_of_map {A B : Type} (f : A -> B) (l : list A) y :
  y ∈ map f l <-> exists x, y = f x /\ x ∈ l.
Proof.
  rewrite list_elem_of_In, in_map_iff. split.
  - intros (x & <- & Hx). exists x. by rewrite list_elem_of_In.
  - intros (x & -> & Hx). exists x. by rewrite <- list_elem_of_In.
Qed.

(** What [forEachDeep] hands out, pointer by pointer, is the list of
    [keyPaths], key by key. *)
Lemma deepNodes_keyPaths v : forall p,
  map (fun node => (fst node, keysOf node)) (JsonPointer.deepNodes v p)
  = map (fun np => (fst np, JsonPointer.parse p ++ snd np)) (keyPaths v).
Proof.
  induction v as [| | b | n | s | items IH | props IH] using value_induction;
    intros p; cbn [JsonPointer.deepNodes keyPaths map fst snd];
    unfold keysOf at 1; cbn [snd]; rewrite app_nil_r; try reflexivity.
  - f_equal. generalize 0.
    induction IH as [|c cs Hc _ IHcs]; intros i; [reflexivity|].
    cbn [arrayMembers]. rewrite !map_app. f_equal; [|apply IHcs].
    rewrite Hc, map_map. apply map_ext. intros [node keys].
    cbn [under fst snd].
    rewrite parse_child by apply (digits_plain (Nat.to_uint i)).
    unfold keyOfIndex.
    rewrite (proj2 (digits_plain (Nat.to_uint i))).
    by rewrite <- app_assoc.
  - f_equal.
    induction IH as [|[k c] cs Hc _ IHcs]; [reflexivity|].
    cbn [objectMembers]. rewrite !map_app. f_equal; [|apply IHcs].
    cbn [snd] in Hc. rewrite Hc, map_map. apply map_ext. intros [node keys].
    cbn [under fst snd].
    rewrite parse_child by apply escape_hasSlash.
    by rewrite unescape_escape, <- app_assoc.
Qed.

Lemma objectMembers_elem nodes ps node keys :
  (node, keys) ∈ objectMembers nodes ps ->
  exists k c rest, keys = k :: rest /\ (k, c) ∈ ps /\ (node, rest) ∈ nodes c.
Proof.
  induction ps as [|[k c] ps IH]; cbn [objectMembers]; [by inversion 1|].
  rewrite elem_of_app, elem_of_map. intros [([n r] & Heq & Hin) | Hin].
  - injection Heq as -> ->. exists k, c, r.
    split; [reflexivity|]. split; [apply list_elem_of_here | exact Hin].
  - destruct (IH Hin) as (k' & c' & rest & -> & Hps & Hc).
    exists k', c', rest. split; [reflexivity|].
    split; [by apply list_elem_of_further | exact Hc].
Qed.

Lemma arrayMembers_elem nodes cs : forall i node keys,
  (node, keys) ∈ arrayMembers nodes i cs ->
  exists j c rest,
    keys = keyOfIndex (i + j) :: rest /\ cs !! j = Some c
    /\ (node, rest) ∈ nodes c.
Proof.
  induction cs as [|c cs IH]; intros i node keys; cbn [arrayMembers];
    [by inversion 1|].
  rewrite elem_of_app, elem_of_map. intros [([n r] & Heq & Hin) | Hin].
  - injection Heq as -> ->. exists 0, c, r. by rewrite Nat.add_0_r.
  - destruct (IH _ _ _ Hin) as (j & c' & rest & -> & Hcs & Hc).
    exists (S j), c', rest. split; [|by split].
    by rewrite Nat.add_succ_r.
Qed.

Lemma distinctKeys_assoc ps k c :
  distinctKeys ps = true -> (k, c) ∈ ps -> assoc ps k = Some c.
Proof.
  induction ps as [|[k0 c0] ps IH]; simpl; [by inversion 2|].
  intros [Hfresh Hrest]%andb_true_iff Hin.
  apply elem_of_cons in Hin as [[= -> ->] | Hin].
  - by rewrite String.eqb_refl.
  - specialize (IH Hrest Hin).
    destruct (String.eqb_spec k0 k) as [->|]; [|exact IH].
    rewrite IH in Hfresh. apply negb_true_iff, bool_decide_eq_false in Hfresh.
    exfalso. apply Hfresh. by eexists.
Qed.

(** In a tree of objects with their keys once, every node is found at
    the keys that the traversal reports for it. *)
Lemma keyPaths_get v :
  uniqueKeys v = true ->
  forall node keys, (node, keys) ∈ keyPaths v ->
                    JsonPointer.get v keys = Some node.
Proof.
  induction v as [| | b | n | s | items IH | props IH] using value_induction;
    intros Hunique node keys; cbn [keyPaths];
    try (rewrite list_elem_of_singleton; by intros [= -> ->]).
  - rewrite elem_of_cons. intros [[= -> ->] | Hin]; [reflexivity|].
    apply arrayMembers_elem in Hin as (j & c & rest & -> & Hc & Hin).
    rewrite get_cons, child_arr, indexOfKey_keyOfIndex. cbn [Nat.add].
    rewrite Hc.
    cbn [uniqueKeys] in Hunique. rewrite forallb_forall in Hunique.
    rewrite Forall_forall in IH.
    apply list_elem_of_lookup_2 in Hc.
    apply (IH c Hc); [|exact Hin].
    apply Hunique. by apply list_elem_of_In.
  - rewrite elem_of_cons. intros [[= -> ->] | Hin]; [reflexivity|].
    apply objectMembers_elem in Hin as (k & c & rest & -> & Hc & Hin).
    cbn [uniqueKeys] in Hunique.
    apply andb_true_iff in Hunique as [Hdistinct Hunique].
    rewrite forallb_forall in Hunique.
    rewrite Forall_forall in IH.
    rewrite get_cons, child_obj, (distinctKeys_assoc _ _ _ Hdistinct Hc).
    apply (IH (k, c) Hc); [|exact Hin].
    apply (Hunique (k, c)). by apply list_elem_of_In.
Qed.

Lemma ancestorsFirst_app l1 l2 :
  ancestorsFirst l1 -> ancestorsFirst l2 ->
  (forall a b, a ∈ l1 -> b ∈ l2 -> JsonPointer.isPrefix b a = false) ->
  ancestorsFirst (l1 ++ l2).
Proof.
  induction l1 as [|a l1 IH]; intros H1 H2 Hcross; [exact H2|].
  destruct H1 as [Ha H1]. cbn [app ancestorsFirst]. split.
  - apply Forall_app. split; [exact Ha|].
    apply Forall_forall. intros b Hb.
    apply Hcross; [apply list_elem_of_here | exact Hb].
  - apply IH; [exact H1 | exact H2 |].
    intros a' b Ha' Hb. apply Hcross; [by apply list_elem_of_further | exact Hb].
Qed.

Lemma ancestorsFirst_under k l :
  ancestorsFirst l -> ancestorsFirst (map (cons k) l).
Proof.
  induction l as [|a l IH]; [done|]. intros [Ha Hl]. cbn [map ancestorsFirst].
  split; [|by apply IH].
  apply Forall_forall. intros b [b' [-> Hb']]%elem_of_map.
  cbn [JsonPointer.isPrefix]. rewrite String.eqb_refl.
  rewrite Forall_forall in Ha. by apply Ha.
Qed.

Lemma ancestorsFirst_split l1 a l2 :
  ancestorsFirst (l1 ++ a :: l2) ->
  Forall (fun b => JsonPointer.isPrefix a b = false) l1
  /\ Forall (fun b => JsonPointer.isPrefix b a = false) l2
  /\ ancestorsFirst l2.
Proof.
  induction l1 as [|b l1 IH]; [intros [Ha Hl2]; by repeat split|].
  cbn [app ancestorsFirst]. intros [Hb Hrest].
  destruct (IH Hrest) as (H1 & H2 & H3).
  apply Forall_app in Hb as [_ Hb]. apply Forall_cons in Hb as [Hab _].
  split; [by constructor | by split].
Qed.

Lemma under_keys k (nodes : list (value * list string)) :
  map snd (map (under k) nodes) = map (cons k) (map snd nodes).
Proof. rewrite !map_map. by apply map_ext. Qed.

(** In a tree of objects with their keys once, the traversal reports a
    location before the locations below it, and none twice. *)
Lemma keyPaths_ancestorsFirst v :
  uniqueKeys v = true -> ancestorsFirst (map snd (keyPaths v)).
Proof.
  induction v as [| | b | n | s | items IH | props IH] using value_induction;
    intros Hunique; cbn [keyPaths map snd ancestorsFirst];
    try (split; [constructor | exact I]).
  - split.
    { apply Forall_forall. intros keys [[node ?] [-> Hin]]%elem_of_map.
      by apply arrayMembers_elem in Hin as (j & c & rest & -> & _). }
    cbn [uniqueKeys] in Hunique. revert Hunique. generalize 0.
    induction IH as [|c cs Hc _ IHcs]; intros i Hunique; [exact I|].
    cbn [forallb] in Hunique. apply andb_true_iff in Hunique as [Huc Hucs].
    cbn [arrayMembers]. rewrite map_app, under_keys.
    apply ancestorsFirst_app;
      [by apply ancestorsFirst_under, Hc | by apply IHcs |].
    intros a b [a' [-> _]]%elem_of_map [[node ?] [-> Hin]]%elem_of_map.
    apply arrayMembers_elem in Hin as (j & c' & rest & -> & _).
    cbn [snd JsonPointer.isPrefix].
    destruct (String.eqb_spec (keyOfIndex (S i + j)) (keyOfIndex i))
      as [Heq|]; [|reflexivity].
    apply keyOfIndex_inj in Heq. lia.
  - split.
    { apply Forall_forall. intros keys [[node ?] [-> Hin]]%elem_of_map.
      by apply objectMembers_elem in Hin as (k & c & rest & -> & _). }
    cbn [uniqueKeys] in Hunique.
    apply andb_true_iff in Hunique as [Hdistinct Hunique].
    induction IH as [|[k c] cs Hc _ IHcs]; [exact I|].
    cbn [forallb snd] in Hunique. apply andb_true_iff in Hunique as [Huc Hucs].
    cbn [distinctKeys] in Hdistinct.
    apply andb_true_iff in Hdistinct as [Hfresh Hdistinct].
    cbn [objectMembers]. rewrite map_app, under_keys.
    apply ancestorsFirst_app;
      [by apply ancestorsFirst_under, Hc | by apply IHcs |].
    intros a b [a' [-> _]]%elem_of_map [[node ?] [-> Hin]]%elem_of_map.
    apply objectMembers_elem in Hin as (k' & c' & rest & -> & Hk' & _).
    cbn [snd JsonPointer.isPrefix].
    destruct (String.eqb_spec k' k) as [->|]; [|reflexivity].
    apply negb_true_iff, bool_decide_eq_false in Hfresh.
    exfalso. apply Hfresh.
    rewrite (distinctKeys_assoc _ _ _ Hdistinct Hk'). by eexists.
Qed.

(** The two facts about what [forEachDeep] hands out that the passes
    over a tree rest on. *)
Lemma deepNodes_keys v :
  map keysOf (JsonPointer.deepNodes v "") = map snd (keyPaths v).
Proof.
  transitivity
    (map snd (map (fun node => (fst node, keysOf node))
                  (JsonPointer.deepNodes v ""))).
  - rewrite map_map. by apply map_ext.
  - rewrite deepNodes_keyPaths, map_map. by apply map_ext.
Qed.

Lemma deepNodes_inPlace v :
  uniqueKeys v = true -> inPlace v (JsonPointer.deepNodes v "").
Proof.
  intros Hunique node Hin _.
  apply (keyPaths_get v Hunique).
  assert ((fst node, keysOf node)
            ∈ map (fun node => (fst node, keysOf node))
                  (JsonPointer.deepNodes v "")) as Hpair
    by (apply elem_of_map; by exists node).
  rewrite deepNodes_keyPaths in Hpair.
  apply elem_of_map in Hpair as ([n keys] & Heq & Hnp).
  cbn [fst snd JsonPointer.parse JsonPointer.splitOn map app] in Heq.
  by rewrite Heq.
Qed.

(** ** The traversals, step by step *)

Lemma foldRes_app_inv {A S : Type} (f : A -> S -> res S) l1 a l2 :
  forall s s',
    foldRes f (l1 ++ a :: l2) s = Ok s' ->
    exists s1 s2,
      foldRes f l1 s = Ok s1 /\ f a s1 = Ok s2 /\ foldRes f l2 s2 = Ok s'.
Proof.
  induction l1 as [|b l1 IH]; intros s s'; cbn [app foldRes].
  - destruct (f a s) as [s2|e] eqn:Hs2; [|discriminate].
    rewrite bind_Ok. intros Hl2. by exists s, s2.
  - destruct (f b s) as [sb|e] eqn:Hsb; [|discriminate].
    rewrite !bind_Ok. apply IH.
Qed.

(** ** The resolver over a whole schema, reference by reference *)

Lemma prop_string_own o k s : prop o k = VStr s -> hasOwn o k = true.
Proof.
  destruct o; try discriminate. simpl.
  destruct (assoc props k); [|discriminate].
  intros _. apply bool_decide_eq_true. by eexists.
Qed.

(** Nothing that bears a reference stands below the [$ref] of a node
    that bears one. *)
Lemma below_reference o k rest node s :
  JsonPointer.get o (k :: rest) = Some node ->
  prop o "$ref" = VStr s ->
  bearsReference node = true ->
  k <> "$ref".
Proof.
  intros Hget Href Hbears ->.
  destruct o; try discriminate. rewrite get_cons, child_obj in Hget.
  simpl in Href. destruct (assoc props "$ref") as [c|]; [|discriminate].
  simpl in Href. subst c.
  destruct rest as [|k rest]; [by injection Hget as <-|discriminate].
Qed.

Lemma resolveReference_records_own U node pointer j j' :
  resolveReference U node pointer j = Ok j' ->
  forall p,
    p <> pointer ->
    Jsf.schemaCircularRefMap j' !! p = Jsf.schemaCircularRefMap j !! p.
Proof.
  unfold resolveReference. case_match; [|by intros [= <-]].
  destruct (negb _).
  - destruct (objectAssign _ _) as [merged|e]; simpl; [|discriminate].
    intros [= <-] p Hp. simpl. by rewrite storeReference_circular.
  - intros [= <-] p Hp. simpl. rewrite lookup_insert_ne by done.
    by rewrite storeReference_circular.
Qed.

(** What one step does to the schema: nothing, or the inlining of lines
    233-236 at a node that bears a reference. *)
Lemma resolveReference_schema U node pointer j j' :
  resolveReference U node pointer j = Ok j' ->
  Jsf.schema j' = Jsf.schema j
  \/ exists tprops mprops,
       node = VObj mprops
       /\ bearsReference node = true
       /\ Jsf.schema j'
          = JsonPointer.set (Jsf.schema j) (JsonPointer.parse pointer)
              (VObj (assignProps tprops (assocDel mprops "$ref"))).
Proof.
  intros Hstep. destruct (bearsReference node) eqn:Hbears.
  2: { rewrite resolveReference_without_reference in Hstep by done.
       injection Hstep as <-. by left. }
  pose proof Hbears as [Hown Hstr]%andb_true_iff.
  destruct (hasOwn_string_key node "$ref" ref_not_index Hown) as [mprops ->].
  destruct (prop (VObj mprops) "$ref") as [| | | | reference | |] eqn:Href;
    try discriminate.
  rewrite (resolveReference_on_ref U _ pointer j reference Hown Href) in Hstep.
  cbv zeta in Hstep. destruct (negb _).
  - right. unfold cloneDeep in Hstep.
    destruct (default VUndefined _) as [| | | | | |tprops]; try discriminate.
    cbn [deleteProp objectAssign] in Hstep. rewrite bind_Ok in Hstep.
    injection Hstep as <-. exists tprops, mprops.
    split; [reflexivity|]. split; [reflexivity|].
    cbn [Jsf.schema Jsf.set_schema]. by rewrite storeReference_schema.
  - left. injection Hstep as <-. simpl. apply storeReference_schema.
Qed.

(** The inlining at one node leaves the nodes that the traversal has
    still to visit where they are. *)
Lemma inline_keeps_later S keys tprops mprops keys' node' :
  JsonPointer.get S keys = Some (VObj mprops) ->
  bearsReference (VObj mprops) = true ->
  JsonPointer.get S keys' = Some node' ->
  bearsReference node' = true ->
  JsonPointer.isPrefix keys' keys = false ->
  JsonPointer.get
    (JsonPointer.set S keys (VObj (assignProps tprops (assocDel mprops "$ref"))))
    keys'
  = Some node'.
Proof.
  intros Hnode Hbears Hnode' Hbears' Hafter.
  destruct (JsonPointer.isPrefix keys keys') eqn:Hbelow.
  - apply isPrefix_spec in Hbelow as [rest ->].
    destruct rest as [|k rest];
      [by rewrite app_nil_r, isPrefix_refl in Hafter|].
    rewrite get_app, Hnode in Hnode'.
    rewrite get_app, get_set_same by (by eexists).
    apply andb_true_iff in Hbears as [_ Hstr].
    destruct (prop (VObj mprops) "$ref") as [| | | | s | |] eqn:Href;
      try discriminate.
    pose proof (below_reference _ _ _ _ _ Hnode' Href Hbears') as Hk.
    rewrite get_cons, child_obj in Hnode'.
    rewrite get_cons, child_obj, assoc_assignProps.
    rewrite assoc_assocDel_ne by done.
    destruct (assoc mprops k) as [c|]; [exact Hnode' | discriminate].
  - by apply get_set_apart.
Qed.

(** The inlining at a node visited later leaves the [$ref] of a node
    visited before it on that node. *)
Lemma inline_keeps_marked S keys merged node keys' reference :
  marked S keys' reference ->
  JsonPointer.get S keys = Some node ->
  bearsReference node = true ->
  JsonPointer.isPrefix keys keys' = false ->
  marked (JsonPointer.set S keys merged) keys' reference.
Proof.
  intros (node' & Hnode' & Href) Hnode Hbears Hafter.
  destruct (JsonPointer.isPrefix keys' keys) eqn:Hbelow.
  - apply isPrefix_spec in Hbelow as [rest ->].
    destruct rest as [|k rest];
      [by rewrite app_nil_r, isPrefix_refl in Hafter|].
    rewrite get_app, Hnode' in Hnode.
    pose proof (below_reference _ _ _ _ _ Hnode Href Hbears) as Hk.
    exists (JsonPointer.set node' (k :: rest) merged).
    split; [by apply get_set_below|].
    destruct node'; try discriminate.
    rewrite set_cons_obj. simpl. simpl in Href.
    by rewrite assoc_assocSet_ne.
  - exists node'. split; [by apply get_set_apart | exact Href].
Qed.

Lemma resolveReference_keeps U node pointer j j' later :
  resolveReference U node pointer j = Ok j' ->
  inPlace (Jsf.schema j) ((node, pointer) :: later) ->
  Forall (fun keys => JsonPointer.isPrefix keys (JsonPointer.parse pointer)
                      = false) (map keysOf later) ->
  inPlace (Jsf.schema j') later
  /\ (forall keys reference,
        JsonPointer.isPrefix (JsonPointer.parse pointer) keys = false ->
        marked (Jsf.schema j) keys reference ->
        marked (Jsf.schema j') keys reference).
Proof.
  intros Hstep Hplace Hlater.
  assert (inPlace (Jsf.schema j) later) as Hrest
    by (intros n Hn; apply Hplace; by apply list_elem_of_further).
  destruct (resolveReference_schema U _ _ _ _ Hstep)
    as [-> | (tprops & mprops & -> & Hbears & ->)]; [by split|].
  pose proof (Hplace _ (list_elem_of_here _ _) Hbears) as Hnode.
  cbn [fst] in Hnode. change (keysOf (VObj mprops, pointer))
    with (JsonPointer.parse pointer) in Hnode.
  split.
  - intros n Hn Hbn. apply inline_keeps_later; try done.
    + by apply Hrest.
    + rewrite Forall_forall in Hlater. apply Hlater.
      apply elem_of_map. by exists n.
  - intros keys reference Hafter Hmarked.
    by eapply inline_keeps_marked.
Qed.

(** Until its turn comes, a node that bears a reference stays where the
    traversal found it. *)
Lemma resolveReferences_in_place U before : forall j j1 later,
  foldRes (fun node => resolveReference U (fst node) (snd node)) before j
  = Ok j1 ->
  ancestorsFirst (map keysOf (before ++ later)) ->
  inPlace (Jsf.schema j) (before ++ later) ->
  inPlace (Jsf.schema j1) later.
Proof.
  induction before as [|[node pointer] before IH]; intros j j1 later;
    cbn [foldRes app map fst snd ancestorsFirst].
  - by intros [= <-].
  - destruct (resolveReference U node pointer j) as [jb|e] eqn:Hstep;
      [|discriminate].
    rewrite bind_Ok. intros Hfold [Hhead Hrest] Hplace.
    apply (IH jb j1 later Hfold Hrest).
    by apply (resolveReference_keeps U node pointer j jb).
Qed.

(** After its turn, a node keeps the [$ref] it had. *)
Lemma resolveReferences_keep_marked U later keys reference : forall j j',
  foldRes (fun node => resolveReference U (fst node) (snd node)) later j
  = Ok j' ->
  ancestorsFirst (map keysOf later) ->
  inPlace (Jsf.schema j) later ->
  Forall (fun keys' => JsonPointer.isPrefix keys' keys = false)
         (map keysOf later) ->
  marked (Jsf.schema j) keys reference ->
  marked (Jsf.schema j') keys reference.
Proof.
  induction later as [|[node pointer] later IH]; intros j j';
    cbn [foldRes map fst snd ancestorsFirst].
  - by intros [= <-].
  - destruct (resolveReference U node pointer j) as [jb|e] eqn:Hstep;
      [|discriminate].
    rewrite bind_Ok. intros Hfold [Hhead Hrest] Hplace Hafter Hmarked.
    apply Forall_cons in Hafter as [Hnode Hafter].
    destruct (resolveReference_keeps U node pointer j jb later
                Hstep Hplace Hhead) as [Hplace' Hkeep].
    apply (IH jb j' Hfold Hrest Hplace' Hafter).
    by apply Hkeep.
Qed.

(** A step writes to the circular-reference map under its own pointer
    only. *)
Lemma resolveReferences_records_own U nodes p : forall j j',
  foldRes (fun node => resolveReference U (fst node) (snd node)) nodes j
  = Ok j' ->
  Forall (fun node => snd node <> p) nodes ->
  Jsf.schemaCircularRefMap j' !! p = Jsf.schemaCircularRefMap j !! p.
Proof.
  induction nodes as [|[node pointer] nodes IH]; intros j j';
    cbn [foldRes fst snd].
  - by intros [= <-].
  - destruct (resolveReference U node pointer j) as [jb|e] eqn:Hstep;
      [|discriminate].
    rewrite bind_Ok. intros Hfold [Hp Hrest]%Forall_cons.
    rewrite (IH jb j' Hfold Hrest).
    by apply (resolveReference_records_own U node pointer j jb Hstep).
Qed.

Lemma apart_pointers (nodes : list (value * string)) p :
  Forall (fun keys => JsonPointer.isPrefix keys (JsonPointer.parse p) = false
                      \/ JsonPointer.isPrefix (JsonPointer.parse p) keys = false)
         (map keysOf nodes) ->
  Forall (fun node => snd node <> p) nodes.
Proof.
  rewrite !Forall_forall. intros Hkeys node Hnode Heq.
  destruct (Hkeys (keysOf node)) as [H | H].
  - apply elem_of_map. by exists node.
  - unfold keysOf in H. by rewrite Heq, isPrefix_refl in H.
  - unfold keysOf in H. by rewrite Heq, isPrefix_refl in H.
Qed.

(** C1.  Over the whole pass of lines 218-244, on a schema whose objects
    have each key once.  For every node that the traversal visits and
    that bears a [$ref] string: the reference is circular exactly when
    the keys of the normalised target pointer are a prefix of the keys of
    the node's own pointer (the target is an ancestor of the node, or the
    node itself).  If it is circular, then when the pass is over the
    circular-reference map of the engine holds the target under the
    node's pointer, and the schema of the engine has, at the node's
    location, a node that still has that [$ref]: the reference was not
    inlined, neither in its turn nor by a later step.  If it is not
    circular, the pass leaves the map as it was under the node's
    pointer. *)
Theorem circular_references_kept_and_recorded U this this' :
  uniqueKeys (Jsf.schema (Component.jsf this)) = true ->
  resolveReferences U this = Ok this' ->
  forall node pointer reference,
    (node, pointer) ∈ JsonPointer.deepNodes (Jsf.schema (Component.jsf this)) "" ->
    hasOwn node "$ref" = true ->
    prop node "$ref" = VStr reference ->
    let target := JsonPointer.compile reference in
    let circular := JsonPointer.isSubPointer target pointer in
    (circular = true <->
       exists rest,
         JsonPointer.parse pointer = JsonPointer.parse target ++ rest)
    /\ (circular = true ->
        Jsf.schemaCircularRefMap (Component.jsf this') !! pointer = Some target
        /\ exists node',
             JsonPointer.get (Jsf.schema (Component.jsf this'))
                             (JsonPointer.parse pointer) = Some node'
             /\ hasOwn node' "$ref" = true
             /\ prop node' "$ref" = VStr reference)
    /\ (circular = false ->
        Jsf.schemaCircularRefMap (Component.jsf this') !! pointer
        = Jsf.schemaCircularRefMap (Component.jsf this) !! pointer).
Proof.
  intros Hunique Hpass node pointer reference Hin Hown Href target circular.
  split; [apply isPrefix_spec|].
  unfold resolveReferences, JsonPointer.forEachDeep in Hpass.
  destruct (foldRes _ _ _) as [j'|e] eqn:Hfold; [|discriminate].
  rewrite bind_Ok in Hpass. injection Hpass as <-.
  cbn [Component.jsf Component.set_jsf].
  pose proof (deepNodes_inPlace _ Hunique) as Hplace.
  pose proof (keyPaths_ancestorsFirst _ Hunique) as Hfirst.
  rewrite <- deepNodes_keys in Hfirst.
  destruct (list_elem_of_split _ _ Hin) as (before & later & Hnodes).
  rewrite Hnodes in Hfold, Hplace, Hfirst.
  destruct (foldRes_app_inv _ _ _ _ _ _ Hfold)
    as (j1 & j2 & Hbefore & Hstep & Hlater).
  cbn [fst snd] in Hstep.
  pose proof (resolveReferences_in_place U before _ j1 _ Hbefore Hfirst Hplace)
    as Hplace1.
  rewrite map_app in Hfirst. cbn [map] in Hfirst.
  destruct (ancestorsFirst_split _ _ _ Hfirst) as (Hearlier & Hafter & Hlast).
  change (keysOf (node, pointer)) with (JsonPointer.parse pointer)
    in Hearlier, Hafter.
  assert (Jsf.schemaCircularRefMap j1 !! pointer
          = Jsf.schemaCircularRefMap (Component.jsf this) !! pointer) as Hmap1.
  { apply (resolveReferences_records_own U before pointer _ _ Hbefore).
    apply apart_pointers. eapply Forall_impl; [exact Hearlier|].
    intros keys Hkeys. by right. }
  assert (Jsf.schemaCircularRefMap j' !! pointer
          = Jsf.schemaCircularRefMap j2 !! pointer) as Hmap2.
  { apply (resolveReferences_records_own U later pointer _ _ Hlater).
    apply apart_pointers. eapply Forall_impl; [exact Hafter|].
    intros keys Hkeys. by left. }
  assert (bearsReference node = true) as Hbears
    by (unfold bearsReference; by rewrite Hown, Href).
  rewrite (resolveReference_on_ref U node pointer j1 reference Hown Href)
    in Hstep.
  fold target in Hstep. cbv zeta in Hstep. fold circular in Hstep.
  rewrite Hmap2. split.
  - intros Hcircular. rewrite Hcircular in Hstep. cbn [negb] in Hstep.
    injection Hstep as <-. cbn [Jsf.schemaCircularRefMap Jsf.set_schemaCircularRefMap].
    split; [apply lookup_insert_eq|].
    assert (marked (Jsf.schema j') (JsonPointer.parse pointer) reference)
      as (node' & Hnode' & Href').
    { apply (resolveReferences_keep_marked U later _ _ _ _ Hlater Hlast).
      - cbn [Jsf.schema Jsf.set_schemaCircularRefMap].
        rewrite storeReference_schema.
        intros n Hn. apply Hplace1. by apply list_elem_of_further.
      - exact Hafter.
      - exists node. split; [|exact Href].
        cbn [Jsf.schema Jsf.set_schemaCircularRefMap].
        rewrite storeReference_schema.
        by apply (Hplace1 (node, pointer) (list_elem_of_here _ _)). }
    exists node'. split; [exact Hnode'|].
    split; [by eapply prop_string_own | exact Href'].
  - intros Hcircular. rewrite Hcircular in Hstep. cbn [negb] in Hstep.
    destruct (objectAssign _ _) as [merged|e]; [|discriminate].
    rewrite bind_Ok in Hstep. injection Hstep as <-.
    cbn [Jsf.schemaCircularRefMap Jsf.set_schema].
    by rewrite storeReference_circular.
Qed.

(** ** The import of an alternate layout as a whole *)

Lemma keepsValues_refl s : keepsValues s s.
Proof. intros q x Hq. split; [by eexists | done]. Qed.

Lemma keepsValues_trans a b c :
  keepsValues a b -> keepsValues b c -> keepsValues a c.
Proof.
  intros Hab Hbc q x Hq. destruct (Hab q x Hq) as [[y Hy] Hleaf].
  destruct (Hbc q y Hy) as [Hsome _]. split; [exact Hsome|].
  intros Hx. by apply (Hbc q x (Hleaf Hx)).
Qed.

(** One step of the import overwrites nothing: what the schema has it
    keeps, a container possibly with a member more. *)
Lemma importOption_keepsValues node pointer j j' :
  importOption node pointer j = Ok j' ->
  keepsValues (Jsf.schema j) (Jsf.schema j').
Proof.
  rewrite importOption_cases. intros Hstep.
  destruct (hasValue node && hasValue (VStr pointer));
    [|injection Hstep as <-; apply keepsValues_refl].
  destruct (JsonPointer.toKey _) as [key|]; [|discriminate].
  injection Hstep as <-.
  destruct (JsonPointer.has (Jsf.schema j) (groupPointerOf pointer));
    [|apply keepsValues_refl].
  destruct (JsonPointer.has (Jsf.schema j) (itemPointerOf pointer key))
    eqn:Hitem; [apply keepsValues_refl|].
  apply has_false in Hitem. cbn [andb negb Jsf.schema Jsf.set_schema].
  intros q x Hq.
  destruct (JsonPointer.isPrefix q (itemPointerOf pointer key)) eqn:Hpre.
  - apply isPrefix_spec in Hpre as [rest Hrest]. rewrite Hrest in Hitem |- *.
    rewrite (get_set_below q _ x rest node Hq). split; [by eexists|].
    destruct rest as [|k rest]; [rewrite app_nil_r in Hitem; congruence|].
    intros Hleaf. by rewrite set_leaf.
  - rewrite (get_set_other _ _ q x node Hq Hpre Hitem). by split; [eexists|].
Qed.

Lemma importOptions_keepValues nodes : forall j j',
  foldRes (fun node => importOption (fst node) (snd node)) nodes j = Ok j' ->
  keepsValues (Jsf.schema j) (Jsf.schema j').
Proof.
  apply (foldRes_preorder
           (fun j j' => keepsValues (Jsf.schema j) (Jsf.schema j'))).
  - intros j. apply keepsValues_refl.
  - intros j1 j2 j3. apply keepsValues_trans.
  - intros [node pointer] j j'. apply importOption_keepsValues.
Qed.

Lemma selectAlternateLayout_schema U this :
  Jsf.schema (Component.jsf (fst (selectAlternateLayout U this)))
  = Jsf.schema (Component.jsf this).
Proof. unfold selectAlternateLayout, onJsf. by repeat case_match. Qed.

(** C9.  Over the whole import of lines 276-317, for the alternate layout
    that lines 276-287 have chosen.  Nothing that the schema had is
    overwritten: every location of the schema before the import is one
    after it, and a value without members is the same value afterwards.
    And every value of the alternate layout, in its turn ([j1] is the
    engine when the traversal reaches the value, [j2] the engine after
    that step): its place in the schema is, for a last key ["ui:order"],
    the translated pointer itself, and for any other last key the
    ["x-schema-form"] bag of the enclosing group, under the key without
    its ["ui:"] prefix.  If the value and its pointer are there, the group
    exists in the schema and nothing exists at the place, the value is
    set at the place, and is found there unless the path to the place
    meets something that can take no member; in every other case the
    step changes nothing.  Whatever the step leaves at the place, if it
    has no members, is what the schema has there when the import is
    over. *)
Theorem alternate_layout_first_writer_wins
    U this this1 this' alternateLayout :
  selectAlternateLayout U this = (this1, alternateLayout) ->
  truthy alternateLayout = true ->
  importAlternateLayout U this = Ok this' ->
  let imported := Jsf.schema (Component.jsf this') in
  (forall q x,
     JsonPointer.get (Jsf.schema (Component.jsf this)) q = Some x ->
     is_Some (JsonPointer.get imported q)
     /\ (isLeaf x = true -> JsonPointer.get imported q = Some x))
  /\ (forall before node pointer later key,
        JsonPointer.deepNodes alternateLayout ""
        = before ++ (node, pointer) :: later ->
        JsonPointer.toKey (toSchemaPointer pointer) = Some key ->
        let group := dropLast2 (JsonPointer.parse (toSchemaPointer pointer)) in
        let item :=
          if key =? "ui:order" then JsonPointer.parse (toSchemaPointer pointer)
          else group ++
               ["x-schema-form";
                if sliceTo 3 key =? "ui:" then sliceFrom 3 key else key] in
        exists j1 j2,
          foldRes (fun n => importOption (fst n) (snd n)) before
                  (Component.jsf this1) = Ok j1
          /\ importOption node pointer j1 = Ok j2
          /\ foldRes (fun n => importOption (fst n) (snd n)) later j2
             = Ok (Component.jsf this')
          /\ (if hasValue node && hasValue (VStr pointer)
                 && JsonPointer.has (Jsf.schema j1) group
                 && negb (JsonPointer.has (Jsf.schema j1) item)
              then Jsf.schema j2 = JsonPointer.set (Jsf.schema j1) item node
                   /\ (JsonPointer.get (Jsf.schema j2) item = Some node
                       \/ Jsf.schema j2 = Jsf.schema j1)
              else j2 = j1)
          /\ (forall x,
                JsonPointer.get (Jsf.schema j2) item = Some x ->
                isLeaf x = true ->
                JsonPointer.get imported item = Some x)).
Proof.
  intros Hchosen Htruthy Himport imported. subst imported.
  pose proof (selectAlternateLayout_schema U this) as Hschema.
  unfold importAlternateLayout in Himport.
  rewrite Hchosen in Himport, Hschema. cbn [fst] in Hschema.
  rewrite Htruthy in Himport. unfold JsonPointer.forEachDeep in Himport.
  destruct (foldRes _ _ _) as [j'|e] eqn:Hfold; [|discriminate].
  rewrite bind_Ok in Himport. injection Himport as <-.
  cbn [Component.jsf Component.set_jsf]. split.
  - rewrite <- Hschema. exact (importOptions_keepValues _ _ _ Hfold).
  - intros before node pointer later key Hnodes Hkey.
    set (group := dropLast2 (JsonPointer.parse (toSchemaPointer pointer))).
    set (item := if key =? "ui:order" then _ else _).
    rewrite Hnodes in Hfold.
    destruct (foldRes_app_inv _ _ _ _ _ _ Hfold)
      as (j1 & j2 & Hbefore & Hstep & Hlater).
    cbn [fst snd] in Hstep. exists j1, j2.
    split; [exact Hbefore|]. split; [exact Hstep|]. split; [exact Hlater|].
    split.
    + rewrite importOption_cases, Hkey in Hstep.
      change (groupPointerOf pointer) with group in Hstep.
      change (itemPointerOf pointer key) with item in Hstep.
      destruct (hasValue node && hasValue (VStr pointer));
        [|by injection Hstep as <-].
      injection Hstep as <-.
      destruct (JsonPointer.has (Jsf.schema j1) group); [|reflexivity].
      destruct (JsonPointer.has (Jsf.schema j1) item) eqn:Hitem;
        [reflexivity|].
      cbn [andb negb Jsf.schema Jsf.set_schema]. split; [reflexivity|].
      apply get_set_new. by apply has_false.
    + intros x Hx Hleaf.
      destruct (importOptions_keepValues _ _ _ Hlater item x Hx) as [_ Hkept].
      by apply Hkept.
Qed.

(** * The further properties on concrete forms *)

Lemma without_references_witness :
  resolveReferences plain (onJsf (Jsf.set_schema nameOnly) newComponent)
  = Ok (onJsf (Jsf.set_schema nameOnly) newComponent).
Proof.
  apply resolveReferences_without_references. reflexivity.
Defined.

Lemma only_adds_witness :
  match resolveReferences plain afterSelfReference with
  | Ok this' =>
      is_Some (Jsf.schemaCircularRefMap (Component.jsf this')
                 !! "/properties/node")
  | Err _ => False
  end.
Proof.
  destruct (resolveReferences plain afterSelfReference) as [this'|e] eqn:Hres.
  - destruct (resolveReferences_only_adds plain afterSelfReference this' Hres)
      as [_ Hcircular].
    apply Hcircular. exists "". by vm_compute.
  - vm_compute in Hres. discriminate.
Defined.

Lemma unresolved_reference_witness :
  resolveReference plain (VObj [("$ref", VStr "#/definitions/missing")])
                   "/properties/a"
                   (Jsf.set_schema danglingReference newJsf)
  = Err TypeError.
Proof.
  apply (unresolved_reference_raises
           plain (VObj [("$ref", VStr "#/definitions/missing")])
           "/properties/a" (Jsf.set_schema danglingReference newJsf)
           "#/definitions/missing" eq_refl eq_refl eq_refl).
  left. by vm_compute.
Defined.

Lemma root_reference_witness :
  resolveReference plain (VObj [("$ref", VStr "#")]) "/properties/node"
                   (Jsf.set_schema selfReference newJsf)
  = Ok (Jsf.set_schemaCircularRefMap
          (<["/properties/node" := ""]> ∅)
          (Jsf.set_schema selfReference newJsf)).
Proof.
  exact (root_reference_always_circular
           plain (VObj [("$ref", VStr "#")]) "/properties/node"
           (Jsf.set_schema selfReference newJsf) "#" eq_refl eq_refl eq_refl).
Defined.

Lemma builders_start_fresh_witness :
  match gatherInputs plain (Component.set_schema nameOnly afterSelfReference) with
  | Ok mid =>
      Jsf.dataMap (Component.jsf mid) = ∅
      /\ Jsf.layoutRefLibrary (Component.jsf mid) = VObj []
      /\ Jsf.formGroupTemplate (Component.jsf mid) = VObj []
      /\ Jsf.formGroup (Component.jsf mid) = VNull
      /\ isObject (Jsf.initialValues (Component.jsf mid)) = true
  | Err _ => False
  end.
Proof.
  destruct (gatherInputs plain _) as [mid|e] eqn:Hmid.
  - exact (builders_start_fresh plain _ mid Hmid).
  - vm_compute in Hmid. discriminate.
Defined.

Lemma shows_and_emits_witness :
  match initializeForm plainValidating (withValidation nameOnly) with
  | Ok this' =>
      Component.formInitialized this' = true
      /\ Component.emitted this'
         = [onChanges (VObj []); isValid true; validationErrors (VArr [])]
  | Err _ => False
  end.
Proof.
  destruct (initializeForm plainValidating (withValidation nameOnly))
    as [this'|e] eqn:Hinit.
  - destruct (initialization_shows_and_emits
                plainValidating (withValidation nameOnly) this' eq_refl Hinit)
      as (Hshown & _ & _ & _ & Hrender).
    pose proof Hinit as Hvalue. vm_compute in Hvalue. injection Hvalue as <-.
    split; [exact Hshown|].
    destruct (Hrender eq_refl eq_refl) as (schema & Hschema & Hevents).
    injection Hschema as <-. exact Hevents.
  - vm_compute in Hinit. discriminate.
Defined.

Lemma subscriber_witness :
  match initializeForm plain (withSchema nameOnly) with
  | Ok this' =>
      exists this'',
        valueChanged plain (VObj [("name", VStr "Ada")]) this' = Ok this''
        /\ Component.emitted this''
           = Component.emitted this'
             ++ [onChanges (VObj [("name", VStr "Ada")]); isValid true;
                 validationErrors VNull]
  | Err _ => False
  end.
Proof.
  destruct (initializeForm plain (withSchema nameOnly)) as [this'|e] eqn:Hinit.
  - pose proof Hinit as Hvalue. vm_compute in Hvalue. injection Hvalue as Hvalue.
    destruct (subscriber_after_initialization
                plain (withSchema nameOnly) this' (VObj [("name", VStr "Ada")])
                eq_refl Hinit)
      as (schema & _ & Hchanged); [by rewrite <- Hvalue|].
    eexists. split; [exact Hchanged|]. reflexivity.
  - vm_compute in Hinit. discriminate.
Defined.

Lemma submit_on_shown_form_witness :
  match initializeForm plain (withSchema nameOnly) with
  | Ok this' =>
      exists this'',
        submitForm plain this' = Ok this''
        /\ Component.emitted this''
           = Component.emitted this' ++ [onSubmit (VObj [])]
  | Err _ => False
  end.
Proof.
  destruct (initializeForm plain (withSchema nameOnly)) as [this'|e] eqn:Hinit.
  - pose proof Hinit as Hvalue. vm_compute in Hvalue. injection Hvalue as Hvalue.
    eexists. split.
    + apply (submit_on_shown_form plain (withSchema nameOnly) this' eq_refl Hinit).
      by rewrite <- Hvalue.
    + rewrite <- Hvalue. reflexivity.
  - vm_compute in Hinit. discriminate.
Defined.

Lemma submit_on_empty_form_witness :
  match gatherInputs plain wildcardOnly with
  | Ok mid =>
      initializeForm plain wildcardOnly = Ok (synthesizeSchema plain mid)
      /\ submitForm plain (synthesizeSchema plain mid) = Err TypeError
  | Err _ => False
  end.
Proof.
  destruct (gatherInputs plain wildcardOnly) as [mid|e] eqn:Hmid.
  - apply (submit_on_empty_form plain wildcardOnly mid eq_refl Hmid).
    vm_compute in Hmid. by injection Hmid as <-.
  - vm_compute in Hmid. discriminate.
Defined.

Lemma compiled_at_most_once_witness :
  match initializeForm plain reboundToLayout with
  | Ok this' =>
      (Component.ajvCompiled this' = Component.ajvCompiled reboundToLayout
       /\ Component.validateFormData this'
          = Component.validateFormData reboundToLayout)
      \/ exists schema,
           Component.ajvCompiled this'
           = Component.ajvCompiled reboundToLayout ++ [schema]
           /\ Component.validateFormData this' = Some schema
  | Err _ => False
  end.
Proof.
  destruct (initializeForm plain reboundToLayout) as [this'|e] eqn:Hinit.
  - exact (schema_compiled_at_most_once plain reboundToLayout this' Hinit).
  - vm_compute in Hinit. discriminate.
Defined.

Lemma earlier_validator_witness :
  match initializeForm plain reboundToLayout with
  | Ok this' =>
      Component.validateFormData this' = Some selfReference
      /\ Component.ajvCompiled this' = [selfReference]
  | Err _ => False
  end.
Proof.
  destruct (initializeForm plain reboundToLayout) as [this'|e] eqn:Hinit.
  - exact (earlier_validator_is_kept
             plain reboundToLayout this' selfReference eq_refl eq_refl Hinit).
  - vm_compute in Hinit. discriminate.
Defined.

Lemma total_without_schema_witness :
  exists this', initializeForm plain wildcardOnly = Ok this'.
Proof.
  exact (initializeForm_total_without_schema plain wildcardOnly eq_refl).
Defined.

Lemma circular_references_witness :
  match resolveReferences plain
          (onJsf (Jsf.set_schema mixedReferences) newComponent) with
  | Ok this' =>
      Jsf.schemaCircularRefMap (Component.jsf this') !! "/properties/node"
      = Some ""
      /\ (exists node',
            JsonPointer.get (Jsf.schema (Component.jsf this'))
                            ["properties"; "node"] = Some node'
            /\ hasOwn node' "$ref" = true
            /\ prop node' "$ref" = VStr "#")
      /\ Jsf.schemaCircularRefMap (Component.jsf this')
         !! "/properties/node/properties/x" = None
  | Err _ => False
  end.
Proof.
  destruct (resolveReferences plain _) as [this'|e] eqn:Hpass;
    [|vm_compute in Hpass; discriminate].
  pose proof (circular_references_kept_and_recorded
                plain (onJsf (Jsf.set_schema mixedReferences) newComponent)
                this' eq_refl Hpass) as Hnodes.
  destruct (Hnodes
              (VObj [("$ref", VStr "#");
                     ("properties",
                      VObj [("x", VObj [("$ref", VStr "#/definitions/a")])])])
              "/properties/node" "#") as (_ & Hcircular & _);
    [apply list_elem_of_In; vm_compute; tauto | reflexivity | reflexivity |].
  destruct (Hnodes (VObj [("$ref", VStr "#/definitions/a")])
                   "/properties/node/properties/x" "#/definitions/a")
    as (_ & _ & Hplain);
    [apply list_elem_of_In; vm_compute; tauto | reflexivity | reflexivity |].
  destruct (Hcircular eq_refl) as [Hmap Hmarked].
  split; [exact Hmap|]. split; [exact Hmarked|].
  rewrite (Hplain eq_refl). reflexivity.
Defined.

Lemma alternate_layout_witness :
  match importAlternateLayout plain withWidgetHint with
  | Ok this' =>
      JsonPointer.get (Jsf.schema (Component.jsf this'))
                      ["properties"; "name"; "x-schema-form"; "widget"]
      = Some (VStr "textarea")
      /\ JsonPointer.get (Jsf.schema (Component.jsf this'))
                         ["properties"; "name"; "type"]
         = Some (VStr "string")
  | Err _ => False
  end.
Proof.
  destruct (importAlternateLayout plain withWidgetHint) as [this'|e]
    eqn:Himport; [|vm_compute in Himport; discriminate].
  destruct (alternate_layout_first_writer_wins
              plain withWidgetHint
              (fst (selectAlternateLayout plain withWidgetHint)) this'
              (snd (selectAlternateLayout plain withWidgetHint))
              eq_refl eq_refl Himport) as [Hkept Hturn].
  split.
  - destruct (Hturn
                [(VObj [("name", VObj [("ui:widget", VStr "textarea")])], "");
                 (VObj [("ui:widget", VStr "textarea")], "/name")]
                (VStr "textarea") "/name/ui:widget" [] "ui:widget"
                eq_refl eq_refl)
      as (j1 & j2 & Hbefore & _ & _ & Hcopy & Hend).
    vm_compute in Hbefore. injection Hbefore as <-.
    vm_compute in Hcopy. destruct Hcopy as [Hset _].
    apply (Hend (VStr "textarea")); [|reflexivity].
    vm_compute. rewrite Hset. reflexivity.
  - by apply (Hkept ["properties"; "name"; "type"] (VStr "string")).
Defined.
